(** * Viral-content automation tooling: port allocator, process supervisor,
      health checker, setup validator, startup sequencer, browser
      automation, GUI launcher and monitoring dashboard.

    A shallow embedding of the JavaScript utilities of the repository and the
    properties of their natural-language specification.

    Conventions of the embedding:
    - JavaScript numbers that hold ports, counters and exit codes are [Z];
    - a [Set] of ports is a [gset Z], a [Map] keyed by process name is a
      [gmap string _];
    - an [async] function is its synchronous effect on the owning object;
      whatever the operating system or the network decides (can a port be
      bound, does an HTTP probe answer, how does a child react to a signal)
      is an explicit environment argument;
    - a function that may [throw] returns a sum of its value and the error
      message. *)

From stdpp Require Import gmap strings list pretty sorting.
From Stdlib Require Import ZArith Lia Permutation.

Local Open Scope Z_scope.
Local Open Scope string_scope.
Local Open Scope list_scope.

(** [s.includes(needle)] of JavaScript strings. *)
Definition includes (needle s : string) : bool :=
  match String.index 0 needle s with
  | Some _ => true
  | None => false
  end.

(** [s.toLowerCase()] on ASCII text. *)
Definition lowerAscii (c : Ascii.ascii) : Ascii.ascii :=
  let n := Ascii.nat_of_ascii c in
  if bool_decide (65 <= n <= 90)%nat then Ascii.ascii_of_nat (n + 32) else c.

Fixpoint toLowerCase (s : string) : string :=
  match s with
  | EmptyString => EmptyString
  | String c s' => String (lowerAscii c) (toLowerCase s')
  end.

(* ===================================================================== *)
(** * utils/port-manager.js                                               *)
(* ===================================================================== *)

Module PortManager.

(** The object state: [this.reservedPorts].  ([processPortMap] is only
    ever cleared.) *)
Record t := mk { reservedPorts : gset Z }.

(** [new PortManager()] *)
Definition create : t := {| reservedPorts := ∅ |}.

(** The [options] argument of [findAvailablePort] after destructuring. *)
Record Options := {
  portRange : Z * Z;
  reservePort : bool;
  avoid : list Z
}.

(** The defaults of the destructuring pattern. *)
Definition defaults : Options :=
  {| portRange := (3000, 9999); reservePort := true; avoid := [] |}.

(** The object the function resolves with. *)
Record Found := { port : Z; isPreferred : bool; message : string }.

(** Resolved value or the message of the thrown [Error]. *)
Inductive Outcome :=
| Returned (r : Found)
| Thrown (msg : string).

(** [const excludePorts = new Set([...this.reservedPorts, ...avoid])] *)
Definition excludePorts (pm : t) (o : Options) : gset Z :=
  reservedPorts pm ∪ list_to_set (avoid o).

Section WithListeners.
(** [listens p] tells whether [net.createServer().listen(p)] succeeds at
    the time of the call, i.e. nobody else holds port [p]. *)
Variable listens : Z -> bool.

(** The inner [testPort] closure. *)
Definition testPort (excl : gset Z) (p : Z) : bool :=
  if decide (p ∈ excl) then false else listens p.

(** [for (let port = ...; port <= portRange[1]; port++)]: [n] is the
    number of iterations left, [p] the loop variable. *)
Fixpoint search (excl : gset Z) (p : Z) (n : nat) : option Z :=
  match n with
  | O => None
  | S n' => if testPort excl p then Some p else search excl (p + 1) n'
  end.

Definition reserve_if (b : bool) (p : Z) (pm : t) : t :=
  if b then {| reservedPorts := {[p]} ∪ reservedPorts pm |} else pm.

Definition findAvailablePort (pm : t) (preferredPort : Z) (o : Options)
  : Outcome * t :=
  let excl := excludePorts pm o in
  if testPort excl preferredPort then
    (Returned {| port := preferredPort; isPreferred := true;
                 message := "Using preferred port " +:+ pretty preferredPort |},
     reserve_if (reservePort o) preferredPort pm)
  else
    match search excl (preferredPort + 1)
            (Z.to_nat (snd (portRange o) - preferredPort)) with
    | Some p =>
        (Returned {| port := p; isPreferred := false;
                     message := "Port " +:+ pretty preferredPort +:+
                                " unavailable, using " +:+ pretty p |},
         reserve_if (reservePort o) p pm)
    | None =>
        (Thrown ("Cannot find available port in range " +:+
                 pretty preferredPort +:+ "-" +:+ pretty (snd (portRange o))),
         pm)
    end.
End WithListeners.

(** [reservePort(port)], [releasePort(port)], [cleanup()] *)
Definition reservePort_ (p : Z) (pm : t) : t :=
  {| reservedPorts := {[p]} ∪ reservedPorts pm |}.
Definition releasePort (p : Z) (pm : t) : t :=
  {| reservedPorts := reservedPorts pm ∖ {[p]} |}.
Definition cleanup (pm : t) : t := {| reservedPorts := ∅ |}.

(** The reading of "idempotent and free of persistent side effects" at one
    call: the object is unchanged and an identical second call resolves
    with the same value. *)
Definition side_effect_free_at (listens : Z -> bool) (pm : t) (P : Z)
    (o : Options) : Prop :=
  snd (findAvailablePort listens pm P o) = pm /\
  fst (findAvailablePort listens (snd (findAvailablePort listens pm P o)) P o)
  = fst (findAvailablePort listens pm P o).

(** ** Port sequences and service assignment *)

(** The options [{ reservePort: false }] of the call in
    [findPortSequence]. *)
Definition unreserved : Options :=
  {| portRange := (3000, 9999); reservePort := false; avoid := [] |}.

(** The [while (ports.length < count)] loop of [findPortSequence]; [n] is
    the number of ports still to find. [None] stands for the error of the
    inner call, which the [catch] block replaces by its own. *)
Fixpoint findPortSequence_loop (listens : Z -> bool) (pm : t) (currentPort : Z)
    (n : nat) : option (list Z) * t :=
  match n with
  | O => (Some [], pm)
  | S n' =>
      match findAvailablePort listens pm currentPort unreserved with
      | (Returned r, pm') =>
          let '(rest, pm'') := findPortSequence_loop listens pm' (port r + 1) n' in
          (cons (port r) <$> rest, pm'')
      | (Thrown _, pm') => (None, pm')
      end
  end.

(** [findPortSequence(startPort, count)] *)
Definition findPortSequence (listens : Z -> bool) (pm : t) (startPort : Z)
    (count : nat) : (string + list Z) * t :=
  match findPortSequence_loop listens pm startPort count with
  | (Some ports, pm') => (inr ports, pm')
  | (None, pm') =>
      (inl ("Could not find " +:+ pretty count +:+
            " sequential ports starting from " +:+ pretty startPort), pm')
  end.

(** [reservePortRange(startPort, count)] *)
Definition reservePortRange (listens : Z -> bool) (pm : t) (startPort : Z)
    (count : nat) : (string + list Z) * t :=
  match findPortSequence listens pm startPort count with
  | (inr ports, pm') => (inr ports, foldl (fun s p => reservePort_ p s) pm' ports)
  | (inl e, pm') => (inl e, pm')
  end.

(** [getRecommendedPorts()] *)
Definition getRecommendedPorts : list (string * Z) :=
  [("dashboard", 3000); ("api", 3001); ("websocket", 3002); ("health", 3003);
   ("metrics", 3004); ("debug", 9229)].

(** Names for which [recommended[service]] yields a member inherited from
    [Object.prototype] instead of a port or [undefined]. *)
Definition objectPrototypeKeys : list string :=
  ["constructor"; "__proto__"; "hasOwnProperty"; "isPrototypeOf";
   "propertyIsEnumerable"; "toLocaleString"; "toString"; "valueOf";
   "__defineGetter__"; "__defineSetter__"; "__lookupGetter__";
   "__lookupSetter__"].

(** [recommended[service] || 3000] *)
Definition preferredFor (service : string) : Z :=
  default 3000 (snd <$> List.find (fun kv => bool_decide (kv.1 = service))
                                  getRecommendedPorts).

(** The [for (const service of services)] loop of [autoAssignPorts]. The
    result is [None] when a service name is one of [objectPrototypeKeys]:
    the preferred port is then no number and the embedding does not
    apply. *)
Fixpoint autoAssignPorts_loop (listens : Z -> bool) (pm : t)
    (services : list string) (assignments : gmap string Z)
  : option ((string + gmap string Z) * t) :=
  match services with
  | [] => Some (inr assignments, pm)
  | service :: rest =>
      if bool_decide (service ∈ objectPrototypeKeys) then None
      else
        match findAvailablePort listens pm (preferredFor service) defaults with
        | (Returned r, pm') =>
            autoAssignPorts_loop listens pm' rest (<[service := port r]> assignments)
        | (Thrown m, pm') =>
            Some (inl ("Failed to assign port for service '" +:+ service +:+
                       "': " +:+ m), pm')
        end
  end.

(** [autoAssignPorts(services)] *)
Definition autoAssignPorts (listens : Z -> bool) (pm : t) (services : list string)
  : option ((string + gmap string Z) * t) :=
  autoAssignPorts_loop listens pm services ∅.

End PortManager.


(* ===================================================================== *)
(** * utils/process-manager.js                                            *)
(* ===================================================================== *)

Module ProcessManager.

(** [processConfig.status] *)
Inductive Status := starting | running | stopping | exited | error.

(** The signals the supervisor sends. *)
Inductive Signal := SIGTERM | SIGKILL.

#[global] Instance Status_eq_dec : EqDecision Status.
Proof. solve_decision. Defined.
#[global] Instance Signal_eq_dec : EqDecision Signal.
Proof. solve_decision. Defined.

(** What a spawned command does, as far as the supervisor can observe;
    this is the operating system's side of [child_process.spawn]. *)
Inductive Program :=
| ExitsAtOnce (code : Z)          (** ends by itself right after the spawn *)
| Daemon (ignoresSIGTERM : bool). (** runs until a signal ends it *)

(** The fields of [options] that [spawnProcess] reads for supervision. *)
Module SpawnOptions.
Record t := { timeout : Z; retries : Z; restartDelay : Z }.
Definition defaults : t :=
  {| timeout := 0; retries := 0; restartDelay := 5000 |}.
End SpawnOptions.

(** Node's [ChildProcess] handle. [killed] is set once [kill()] has
    sent a signal; it does not say that the child has ended. *)
Record ChildProcess := {
  pid : nat;
  killed : bool;
  hasExited : bool;        (** ['exit'] has been emitted *)
  received : list Signal   (** signals delivered while the program ran *)
}.

Record processConfig := {
  name : string;
  command : string;
  args : list string;
  options : SpawnOptions.t;
  restartCount : Z;
  maxRestarts : Z;
  restartDelay : Z;
  status : Status;
  exitCode : option (option Z);       (** [None]: field not yet set *)
  exitSignal : option (option Signal);
  process : ChildProcess;
  timeoutHandle : bool                (** a start timeout was armed *)
}.

(** Callbacks waiting in the event loop. Each closure is identified by
    the [processConfig] object it captured. *)
Inductive Task :=
| ChildExit (h : nat) (code : option Z) (signal : option Signal)
| RestartTimer (h : nat)
| ForceKillTimer (h : nat)
| TimeoutTimer (h : nat).

#[global] Instance Task_eq_dec : EqDecision Task.
Proof. solve_decision. Defined.

Inductive Event :=
| processExit (n : string) (code : option Z) (signal : option Signal)
| processRestart (n : string) (count : Z)
| processRestartFailed (n : string) (err : string)
| processTimeout (n : string) (ms : Z)
| shutdownEvent.

(** The supervisor. [processes] maps a name to the identity of a
    [processConfig] object; the objects themselves live in [configs], so
    that a closure and the registry can share one. [spawned] counts the
    calls of [child_process.spawn] and is the next fresh identity. *)
Record t := {
  processes : gmap string nat;
  isShuttingDown : bool;
  configs : gmap nat processConfig;
  spawned : nat;
  pending : list Task;
  emitted : list Event
}.

(** [new ProcessManager()] *)
Definition create : t :=
  {| processes := ∅; isShuttingDown := false; configs := ∅; spawned := 0%nat;
     pending := []; emitted := [] |}.

Definition set_processes (f : gmap string nat -> gmap string nat) (st : t) : t :=
  {| processes := f (processes st); isShuttingDown := isShuttingDown st;
     configs := configs st; spawned := spawned st; pending := pending st;
     emitted := emitted st |}.
Definition set_config (h : nat) (c : processConfig) (st : t) : t :=
  {| processes := processes st; isShuttingDown := isShuttingDown st;
     configs := <[h := c]> (configs st); spawned := spawned st;
     pending := pending st; emitted := emitted st |}.
Definition set_pending (f : list Task -> list Task) (st : t) : t :=
  {| processes := processes st; isShuttingDown := isShuttingDown st;
     configs := configs st; spawned := spawned st; pending := f (pending st);
     emitted := emitted st |}.
Definition emit (e : Event) (st : t) : t :=
  {| processes := processes st; isShuttingDown := isShuttingDown st;
     configs := configs st; spawned := spawned st; pending := pending st;
     emitted := emitted st ++ [e] |}.

Definition set_status (s : Status) (c : processConfig) : processConfig :=
  {| name := name c; command := command c; args := args c; options := options c;
     restartCount := restartCount c; maxRestarts := maxRestarts c;
     restartDelay := restartDelay c; status := s; exitCode := exitCode c;
     exitSignal := exitSignal c; process := process c;
     timeoutHandle := timeoutHandle c |}.
Definition set_process (p : ChildProcess) (c : processConfig) : processConfig :=
  {| name := name c; command := command c; args := args c; options := options c;
     restartCount := restartCount c; maxRestarts := maxRestarts c;
     restartDelay := restartDelay c; status := status c; exitCode := exitCode c;
     exitSignal := exitSignal c; process := p;
     timeoutHandle := timeoutHandle c |}.
(** The four assignments at the head of the ['exit'] listener. *)
Definition mark_exited (code : option Z) (signal : option Signal)
    (c : processConfig) : processConfig :=
  {| name := name c; command := command c; args := args c; options := options c;
     restartCount := restartCount c; maxRestarts := maxRestarts c;
     restartDelay := restartDelay c; status := exited; exitCode := Some code;
     exitSignal := Some signal;
     process := {| pid := pid (process c); killed := killed (process c);
                   hasExited := true; received := received (process c) |};
     timeoutHandle := timeoutHandle c |}.
(** [processConfig.restartCount++] *)
Definition incr_restartCount (c : processConfig) : processConfig :=
  {| name := name c; command := command c; args := args c; options := options c;
     restartCount := restartCount c + 1; maxRestarts := maxRestarts c;
     restartDelay := restartDelay c; status := status c; exitCode := exitCode c;
     exitSignal := exitSignal c; process := process c;
     timeoutHandle := timeoutHandle c |}.

Section WithOS.
(** The program behind each command. *)
Variable os : string -> Program.

(** [spawnProcess(name, command, args, options)] up to the point where
    the child is registered and its listeners are installed. A program
    that has not ended after the one-second grace timer is [running]; one
    that ends at once has its ['exit'] event queued. *)
Definition spawnProcess (st : t) (n cmd : string) (a : list string)
    (o : SpawnOptions.t) : string + t :=
  match processes st !! n with
  | Some _ => inl ("Process '" +:+ n +:+ "' is already running")
  | None =>
      let h := spawned st in
      let armed := bool_decide (0 < SpawnOptions.timeout o) in
      let cfg :=
        {| name := n; command := cmd; args := a; options := o;
           restartCount := 0; maxRestarts := SpawnOptions.retries o;
           restartDelay := SpawnOptions.restartDelay o;
           status := match os cmd with
                     | ExitsAtOnce _ => starting
                     | Daemon _ => running
                     end;
           exitCode := None; exitSignal := None;
           process := {| pid := h; killed := false; hasExited := false;
                         received := [] |};
           timeoutHandle := armed |} in
      inr {| processes := <[n := h]> (processes st);
             isShuttingDown := isShuttingDown st;
             configs := <[h := cfg]> (configs st);
             spawned := S h;
             pending := pending st
                        ++ match os cmd with
                           | ExitsAtOnce c => [ChildExit h (Some c) None]
                           | Daemon _ => []
                           end
                        ++ (if armed then [TimeoutTimer h] else []);
             emitted := emitted st |}
  end.

(** The ['exit'] listener installed by [spawnProcess] for the
    [processConfig] object [h]. *)
Definition handleExit (st : t) (h : nat) (code : option Z)
    (signal : option Signal) : t :=
  match configs st !! h with
  | None => st
  | Some cfg =>
      let st := if timeoutHandle cfg
                then set_pending (filter (fun k => k ≠ TimeoutTimer h)) st
                else st in
      let cfg := mark_exited code signal cfg in
      let st := emit (processExit (name cfg) code signal) (set_config h cfg st) in
      if bool_decide (code ≠ Some 0)
         && bool_decide (restartCount cfg < maxRestarts cfg)
         && negb (isShuttingDown st)
      then
        let cfg := incr_restartCount cfg in
        let st := emit (processRestart (name cfg) (restartCount cfg))
                       (set_config h cfg st) in
        set_pending (fun q => q ++ [RestartTimer h]) st
      else
        set_processes (delete (name cfg)) st
  end.

(** The [setTimeout] callback of the restart branch. *)
Definition restart (st : t) (h : nat) : t :=
  match configs st !! h with
  | None => st
  | Some cfg =>
      let st := set_processes (delete (name cfg)) st in
      match spawnProcess st (name cfg) (command cfg) (args cfg) (options cfg) with
      | inr st' => st'
      | inl err => emit (processRestartFailed (name cfg) err) st
      end
  end.

(** Does signal [s] end the program? *)
Definition fatal (p : Program) (s : Signal) : bool :=
  match p, s with
  | ExitsAtOnce _, _ => false
  | Daemon _, SIGKILL => true
  | Daemon ign, SIGTERM => negb ign
  end.

(** Is the program still running, given the signals it has received? *)
Definition osAlive (p : Program) (c : ChildProcess) : bool :=
  match p with
  | ExitsAtOnce _ => false
  | Daemon _ => negb (existsb (fatal p) (received c))
  end.

(** Node's [childProcess.kill(signal)]: [false] when the child has
    already been reaped; otherwise the signal is sent, [killed] becomes
    [true], and a running program receives it. *)
Definition kill (st : t) (h : nat) (s : Signal) : bool * t :=
  match configs st !! h with
  | None => (false, st)
  | Some cfg =>
      let c := process cfg in
      if hasExited c then (false, st)
      else
        let p := os (command cfg) in
        if osAlive p c then
          let c' := {| pid := pid c; killed := true; hasExited := false;
                       received := received c ++ [s] |} in
          (true,
           set_pending
             (fun q => q ++ if fatal p s then [ChildExit h None (Some s)] else [])
             (set_config h (set_process c' cfg) st))
        else
          let c' := {| pid := pid c; killed := true; hasExited := false;
                       received := received c |} in
          (true, set_config h (set_process c' cfg) st)
  end.

(** [killProcess(name, signal)] *)
Definition killProcess (st : t) (n : string) (s : Signal) : (string + bool) * t :=
  match processes st !! n with
  | None => (inl ("Process '" +:+ n +:+ "' not found"), st)
  | Some h =>
      match configs st !! h with
      | None => (inl ("Process '" +:+ n +:+ "' not found"), st)
      | Some cfg =>
          if negb (killed (process cfg)) then
            let st := set_config h (set_status stopping cfg) st in
            let st := snd (kill st h s) in
            let st := if decide (s ≠ SIGKILL)
                      then set_pending (fun q => q ++ [ForceKillTimer h]) st
                      else st in
            (inr true, st)
          else (inr false, st)
      end
  end.

(** One turn of the event loop: the oldest waiting callback runs. *)
Definition step (st : t) : t :=
  match pending st with
  | [] => st
  | k :: rest =>
      let st := set_pending (fun _ => rest) st in
      match k with
      | ChildExit h code signal => handleExit st h code signal
      | RestartTimer h => restart st h
      | ForceKillTimer h =>
          match configs st !! h with
          | Some cfg => if negb (killed (process cfg))
                        then snd (kill st h SIGKILL) else st
          | None => st
          end
      | TimeoutTimer h =>
          match configs st !! h with
          | Some cfg =>
              emit (processTimeout (name cfg) (SpawnOptions.timeout (options cfg)))
                   (snd (killProcess st (name cfg) SIGKILL))
          | None => st
          end
      end
  end.

Fixpoint run (n : nat) (st : t) : t :=
  match n with
  | O => st
  | S n' => run n' (step st)
  end.

Definition statusOf (st : t) (h : nat) : option Status :=
  status <$> configs st !! h.
Definition exitedOf (st : t) (h : nat) : bool :=
  match configs st !! h with
  | Some cfg => hasExited (process cfg)
  | None => true
  end.

(** [shutdown()]. Every callback of the [map] first runs up to its
    [await], so all [killProcess(name, 'SIGTERM')] calls happen before
    anything else. [window] is the number of event-loop turns that fit
    into the ten seconds of [waitForProcessExit]; a wait resolves when
    the config was already [exited] or its child emitted ['exit']
    meanwhile, and is otherwise rejected, which leads to the
    [killProcess(name, 'SIGKILL')] of the [catch] block. *)
Definition beginShutdown (st : t) : t :=
  emit shutdownEvent
    {| processes := processes st; isShuttingDown := true;
       configs := configs st; spawned := spawned st;
       pending := pending st; emitted := emitted st |}.

Definition terminateAll (targets : list (string * nat)) (st : t) : t :=
  foldl (fun s nh => snd (killProcess s nh.1 SIGTERM)) st targets.

Definition waitResolved (st1 st2 : t) (h : nat) : bool :=
  bool_decide (statusOf st1 h = Some exited)
  || (negb (exitedOf st1 h) && exitedOf st2 h).

Definition forceStragglers (targets : list (string * nat)) (st1 st2 : t) : t :=
  foldl (fun s nh => if waitResolved st1 st2 nh.2 then s
                     else snd (killProcess s nh.1 SIGKILL))
        st2 targets.

Definition shutdown (window : nat) (st : t) : t :=
  if isShuttingDown st then st
  else
    let targets := map_to_list (processes st) in
    let st1 := terminateAll targets (beginShutdown st) in
    let st2 := run window st1 in
    set_processes (fun _ => ∅) (forceStragglers targets st1 st2).
End WithOS.

(** A command that always ends at once with exit code 1, like
    [/bin/false]. *)
Definition always_fails : string -> Program := fun _ => ExitsAtOnce 1.

(** A command that always ends at once with exit code 0. *)
Definition always_succeeds : string -> Program := fun _ => ExitsAtOnce 0.

(** A long-running program that does not react to [SIGTERM]. *)
Definition stubborn : string -> Program := fun _ => Daemon true.

(** A long-running program that ends on [SIGTERM]. *)
Definition cooperative : string -> Program := fun _ => Daemon false.

(** A fresh supervisor after one [spawnProcess(n, cmd, [], o)]. *)
Definition spawned_alone (os : string -> Program) (n cmd : string)
    (o : SpawnOptions.t) : t :=
  match spawnProcess os create n cmd [] o with
  | inr st => st
  | inl _ => create
  end.

(** [spawnProcess('x', 'false', [], {retries: R, restartDelay: 0})] *)
Definition failing_with (R : Z) : t :=
  spawned_alone always_fails "x" "false"
    {| SpawnOptions.timeout := 0; SpawnOptions.retries := R;
       SpawnOptions.restartDelay := 0 |}.

(** [spawnProcess('x', 'false', [], {retries: 2, restartDelay: 0})] *)
Definition failing_x : t := failing_with 2.

(** [spawnProcess('job', 'true', [], {retries: 5})]: a command that ends
    at once with exit code 0, with a restart budget of five. *)
Definition succeeding_job : t :=
  spawned_alone always_succeeds "job" "true"
    {| SpawnOptions.timeout := 0; SpawnOptions.retries := 5;
       SpawnOptions.restartDelay := 5000 |}.

(** One registered server that ignores [SIGTERM]. *)
Definition straggler : t :=
  spawned_alone stubborn "x" "server" SpawnOptions.defaults.

(** The straggler scenario right after the [SIGTERM]s of [shutdown()]. *)
Definition straggler_signalled : t :=
  terminateAll stubborn (map_to_list (processes straggler))
    (beginShutdown straggler).

(** The signals that child [h] has received. *)
Definition signalsOf (st : t) (h : nat) : list Signal :=
  match configs st !! h with
  | Some cfg => received (process cfg)
  | None => []
  end.

(** [isProcessRunning(name)], as a truth value. *)
Definition isProcessRunning (st : t) (n : string) : bool :=
  match processes st !! n with
  | Some h =>
      match configs st !! h with
      | Some cfg => bool_decide (status cfg = running) && negb (killed (process cfg))
      | None => false
      end
  | None => false
  end.

(** [spawnProcess('x', 'server', [], {retries: 1})] of a server that ends
    on [SIGTERM]. *)
Definition supervised_server : t :=
  spawned_alone cooperative "x" "server"
    {| SpawnOptions.timeout := 0; SpawnOptions.retries := 1;
       SpawnOptions.restartDelay := 5000 |}.

(** [spawnProcess('y', 'server')] on a supervisor in state [st]. *)
Definition spawned_alone_after (st : t) : t :=
  match spawnProcess cooperative st "y" "server" [] SpawnOptions.defaults with
  | inr st' => st'
  | inl _ => st
  end.

(** ** The wait for a restart *)

(** The [processConfig] object that a callback holds. *)
Definition handleOf (k : Task) : nat :=
  match k with
  | ChildExit h _ _ => h
  | RestartTimer h => h
  | ForceKillTimer h => h
  | TimeoutTimer h => h
  end.

(** A callback of another process: it holds another object than [h], and
    that object does not carry the name [n]. *)
Definition foreign (n : string) (h : nat) (st : t) (k : Task) : Prop :=
  handleOf k <> h /\
  forall cfg, configs st !! handleOf k = Some cfg -> name cfg <> n.

(** A callback that may run while object [h], registered as [n], waits for
    its restart: the force-kill timer of an earlier [killProcess] on it, or
    a callback of another process. *)
Definition bystander (n : string) (h : nat) (st : t) (k : Task) : Prop :=
  k = ForceKillTimer h \/ foreign n h st k.

(** Object [h], registered under the name [n] and under no other, has
    handled its ['exit'] and its restart timer waits behind callbacks that
    are all bystanders. *)
Definition waits_for_restart (n : string) (h : nat) (st : t) : Prop :=
  (h < spawned st)%nat /\
  processes st !! n = Some h /\
  (forall m, processes st !! m = Some h -> m = n) /\
  (exists cfg, configs st !! h = Some cfg /\ name cfg = n /\
               status cfg = exited /\ hasExited (process cfg) = true) /\
  exists q r, pending st = q ++ RestartTimer h :: r /\
              Forall (bystander n h st) q.

(** A machine where [false] ends at once with exit code 1 and every other
    command is a server that ends on [SIGTERM]. *)
Definition false_and_servers : string -> Program :=
  fun cmd => if bool_decide (cmd = "false") then ExitsAtOnce 1 else Daemon false.

(** [spawnProcess('y', 'server', [], {timeout: 1000})] followed by
    [spawnProcess('x', 'false', [], {retries: 2})], at the
    moment the ['exit'] of [x] is about to be handled: the start timeout
    of [y] is the only callback waiting. *)
Definition x_exits_beside_y : t :=
  match spawnProcess false_and_servers create "y" "server" []
          {| SpawnOptions.timeout := 1000; SpawnOptions.retries := 0;
             SpawnOptions.restartDelay := 5000 |} with
  | inr st =>
      match spawnProcess false_and_servers st "x" "false" []
              {| SpawnOptions.timeout := 0; SpawnOptions.retries := 2;
                 SpawnOptions.restartDelay := 5000 |} with
      | inr st' => set_pending (fun _ => [TimeoutTimer 0]) st'
      | inl _ => create
      end
  | inl _ => create
  end.

End ProcessManager.


(* ===================================================================== *)
(** * scripts/health-check.js                                             *)
(* ===================================================================== *)

Module HealthChecker.

Inductive HealthStatus := healthy | degraded | unhealthy.

#[global] Instance HealthStatus_eq_dec : EqDecision HealthStatus.
Proof. solve_decision. Defined.

(** The HTTP probes of [generateHealthReport]: [checkOpenAIHealth], the
    two entries of the [apis] array of [checkRapidAPIHealth],
    [checkApifyHealth] and [checkAirTableHealth]. *)
Inductive Probe := OpenAI | InstagramScraper | TikTokAPI | Apify | AirTable.

#[global] Instance Probe_eq_dec : EqDecision Probe.
Proof. solve_decision. Defined.

Definition all_probes : list Probe :=
  [OpenAI; InstagramScraper; TikTokAPI; Apify; AirTable].

(** What the [try] block around [axios.get] sees: it ran to its end
    ([gpt4] tells, for the OpenAI probe, whether a gpt-4 model is listed),
    or control reached [catch] with [error.message]. *)
Inductive Response :=
| Answered (gpt4 : bool)
| Failed (message : string).

(** The text each [catch] block puts before [error.message]. *)
Definition label (p : Probe) : string :=
  match p with
  | OpenAI => "OpenAI API"
  | InstagramScraper => "Instagram Scraper"
  | TikTokAPI => "TikTok API"
  | Apify => "Apify API"
  | AirTable => "AirTable API"
  end.

(** [this.healthData]; [apis] keeps, per finished probe, the recorded
    error if any. Timings, rate limits and file listings are left out. *)
Record healthData := {
  status : HealthStatus;
  apis : list (Probe * option string);
  warnings : list string;
  errors : list string
}.

(** The constructor. *)
Definition create : healthData :=
  {| status := healthy; apis := []; warnings := []; errors := [] |}.

Record Env := {
  http : Probe -> Response;
  (** the order in which the probes started by [Promise.all] finish *)
  completion : list Probe;
  (** [Math.round(heapUsed / 1024 / 1024)] *)
  heapUsedMB : Z;
  (** [parseInt(diskSpace.usedPercentage)], when [df] could be read *)
  diskUsedPercentage : option Z;
  (** an exception out of [checkSystemPerformance], if any *)
  performanceError : option string;
  (** an exception out of [saveHealthReport], if any *)
  saveError : option string
}.

(** The tail of one probe: the end of its [try] block or its [catch]. *)
Definition complete (p : Probe) (r : Response) (d : healthData) : healthData :=
  match r with
  | Answered gpt4 =>
      {| status := status d;
         apis := apis d ++ [(p, None)];
         warnings := warnings d ++
                     (if decide (p = OpenAI) then
                        if gpt4 then [] else ["GPT-4 model not available"]
                      else []);
         errors := errors d |}
  | Failed m =>
      {| status := status d;
         apis := apis d ++ [(p, Some m)];
         warnings := warnings d;
         errors := errors d ++ [label p +:+ ": " +:+ m] |}
  end.

(** The "Performance warnings" of [checkSystemPerformance]. *)
Definition performanceWarnings (e : Env) : list string :=
  (if bool_decide (512 < heapUsedMB e)
   then ["High memory usage: " +:+ pretty (heapUsedMB e) +:+ "MB"] else [])
  ++ match diskUsedPercentage e with
     | Some d => if bool_decide (80 < d)
                 then ["High disk usage: " +:+ pretty d +:+ "%"] else []
     | None => []
     end.

(** "Determine overall health status" *)
Definition aggregate (d : healthData) : HealthStatus :=
  let hasErrors := bool_decide (0 < length (errors d))%nat in
  let hasWarnings := bool_decide (0 < length (warnings d))%nat in
  if hasErrors then unhealthy
  else if hasWarnings then degraded
  else healthy.

(** [generateHealthReport()]: the thrown message if any, and the object
    state afterwards. [checkRateLimits] and [checkWorkflowStatus] catch
    their own errors and write neither to [errors] nor to [warnings]. *)
Definition generateHealthReport (e : Env) (d : healthData)
  : option string * healthData :=
  let d := foldl (fun d p => complete p (http e p) d) d (completion e) in
  match performanceError e with
  | Some err => (Some err, d)
  | None =>
      let d := {| status := status d; apis := apis d;
                  warnings := warnings d ++ performanceWarnings e;
                  errors := errors d |} in
      (None, {| status := aggregate d; apis := apis d;
                warnings := warnings d; errors := errors d |})
  end.

(** The value [run()] resolves with. *)
Record RunResult := {
  success : bool;
  reported : option HealthStatus;
  error : option string
}.

Definition run (e : Env) (d : healthData) : RunResult * healthData :=
  match generateHealthReport e d with
  | (Some err, d') =>
      ({| success := false; reported := None; error := Some err |}, d')
  | (None, d') =>
      match saveError e with
      | Some err =>
          ({| success := false; reported := None; error := Some err |}, d')
      | None =>
          ({| success := bool_decide (status d' ≠ unhealthy);
              reported := Some (status d'); error := None |}, d')
      end
  end.

(** The [require.main === module] block:
    [process.exit(result.success ? 0 : 1)]. *)
Definition main (e : Env) : Z :=
  if success (fst (run e create)) then 0 else 1.

(** Every probe ends in a network error; the machine itself is fine. *)
Definition network_down : Env :=
  {| http := fun _ => Failed "Network Error";
     completion := all_probes;
     heapUsedMB := 64; diskUsedPercentage := Some 40;
     performanceError := None; saveError := None |}.

(** All probes answer, but memory use is high. *)
Definition memory_pressure : Env :=
  {| http := fun _ => Answered true;
     completion := all_probes;
     heapUsedMB := 600; diskUsedPercentage := Some 40;
     performanceError := None; saveError := None |}.

(** [error.message] of a probe, empty when the probe answered. *)
Definition messageOf (e : Env) (p : Probe) : string :=
  match http e p with
  | Failed m => m
  | Answered _ => ""
  end.

(** The entry the [catch] block of probe [p] pushes to [errors]. *)
Definition errorEntry (e : Env) (p : Probe) : string :=
  label p +:+ ": " +:+ messageOf e p.

(** The sentence of the specification about the all-probes-down report,
    read at one environment: status [unhealthy] and four error entries. *)
Definition four_errors_at (e : Env) : Prop :=
  let d := snd (generateHealthReport e create) in
  status d = unhealthy /\ length (errors d) = 4%nat.

(** ** Report files *)

(** [file.startsWith('health-report-')] *)
Definition isReport (file : string) : bool := String.prefix "health-report-" file.

(** The file name built from the time stamp. *)
Definition reportName (timestamp : string) : string :=
  "health-report-" +:+ timestamp +:+ ".json".

(** The order of [Array.prototype.sort()] without a comparator, on names
    made of ASCII characters. *)
Definition nameLe (a b : string) : Prop := String.leb a b = true.

#[global] Instance nameLe_dec (a b : string) : Decision (nameLe a b).
Proof. unfold nameLe. apply _. Defined.

(** [fs.readdirSync(reportsDir).filter(...).sort().reverse()] *)
Definition newestFirst (dir : gset string) : list string :=
  reverse (merge_sort nameLe (filter (fun f => isReport f = true) (elements dir))).

(** The effect of [saveHealthReport()] on the reports directory, when no
    file operation fails: the report is written, then all but the ten
    first names of the reversed sorted listing are unlinked. *)
Definition saveHealthReport (timestamp : string) (dir : gset string) : gset string :=
  let dir := {[reportName timestamp]} ∪ dir in
  let reports := newestFirst dir in
  if bool_decide (10 < length reports)%nat
  then dir ∖ list_to_set (drop 10 reports)
  else dir.

(** The errors and warnings one finished probe contributes. *)
Definition errorsOf (e : Env) (p : Probe) : list string :=
  match http e p with
  | Failed m => [label p +:+ ": " +:+ m]
  | Answered _ => []
  end.
Definition warningsOf (e : Env) (p : Probe) : list string :=
  match http e p with
  | Answered gpt4 =>
      if decide (p = OpenAI) then
        if gpt4 then [] else ["GPT-4 model not available"]
      else []
  | Failed _ => []
  end.

(** Twelve report files of one day and one unrelated file. *)
Definition crowded : gset string :=
  list_to_set
    ["health-report-2024-01-01T00-00-00-000Z.json";
     "health-report-2024-01-01T01-00-00-000Z.json";
     "health-report-2024-01-01T02-00-00-000Z.json";
     "health-report-2024-01-01T03-00-00-000Z.json";
     "health-report-2024-01-01T04-00-00-000Z.json";
     "health-report-2024-01-01T05-00-00-000Z.json";
     "health-report-2024-01-01T06-00-00-000Z.json";
     "health-report-2024-01-01T07-00-00-000Z.json";
     "health-report-2024-01-01T08-00-00-000Z.json";
     "health-report-2024-01-01T09-00-00-000Z.json";
     "health-report-2024-01-01T10-00-00-000Z.json";
     "health-report-2024-01-01T11-00-00-000Z.json";
     "notes.txt"].

End HealthChecker.

(* ===================================================================== *)
(** * scripts/validate-setup.js                                           *)
(* ===================================================================== *)

Module SetupValidator.

(** A document as [JSON.parse] returns it. *)
#[local] Unset Elimination Schemes.
Inductive json :=
| JNull
| JBool (b : bool)
| JNumber (n : Z)
| JString (s : string)
| JArray (items : list json)
| JObject (fields : list (string * json)).
#[local] Set Elimination Schemes.

Fixpoint assoc (k : string) (fs : list (string * json)) : option json :=
  match fs with
  | [] => None
  | (k', v) :: fs' => if decide (k = k') then Some v else assoc k fs'
  end.

(** [v.k]: a [TypeError] on [null], [undefined] (here [None]) when the
    property is absent. *)
Definition getProp (v : json) (k : string) : string + option json :=
  match v with
  | JNull => inl ("Cannot read properties of null (reading '" +:+ k +:+ "')")
  | JObject fs => inr (assoc k fs)
  | _ => inr None
  end.

(** JavaScript truthiness. *)
Definition truthy (v : option json) : bool :=
  match v with
  | None => false
  | Some JNull => false
  | Some (JBool b) => b
  | Some (JNumber n) => negb (Z.eqb n 0)
  | Some (JString s) => negb (bool_decide (s = ""))
  | Some (JArray _) => true
  | Some (JObject _) => true
  end.

(** [!v.k] *)
Definition missing (v : json) (k : string) : string + bool :=
  match getProp v k with
  | inl e => inl e
  | inr x => inr (negb (truthy x))
  end.

(** [a || b] over expressions that may throw, left to right. *)
Definition orElse (a b : string + bool) : string + bool :=
  match a with
  | inl e => inl e
  | inr true => inr true
  | inr false => b
  end.

(** The object a [validate...] method returns. *)
Record CheckResult := { success : bool; message : option string }.

Definition pass : CheckResult := {| success := true; message := None |}.
Definition fail (m : string) : CheckResult :=
  {| success := false; message := Some m |}.

(** A validation function either returns its result object or throws;
    it may have called [this.warn] on the way. *)
Record Outcome := { result : string + CheckResult; warned : list string }.

(** The file system under the project root: [None] when the path does
    not exist, otherwise what [JSON.parse(fs.readFileSync(path))] does:
    throw with a message, or return a document. *)
Definition Files := string -> option (string + json).

Record Env := {
  files : Files;
  systemDependencies : Outcome;
  environmentVariables : Outcome;
  workflowFiles : Outcome;
  promptFiles : Outcome;
  documentation : Outcome;
  openAICredentials : Outcome;
  rapidAPICredentials : Outcome;
  apifyCredentials : Outcome;
  airTableCredentials : Outcome
}.

Definition configFiles : list string :=
  ["config/airtable-schema.json"; "config/platforms.json"; ".env.example"].

Definition existsSync (fs : Files) (path : string) : bool :=
  match fs path with Some _ => true | None => false end.

Definition parseFile (fs : Files) (path : string) : string + json :=
  match fs path with
  | Some r => r
  | None => inl ("ENOENT: no such file or directory, open '" +:+ path +:+ "'")
  end.

(** [validateConfigurationFiles()] *)
Definition validateConfigurationFiles (fs : Files) : CheckResult :=
  match List.find (fun f => negb (existsSync fs f)) configFiles with
  | Some filePath => fail ("Missing configuration file: " +:+ filePath)
  | None =>
      let body : string + CheckResult :=
        match parseFile fs "config/airtable-schema.json" with
        | inl e => inl e
        | inr airtableSchema =>
            match parseFile fs "config/platforms.json" with
            | inl e => inl e
            | inr platformsConfig =>
                match orElse (missing airtableSchema "tables")
                             (missing airtableSchema "base_name") with
                | inl e => inl e
                | inr true => inr (fail "Invalid AirTable schema structure")
                | inr false =>
                    match orElse (missing platformsConfig "instagram")
                            (orElse (missing platformsConfig "linkedin")
                                    (missing platformsConfig "tiktok")) with
                    | inl e => inl e
                    | inr true =>
                        inr (fail "Invalid platforms configuration structure")
                    | inr false => inr pass
                    end
                end
            end
        end in
      match body with
      | inr r => r
      | inl e => fail ("Error parsing configuration files: " +:+ e)
      end
  end.

(** The validator object. *)
Record t := {
  errors : list string;
  warnings : list string;
  checks : nat;
  passed : nat
}.

Definition create : t :=
  {| errors := []; warnings := []; checks := 0; passed := 0 |}.

(** [result?.message || 'Check failed'] *)
Definition messageOf (r : CheckResult) : string :=
  match message r with
  | Some m => if decide (m = "") then "Check failed" else m
  | None => "Check failed"
  end.

(** [check(description, validationFn)] and [asyncCheck]: both have the
    same body. *)
Definition check (description : string) (o : Outcome) (v : t) : bool * t :=
  let v := {| errors := errors v; warnings := warnings v ++ warned o;
              checks := S (checks v); passed := passed v |} in
  match result o with
  | inr r =>
      if success r then
        (true, {| errors := errors v; warnings := warnings v;
                  checks := checks v; passed := S (passed v) |})
      else
        (false, {| errors := errors v ++ [description +:+ ": " +:+ messageOf r];
                   warnings := warnings v; checks := checks v;
                   passed := passed v |})
  | inl e =>
      (false, {| errors := errors v ++ [description +:+ ": " +:+ e];
                 warnings := warnings v; checks := checks v;
                 passed := passed v |})
  end.

Definition returns (r : CheckResult) : Outcome :=
  {| result := inr r; warned := [] |}.

(** The object [runValidation()] resolves with. *)
Record Report := {
  report_success : bool;
  report_passed : nat;
  report_total : nat;
  report_errors : list string;
  report_warnings : list string
}.

Definition runValidation (e : Env) (v : t) : Report * t :=
  let v := snd (check "System dependencies (Node.js, npm, git)" (systemDependencies e) v) in
  let v := snd (check "Environment variables" (environmentVariables e) v) in
  let v := snd (check "Configuration files"
                      (returns (validateConfigurationFiles (files e))) v) in
  let v := snd (check "Workflow files" (workflowFiles e) v) in
  let v := snd (check "Prompt files" (promptFiles e) v) in
  let v := snd (check "Documentation files" (documentation e) v) in
  let v := snd (check "OpenAI API credentials" (openAICredentials e) v) in
  let v := snd (check "RapidAPI credentials" (rapidAPICredentials e) v) in
  let v := snd (check "Apify API credentials" (apifyCredentials e) v) in
  let v := snd (check "AirTable API credentials" (airTableCredentials e) v) in
  ({| report_success := bool_decide (length (errors v) = 0%nat);
      report_passed := passed v; report_total := checks v;
      report_errors := errors v; report_warnings := warnings v |}, v).

(** A project whose [config/platforms.json] holds [{}] and where
    everything else is in order. *)
Definition empty_platforms : Env :=
  let ok := returns pass in
  {| files := fun path =>
       if decide (path = "config/airtable-schema.json") then
         Some (inr (JObject [("base_name", JString "Viral Content");
                             ("tables", JArray [JObject []])]))
       else if decide (path = "config/platforms.json") then
         Some (inr (JObject []))
       else if decide (path = ".env.example") then
         Some (inl "Unexpected token # in JSON at position 0")
       else None;
     systemDependencies := ok; environmentVariables := ok;
     workflowFiles := ok; promptFiles := ok; documentation := ok;
     openAICredentials := ok; rapidAPICredentials := ok;
     apifyCredentials := ok; airTableCredentials := ok |}.

(** ** Environment variables and workflow files *)

Definition requiredVars : list string :=
  ["AIRTABLE_BASE_ID"; "AIRTABLE_API_KEY"; "OPENAI_API_KEY"; "RAPIDAPI_KEY";
   "APIFY_TOKEN"; "GMAIL_ADDRESS"].

(** [process.env[v]] as a string, empty when the variable is not set. *)
Definition envValue (env : string -> option string) (v : string) : string :=
  default "" (env v).

(** [!process.env[v]] *)
Definition unset (env : string -> option string) (v : string) : bool :=
  bool_decide (envValue env v = "").

(** [l.join(sep)] *)
Fixpoint join (sep : string) (l : list string) : string :=
  match l with
  | [] => ""
  | [x] => x
  | x :: rest => x +:+ sep +:+ join sep rest
  end.

(** The double-quote character. *)
Definition quote : string := String (Ascii.ascii_of_nat 34) EmptyString.

Definition shouldStartWith (v pre : string) : string :=
  v +:+ " should start with " +:+ quote +:+ pre +:+ quote.

(** [validateEnvironmentVariables()] *)
Definition validateEnvironmentVariables (env : string -> option string)
  : CheckResult :=
  let missingVars := filter (fun v => unset env v = true) requiredVars in
  if bool_decide (0 < length missingVars)%nat then
    fail ("Missing environment variables: " +:+ join ", " missingVars)
  else if negb (String.prefix "app" (envValue env "AIRTABLE_BASE_ID")) then
    fail (shouldStartWith "AIRTABLE_BASE_ID" "app")
  else if negb (String.prefix "key" (envValue env "AIRTABLE_API_KEY")) then
    fail (shouldStartWith "AIRTABLE_API_KEY" "key")
  else if negb (String.prefix "sk-" (envValue env "OPENAI_API_KEY")) then
    fail (shouldStartWith "OPENAI_API_KEY" "sk-")
  else if negb (String.prefix "apify_api_" (envValue env "APIFY_TOKEN")) then
    fail (shouldStartWith "APIFY_TOKEN" "apify_api_")
  else pass.

(** The [workflowFiles] array. *)
Definition workflowPaths : list string :=
  ["workflows/n8n/viral-content-research.json";
   "workflows/n8n/content-generation-pipeline.json"].

(** One turn of the loop of [validateWorkflowFiles]: the result it returns
    for [filePath], or [None] when the loop goes on. *)
Definition checkWorkflowFile (fs : Files) (filePath : string) : option CheckResult :=
  if negb (existsSync fs filePath) then
    Some (fail ("Missing workflow file: " +:+ filePath))
  else
    let body : string + option CheckResult :=
      match parseFile fs filePath with
      | inl e => inl e
      | inr workflow =>
          match orElse (missing workflow "name")
                  (orElse (missing workflow "nodes")
                          (missing workflow "connections")) with
          | inl e => inl e
          | inr true =>
              inr (Some (fail ("Invalid workflow structure in " +:+ filePath)))
          | inr false =>
              match getProp workflow "nodes" with
              | inl e => inl e
              | inr (Some (JArray (_ :: _))) => inr None
              | inr _ =>
                  inr (Some (fail ("No nodes found in workflow " +:+ filePath)))
              end
          end
      end in
    match body with
    | inr r => r
    | inl e => Some (fail ("Error parsing workflow file " +:+ filePath +:+
                           ": " +:+ e))
    end.

Fixpoint validateWorkflowFiles_loop (fs : Files) (paths : list string) : CheckResult :=
  match paths with
  | [] => pass
  | filePath :: rest =>
      match checkWorkflowFile fs filePath with
      | Some r => r
      | None => validateWorkflowFiles_loop fs rest
      end
  end.

(** [validateWorkflowFiles()] *)
Definition validateWorkflowFiles (fs : Files) : CheckResult :=
  validateWorkflowFiles_loop fs workflowPaths.

(** [v.k] is present and truthy. *)
Definition present (v : json) (k : string) : Prop :=
  exists x, getProp v k = inr x /\ truthy x = true.

(** A complete set of well-formed credentials. *)
Definition good_env (v : string) : option string :=
  if decide (v = "AIRTABLE_BASE_ID") then Some "appXYZ"
  else if decide (v = "AIRTABLE_API_KEY") then Some "key123"
  else if decide (v = "OPENAI_API_KEY") then Some "sk-abc"
  else if decide (v = "RAPIDAPI_KEY") then Some "r4p1d"
  else if decide (v = "APIFY_TOKEN") then Some "apify_api_t0k"
  else if decide (v = "GMAIL_ADDRESS") then Some "me@example.com"
  else None.

(** Two workflow files with one node each. *)
Definition good_workflows : Files := fun path =>
  if bool_decide (path ∈ workflowPaths) then
    Some (inr (JObject [("name", JString "research");
                        ("nodes", JArray [JObject []]);
                        ("connections", JObject [])]))
  else None.

(** What [validateWorkflowFiles] asks of one workflow file. *)
Definition well_formed_workflow (fs : Files) (filePath : string) : Prop :=
  exists doc,
    fs filePath = Some (inr doc) /\
    present doc "name" /\ present doc "connections" /\
    exists node nodes, getProp doc "nodes" = inr (Some (JArray (node :: nodes))).

End SetupValidator.


(* ===================================================================== *)
(** * start.js                                                            *)
(* ===================================================================== *)

Module ViralContentStartup.

Inductive Mode := development | production.

#[global] Instance Mode_eq_dec : EqDecision Mode.
Proof. solve_decision. Defined.

Record Options := {
  skipTests : bool;
  skipValidation : bool;
  skipHealthCheck : bool;
  openBrowser : bool;
  port : Z;
  mode : Mode;
  gui : bool;
  quick : bool
}.

(** The defaults of the constructor. *)
Definition defaults : Options :=
  {| skipTests := false; skipValidation := false; skipHealthCheck := false;
     openBrowser := true; port := 3000; mode := development; gui := false;
     quick := false |}.

(** How an [async] method settles. *)
Inductive Outcome :=
| Resolved (v : option string)
| Rejected (err : string).

(** How [execAsync(command)] settles. *)
Inductive Exec :=
| ExecOk (stdout stderr : string)
| ExecError (message : string) (code : option string).

(** The first event of the spawned dashboard that settles the promise of
    [startMonitoringDashboard]. *)
Inductive DashboardEvent :=
| Started                 (** stdout mentions the port or "started" *)
| AddressInUse            (** stderr mentions EADDRINUSE *)
| SpawnError (m : string) (** the ['error'] event *)
| Exited (code : Z)       (** the ['exit'] event with a numeric code *)
| Silent.                 (** nothing within 30 seconds *)

(** Everything [start.js] asks of the machine it runs on. The three
    [match...] fields stand for the regular expressions applied to the
    test and coverage output. *)
Record Env := {
  nodeVersion : string;
  nodeMajor : Z;
  freeMemMB : Z;
  cwdAccessible : bool;
  envFile : bool;
  envExample : bool;
  nodeModules : bool;
  exec : string -> Exec;
  matchFailed : string -> option Z;
  matchPassed : string -> option string;
  matchCoverage : string -> option (string * bool);
  listens : Z -> bool;
  dashboard : DashboardEvent;
  welcomeError : option string;
  launcherError : option string
}.

(** The startup object; [processes] holds each child with its [killed]
    flag, [terminated] the children that [cleanup] has signalled. The
    port manager is the module-level singleton of [port-manager.js]. *)
Record t := {
  options : Options;
  processes : list (string * bool);
  isShuttingDown : bool;
  portManager : PortManager.t;
  terminated : list string
}.

Definition create (o : Options) : t :=
  {| options := o; processes := []; isShuttingDown := false;
     portManager := PortManager.create; terminated := [] |}.

(** [cleanup()] *)
Definition cleanup (st : t) : t :=
  {| options := options st;
     processes := [];
     isShuttingDown := isShuttingDown st;
     portManager := portManager st;
     terminated := terminated st
                   ++ (filter (fun nk => nk.2 = false) (processes st)).*1 |}.

Definition newline : string := String (Ascii.ascii_of_nat 10) EmptyString.

(** [s.split('\n')[0]] *)
Definition firstLine (s : string) : string :=
  match String.index 0 newline s with
  | Some i => String.substring 0 i s
  | None => s
  end.

Section WithEnv.
Variable e : Env.

Definition checkSystemRequirements : Outcome :=
  if bool_decide (nodeMajor e < 16) then
    Rejected ("Node.js Version: Node.js " +:+ nodeVersion e +:+
              " is too old. Requires 16.0.0 or higher.")
  else if bool_decide (freeMemMB e < 512) then
    Rejected ("Memory Available: Insufficient memory: " +:+
              pretty (freeMemMB e) +:+ "MB available, 512MB required")
  else if negb (cwdAccessible e) then
    Rejected "Disk Space: Cannot access current directory"
  else if envFile e || envExample e then
    Resolved None
  else
    Rejected "Environment File: .env file missing and .env.example not found".

Definition installDependencies (o : Options) : Outcome :=
  if negb (nodeModules e) || bool_decide (mode o = production) then
    let installCommand :=
      if decide (mode o = production) then "npm ci --only=production"
      else "npm install" in
    match exec e installCommand with
    | ExecError m _ => Rejected ("Failed to install dependencies: " +:+ m)
    | ExecOk _ stderr =>
        if negb (bool_decide (stderr = "")) && negb (includes "warn" stderr)
        then Rejected ("Failed to install dependencies: " +:+ stderr)
        else Resolved (Some "✅ Dependencies installed successfully")
    end
  else Resolved (Some "✅ Dependencies already installed").

Definition runTests (o : Options) : Outcome :=
  if skipTests o || quick o then Resolved (Some "⏭️  Tests skipped")
  else
    let testCommand :=
      if decide (mode o = production) then "npm run test:unit"
      else "npm test" in
    match exec e testCommand with
    | ExecOk stdout _ =>
        match matchFailed e stdout with
        | Some n =>
            if bool_decide (0 < n)
            then Rejected ("Tests failed: " +:+ pretty n +:+ " tests failed")
            else Resolved (Some ("✅ " +:+ default "0" (matchPassed e stdout)
                                 +:+ " tests passed"))
        | None =>
            Resolved (Some ("✅ " +:+ default "0" (matchPassed e stdout)
                            +:+ " tests passed"))
        end
    | ExecError m code =>
        if decide (code = Some "TIMEOUT")
        then Rejected "Tests timed out after 2 minutes"
        else Rejected ("Tests failed: " +:+ m)
    end.

Definition runCoverageReport (o : Options) : Outcome :=
  if skipTests o || quick o || bool_decide (mode o = production)
  then Resolved (Some "⏭️  Coverage skipped")
  else
    match exec e "npm run test:coverage" with
    | ExecOk stdout _ =>
        match matchCoverage e stdout with
        | Some (coverage, below80) =>
            if below80
            then Resolved (Some ("⚠️  Coverage: " +:+ coverage +:+
                                 "% (below 80% threshold)"))
            else Resolved (Some ("✅ Coverage: " +:+ coverage +:+ "%"))
        | None => Resolved (Some "✅ Coverage report generated")
        end
    | ExecError m _ => Rejected ("Coverage failed: " +:+ m)
    end.

Definition validateSystemConfiguration (o : Options) : Outcome :=
  if skipValidation o then Resolved (Some "⏭️  Validation skipped")
  else
    match exec e "node scripts/validate-setup.js" with
    | ExecOk stdout stderr =>
        if includes "FAIL" stderr || includes "❌" stdout
        then Resolved (Some "⚠️  Configuration issues detected (API credentials may need setup)")
        else Resolved (Some "✅ System configuration valid")
    | ExecError m _ =>
        Resolved (Some ("⚠️  Validation warnings: " +:+ firstLine m))
    end.

Definition runHealthCheck (o : Options) : Outcome :=
  if skipHealthCheck o then Resolved (Some "⏭️  Health check skipped")
  else
    match exec e "node scripts/health-check.js" with
    | ExecOk stdout _ =>
        if includes "HEALTHY" stdout
        then Resolved (Some "✅ System health check passed")
        else if includes "DEGRADED" stdout
        then Resolved (Some "⚠️  System health degraded (API issues)")
        else Resolved (Some "⚠️  Health check completed with warnings")
    | ExecError _ _ =>
        Resolved (Some "⚠️  Health check warnings: API credentials may need setup")
    end.

(** [findAvailablePort(preferredPort)] of the startup object. *)
Definition findAvailablePort (st : t) (preferredPort : Z) : (string + Z) * t :=
  let '(r, pm) := PortManager.findAvailablePort (listens e) (portManager st)
                    preferredPort PortManager.defaults in
  let st := {| options := options st; processes := processes st;
               isShuttingDown := isShuttingDown st; portManager := pm;
               terminated := terminated st |} in
  match r with
  | PortManager.Returned f => (inr (PortManager.port f), st)
  | PortManager.Thrown m => (inl ("Cannot find available port: " +:+ m), st)
  end.

Definition startMonitoringDashboard (st : t) : Outcome * t :=
  match findAvailablePort st (port (options st)) with
  | (inl m, st) => (Rejected ("Failed to start dashboard: " +:+ m), st)
  | (inr p, st) =>
      let st := {| options := options st;
                   processes := ("dashboard", false)
                                :: filter (fun nk => nk.1 ≠ "dashboard")
                                          (processes st);
                   isShuttingDown := isShuttingDown st;
                   portManager := portManager st;
                   terminated := terminated st |} in
      (match dashboard e with
       | Started =>
           Resolved (Some ("✅ Dashboard running on http://localhost:" +:+ pretty p))
       | AddressInUse =>
           Rejected ("Port " +:+ pretty p +:+ " is already in use")
       | SpawnError m => Rejected ("Dashboard startup failed: " +:+ m)
       | Exited code =>
           if decide (code ≠ 0)
           then Rejected ("Dashboard exited with code " +:+ pretty code)
           else Rejected "Dashboard startup timeout"
       | Silent => Rejected "Dashboard startup timeout"
       end, st)
  end.

(** ** The task runner

    [Listr] comes from the [listr2] package. Its tasks run one after
    the other ([concurrent: false]); a task whose [skip] yields a text
    is skipped. With [exitOnError: true] the first rejected task stops
    the list and [run()] rejects with its error; with
    [exitOnError: false] the error is kept with the task, the next task
    starts and [run()] resolves. *)
Inductive TaskState :=
| Pending
| Completed (v : option string)
| Skipped (why : string)
| Failed (err : string).

Record ListrTask := {
  title : string;
  task : t -> Outcome * t;
  skip : option string
}.

Fixpoint listr_run (exitOnError : bool) (tasks : list ListrTask) (st : t)
  : list (string * TaskState) * option string * t :=
  match tasks with
  | [] => ([], None, st)
  | k :: rest =>
      match skip k with
      | Some why =>
          let '(l, err, st') := listr_run exitOnError rest st in
          ((title k, Skipped why) :: l, err, st')
      | None =>
          match task k st with
          | (Resolved v, st1) =>
              let '(l, err, st') := listr_run exitOnError rest st1 in
              ((title k, Completed v) :: l, err, st')
          | (Rejected m, st1) =>
              if exitOnError then
                ((title k, Failed m) :: map (fun k' => (title k', Pending)) rest,
                 Some m, st1)
              else
                let '(l, err, st') := listr_run exitOnError rest st1 in
                ((title k, Failed m) :: l, err, st')
          end
      end
  end.

(** The array handed to [new Listr(...)]. *)
Definition tasks (o : Options) : list ListrTask :=
  let pure (f : Outcome) : t -> Outcome * t := fun st => (f, st) in
  let when (b : bool) (why : string) := if b then Some why else None in
  [ {| title := "System Requirements Check";
       task := pure checkSystemRequirements; skip := None |};
    {| title := "Install Dependencies";
       task := pure (installDependencies o);
       skip := when (quick o) "Skipped in quick mode" |};
    {| title := "Run Unit Tests";
       task := pure (runTests o);
       skip := when (skipTests o) "Tests disabled" |};
    {| title := "Generate Coverage Report";
       task := pure (runCoverageReport o);
       skip := when (skipTests o || quick o) "Coverage skipped" |};
    {| title := "Validate System Configuration";
       task := pure (validateSystemConfiguration o);
       skip := when (skipValidation o) "Validation disabled" |};
    {| title := "Run Health Check";
       task := pure (runHealthCheck o);
       skip := when (skipHealthCheck o) "Health check disabled" |};
    {| title := "Start Monitoring Dashboard";
       task := startMonitoringDashboard; skip := None |} ].

(** What an execution of [run()] amounts to. [exitCode = None] means
    that [process.exit] was not called: the process stays alive. *)
Record Result := {
  taskStates : list (string * TaskState);
  welcomed : bool;
  cleanedUp : bool;
  exitCode : option Z;
  final : t
}.

(** The [catch] block of [run()]. *)
Definition startupFailed (states : list (string * TaskState)) (st : t) : Result :=
  {| taskStates := states; welcomed := false; cleanedUp := true;
     exitCode := Some 1; final := cleanup st |}.

Definition run_with (exitOnError : bool) (st : t) : Result :=
  if gui (options st) then
    match launcherError e with
    | Some _ => startupFailed [] st
    | None => {| taskStates := []; welcomed := false; cleanedUp := false;
                 exitCode := None; final := st |}
    end
  else
    match listr_run exitOnError (tasks (options st)) st with
    | (states, Some _, st') => startupFailed states st'
    | (states, None, st') =>
        match welcomeError e with
        | Some _ => startupFailed states st'
        | None => {| taskStates := states; welcomed := true;
                     cleanedUp := false; exitCode := None; final := st' |}
        end
    end.

(** [run()]: the list is built with [exitOnError: false]. *)
Definition run (st : t) : Result := run_with false st.
End WithEnv.

(** A healthy development machine: every command succeeds, the dashboard
    comes up. *)
Definition healthy_machine : Env :=
  {| nodeVersion := "v18.19.0"; nodeMajor := 18; freeMemMB := 4096;
     cwdAccessible := true; envFile := true; envExample := true;
     nodeModules := true;
     exec := fun _ => ExecOk "12 passed, HEALTHY" "";
     matchFailed := fun _ => None;
     matchPassed := fun _ => Some "12";
     matchCoverage := fun _ => None;
     listens := fun _ => true;
     dashboard := Started;
     welcomeError := None; launcherError := None |}.

Definition with_node (version : string) (major : Z) (e : Env) : Env :=
  {| nodeVersion := version; nodeMajor := major; freeMemMB := freeMemMB e;
     cwdAccessible := cwdAccessible e; envFile := envFile e;
     envExample := envExample e; nodeModules := nodeModules e;
     exec := exec e; matchFailed := matchFailed e;
     matchPassed := matchPassed e; matchCoverage := matchCoverage e;
     listens := listens e; dashboard := dashboard e;
     welcomeError := welcomeError e; launcherError := launcherError e |}.

Definition with_dashboard (d : DashboardEvent) (e : Env) : Env :=
  {| nodeVersion := nodeVersion e; nodeMajor := nodeMajor e;
     freeMemMB := freeMemMB e;
     cwdAccessible := cwdAccessible e; envFile := envFile e;
     envExample := envExample e; nodeModules := nodeModules e;
     exec := exec e; matchFailed := matchFailed e;
     matchPassed := matchPassed e; matchCoverage := matchCoverage e;
     listens := listens e; dashboard := d;
     welcomeError := welcomeError e; launcherError := launcherError e |}.

(** The same machine where [displayWelcomeMessage] ends as [banner] says:
    [None] when it returns, [Some m] when it throws an error with message
    [m]. The method calls [chalk.stripColor], which chalk 1.x has and
    later versions have not; which version is installed is not fixed by the
    sources. *)
Definition with_welcome (banner : option string) (e : Env) : Env :=
  {| nodeVersion := nodeVersion e; nodeMajor := nodeMajor e;
     freeMemMB := freeMemMB e;
     cwdAccessible := cwdAccessible e; envFile := envFile e;
     envExample := envExample e; nodeModules := nodeModules e;
     exec := exec e; matchFailed := matchFailed e;
     matchPassed := matchPassed e; matchCoverage := matchCoverage e;
     listens := listens e; dashboard := dashboard e;
     welcomeError := banner; launcherError := launcherError e |}.

(** A machine with a Node.js runtime that step 1 rejects, everything else
    in order; [banner] tells how [displayWelcomeMessage] ends there. *)
Definition old_node (banner : option string) : Env :=
  with_welcome banner (with_node "v14.21.3" 14 healthy_machine).

(** A machine where the dashboard dies with exit code 1, everything else
    in order; [banner] as for [old_node]. *)
Definition dashboard_crash (banner : option string) : Env :=
  with_welcome banner (with_dashboard (Exited 1) healthy_machine).

(** What [displayWelcomeMessage] throws where [chalk.stripColor] is
    missing. *)
Definition no_stripColor : option string :=
  Some "chalk.stripColor is not a function".

(** The state in which the task runner leaves a task that it carries out
    on [st]: skipped, or completed or failed as the task itself ends. *)
Definition recorded (k : ListrTask) (st : t) : TaskState :=
  match skip k with
  | Some why => Skipped why
  | None =>
      match (task k st).1 with
      | Resolved v => Completed v
      | Rejected m => Failed m
      end
  end.

(** The same machine where [execAsync] behaves as [f]. *)
Definition with_exec (f : string -> Exec) (e : Env) : Env :=
  {| nodeVersion := nodeVersion e; nodeMajor := nodeMajor e;
     freeMemMB := freeMemMB e;
     cwdAccessible := cwdAccessible e; envFile := envFile e;
     envExample := envExample e; nodeModules := nodeModules e;
     exec := f; matchFailed := matchFailed e;
     matchPassed := matchPassed e; matchCoverage := matchCoverage e;
     listens := listens e; dashboard := dashboard e;
     welcomeError := welcomeError e; launcherError := launcherError e |}.

(** The commands of [runTests] and [runCoverageReport]. *)
Definition testCommands : list string :=
  ["npm test"; "npm run test:unit"; "npm run test:coverage"].

(** A machine whose test suite is broken and whose dashboard port 3000 is
    held by somebody else. *)
Definition broken_tests : Env :=
  with_exec (fun c => if bool_decide (c ∈ testCommands)
                      then ExecError "Command failed" None
                      else ExecOk "12 passed, HEALTHY" "")
            healthy_machine.

Definition port_3000_taken : Env :=
  {| nodeVersion := "v18.19.0"; nodeMajor := 18; freeMemMB := 4096;
     cwdAccessible := true; envFile := true; envExample := true;
     nodeModules := true;
     exec := fun _ => ExecOk "12 passed, HEALTHY" "";
     matchFailed := fun _ => None;
     matchPassed := fun _ => Some "12";
     matchCoverage := fun _ => None;
     listens := fun p => negb (bool_decide (p = 3000));
     dashboard := Exited 1;
     welcomeError := None; launcherError := None |}.

End ViralContentStartup.


(* ===================================================================== *)
(** * utils/browser-automation.js                                         *)
(* ===================================================================== *)

Module BrowserAutomation.

(** [openOptions.app]: [name] and [arguments] may each be absent. *)
Record App := { name : option string; arguments : option (list string) }.

(** The second argument of [open(url, openOptions)]. *)
Record OpenOptions := { wait_ : bool; newInstance : bool; app : option App }.

(** The [options] argument of [openUrl] after destructuring; [browser] is
    [None] for [null] or [undefined]. *)
Record Options := {
  browser : option string;
  newWindow : bool;
  incognito : bool;
  fullscreen : bool;
  wait : bool;
  retries : Z
}.

(** The object state. A subprocess is named by the number of the [open]
    call that created it; [opened] counts the calls of [open], [slept]
    lists the delays awaited, [killed] the subprocesses that received
    [kill()]. *)
Record t := {
  openBrowsers : gset nat;
  preferredBrowser : option string;
  opened : nat;
  slept : list Z;
  killed : gset nat
}.

(** [new BrowserAutomation()] *)
Definition create : t :=
  {| openBrowsers := ∅; preferredBrowser := None; opened := 0; slept := [];
     killed := ∅ |}.

(** The defaults of the destructuring pattern. *)
Definition defaults (st : t) : Options :=
  {| browser := preferredBrowser st; newWindow := false; incognito := false;
     fullscreen := false; wait := true; retries := 3 |}.

(** A string is truthy when it is not empty. *)
Definition named (b : option string) : option string :=
  match b with
  | Some s => if bool_decide (s = "") then None else Some s
  | None => None
  end.

(** The construction of [openOptions] in [openUrl]. *)
Definition openOptions (o : Options) : OpenOptions :=
  let app0 : option App :=
    match named (browser o) with
    | Some b => Some {| name := Some b; arguments := None |}
    | None => None
    end in
  let app1 : option App :=
    if incognito o then
      match named (browser o), app0 with
      | Some b, Some a =>
          if includes "chrome" (toLowerCase b) then
            Some {| name := name a; arguments := Some ["--incognito"] |}
          else if includes "firefox" (toLowerCase b) then
            Some {| name := name a; arguments := Some ["-private-window"] |}
          else app0
      | _, _ => app0
      end
    else app0 in
  let app2 : option App :=
    if fullscreen o then
      let a := default {| name := None; arguments := None |} app1 in
      Some {| name := name a;
              arguments := Some (default [] (arguments a) ++ ["--start-fullscreen"]) |}
    else app1 in
  {| wait_ := wait o; newInstance := newWindow o; app := app2 |}.

(** What [openUrl] resolves with: the result object, or [undefined] when
    the loop ends without an attempt. *)
Inductive OpenResult :=
| Opened (url browserName : string) (process : nat)
| NoResult.

Definition set_slept (l : list Z) (st : t) : t :=
  {| openBrowsers := openBrowsers st; preferredBrowser := preferredBrowser st;
     opened := opened st; slept := l; killed := killed st |}.

Definition count_open (st : t) : t :=
  {| openBrowsers := openBrowsers st; preferredBrowser := preferredBrowser st;
     opened := S (opened st); slept := slept st; killed := killed st |}.

Definition track (p : nat) (st : t) : t :=
  {| openBrowsers := {[p]} ∪ openBrowsers st;
     preferredBrowser := preferredBrowser st;
     opened := opened st; slept := slept st; killed := killed st |}.

Section WithDesktop.
(** [open_ n url openOptions]: how the [n]-th call of [open] settles,
    [None] when it resolves with a new subprocess, [Some m] when it rejects
    with message [m]. *)
Variable open_ : nat -> string -> OpenOptions -> option string.

(** [for (let attempt = 1; attempt <= retries; attempt++)]: [n] bounds the
    number of iterations left. *)
Fixpoint openUrl_loop (n : nat) (attempt : Z) (url : string) (o : Options)
    (st : t) : (string + OpenResult) * t :=
  match n with
  | O => (inr NoResult, st)
  | S n' =>
      if bool_decide (attempt <= retries o) then
        match open_ (opened st) url (openOptions o) with
        | None =>
            (inr (Opened url (default "default" (named (browser o))) (opened st)),
             track (opened st) (count_open st))
        | Some m =>
            if bool_decide (attempt = retries o) then
              (inl ("Failed to open browser after " +:+ pretty (retries o) +:+
                    " attempts: " +:+ m), count_open st)
            else
              let st := count_open st in
              openUrl_loop n' (attempt + 1) url o
                (set_slept (slept st ++ [1000 * attempt]) st)
        end
      else (inr NoResult, st)
  end.

(** [openUrl(url, options)] for a whole number of [retries]. *)
Definition openUrl (url : string) (o : Options) (st : t)
  : (string + OpenResult) * t :=
  openUrl_loop (Z.to_nat (retries o)) 1 url o st.

(** The [options] of [openMultipleUrls]: [delay], [sameWindow], and what
    is handed on to [openUrl]. *)
Record MultiOptions := { delay : Z; sameWindow : bool; each : Options }.

Definition with_newWindow (b : bool) (o : Options) : Options :=
  {| browser := browser o; newWindow := b; incognito := incognito o;
     fullscreen := fullscreen o; wait := wait o; retries := retries o |}.

(** An element of the array that [openMultipleUrls] returns. *)
Inductive Entry :=
| Done (r : OpenResult)
| NotOpened (url error : string).

(** The [for (let i = 0; i < urls.length; i++)] loop; [i] is the index of
    the head of [urls]. *)
Fixpoint openMultipleUrls_loop (i : nat) (urls : list string) (m : MultiOptions)
    (st : t) : list Entry * t :=
  match urls with
  | [] => ([], st)
  | url :: rest =>
      let o := with_newWindow (bool_decide (i = 0%nat) || negb (sameWindow m))
                              (each m) in
      match openUrl url o st with
      | (inr r, st) =>
          let st := match rest with
                    | [] => st
                    | _ :: _ => set_slept (slept st ++ [delay m]) st
                    end in
          let '(results, st) := openMultipleUrls_loop (S i) rest m st in
          (Done r :: results, st)
      | (inl e, st) =>
          let '(results, st) := openMultipleUrls_loop (S i) rest m st in
          (NotOpened url e :: results, st)
      end
  end.

(** [openMultipleUrls(urls, options)] *)
Definition openMultipleUrls (urls : list string) (m : MultiOptions) (st : t)
  : list Entry * t :=
  openMultipleUrls_loop 0 urls m st.
End WithDesktop.

(** [closeAllBrowsers()] and [cleanup()] *)
Definition closeAllBrowsers (st : t) : t :=
  {| openBrowsers := ∅; preferredBrowser := preferredBrowser st;
     opened := opened st; slept := slept st;
     killed := killed st ∪ openBrowsers st |}.

Definition cleanup (st : t) : t := closeAllBrowsers st.

(** [setPreferredBrowser(browserName)] *)
Definition setPreferredBrowser (b : option string) (st : t) : t :=
  {| openBrowsers := openBrowsers st; preferredBrowser := b;
     opened := opened st; slept := slept st; killed := killed st |}.

(** The subprocesses of the result objects in an array of entries. *)
Definition processesOf (l : list Entry) : list nat :=
  l ≫= fun x => match x with Done (Opened _ _ p) => [p] | _ => [] end.

(** The delays [1000 * 1, ..., 1000 * k] between attempts. *)
Definition backoff (k : nat) : list Z :=
  (fun i => 1000 * Z.of_nat (S i)) <$> seq 0 k.

(** A desktop where only the third call of [open] works. *)
Definition third_time_lucky : nat -> string -> OpenOptions -> option string :=
  fun n _ _ => if bool_decide (n = 2%nat) then None else Some "spawn ENOENT".

(** The object after [k] failed attempts that started at [attempt]. *)
Definition after_failures (attempt : Z) (k : nat) (st : t) : t :=
  {| openBrowsers := openBrowsers st; preferredBrowser := preferredBrowser st;
     opened := opened st + k;
     slept := slept st ++ ((fun i => 1000 * (attempt + Z.of_nat i)) <$> seq 0 k);
     killed := killed st |}.

(** The message of the error that [openUrl] throws. *)
Definition failedToOpen (o : Options) (m : string) : string :=
  "Failed to open browser after " +:+ pretty (retries o) +:+ " attempts: " +:+ m.

(** What [openMultipleUrls] may record for [url]. *)
Definition entry_for (o : Options) (url : string) (x : Entry) : Prop :=
  match x with
  | Done (Opened u _ _) => u = url
  | Done NoResult => retries o <= 0
  | NotOpened u e => u = url /\ 0 < retries o /\ exists m, e = failedToOpen o m
  end.

End BrowserAutomation.


(* ===================================================================== *)
(** * gui-launcher.js                                                     *)
(* ===================================================================== *)

Module GUILauncher.

Inductive SystemStatus := stopped | starting | running | stopping.

#[global] Instance SystemStatus_eq_dec : EqDecision SystemStatus.
Proof. solve_decision. Defined.

Record LogEntry := { timestamp : string; level : string; message : string }.

(** What goes out through [this.io.emit]. *)
Inductive Emitted :=
| logUpdate (entry : LogEntry)
| statusUpdate (status : SystemStatus) (timestamp : string).

(** The launcher with the two singletons it shares with the startup
    object: [portManager] of [port-manager.js] and [processManager] of
    [process-manager.js]. [ticks] counts the readings of the clock. *)
Record t := {
  startup : option ViralContentStartup.t;
  systemStatus : SystemStatus;
  logs : list LogEntry;
  emitted : list Emitted;
  ticks : nat;
  portManager : PortManager.t;
  processManager : ProcessManager.t
}.

(** [new GUILauncher()] in a fresh process. *)
Definition create : t :=
  {| startup := None; systemStatus := stopped; logs := []; emitted := [];
     ticks := 0; portManager := PortManager.create;
     processManager := ProcessManager.create |}.

(** [l.slice(-n)] for a positive [n]. *)
Definition slice_last {A} (n : nat) (l : list A) : list A :=
  drop (length l - n) l.

Section WithClock.
(** [clock k] is what the [k]-th [new Date().toISOString()] yields. *)
Variable clock : nat -> string.

(** [addLog(message, level)]; the coloured copy on the console is left
    out. *)
Definition addLog (message level : string) (st : t) : t :=
  let logEntry := {| timestamp := clock (ticks st); level := level;
                     message := message |} in
  let logs1 := logs st ++ [logEntry] in
  let logs2 := if bool_decide (200 < length logs1)%nat
               then slice_last 200 logs1 else logs1 in
  {| startup := startup st; systemStatus := systemStatus st; logs := logs2;
     emitted := emitted st ++ [logUpdate logEntry]; ticks := S (ticks st);
     portManager := portManager st; processManager := processManager st |}.

(** [broadcastStatus()] *)
Definition broadcastStatus (st : t) : t :=
  {| startup := startup st; systemStatus := systemStatus st; logs := logs st;
     emitted := emitted st ++ [statusUpdate (systemStatus st) (clock (ticks st))];
     ticks := S (ticks st);
     portManager := portManager st; processManager := processManager st |}.

Definition set_status (s : SystemStatus) (st : t) : t :=
  {| startup := startup st; systemStatus := s; logs := logs st;
     emitted := emitted st; ticks := ticks st;
     portManager := portManager st; processManager := processManager st |}.

(** The members of the [options] object that [startSystem] reads; [None]
    stands for a missing member or one that is no boolean. *)
Record StartOptions := {
  opt_skipTests : option bool;
  opt_openBrowser : option bool;
  opt_quick : option bool
}.

(** The argument of [new ViralContentStartup(...)] in [startSystem]. *)
Definition startupOptions (options : StartOptions) : ViralContentStartup.Options :=
  {| ViralContentStartup.skipTests :=
       negb (bool_decide (opt_skipTests options = Some false));
     ViralContentStartup.skipValidation := false;
     ViralContentStartup.skipHealthCheck := false;
     ViralContentStartup.openBrowser :=
       negb (bool_decide (opt_openBrowser options = Some false));
     ViralContentStartup.port := 3000;
     ViralContentStartup.mode := ViralContentStartup.development;
     ViralContentStartup.gui := false;
     ViralContentStartup.quick := bool_decide (opt_quick options = Some true) |}.

(** A startup object created in the process of the launcher: it works on
    the port manager that the launcher holds. *)
Definition newStartup (o : ViralContentStartup.Options) (pm : PortManager.t)
  : ViralContentStartup.t :=
  {| ViralContentStartup.options := o; ViralContentStartup.processes := [];
     ViralContentStartup.isShuttingDown := false;
     ViralContentStartup.portManager := pm;
     ViralContentStartup.terminated := [] |}.

(** [startSystem(options)] up to its return; [this.startup.run()] goes on
    in the background. *)
Definition startSystem (options : StartOptions) (st : t) : (string + unit) * t :=
  if bool_decide (systemStatus st = running) || bool_decide (systemStatus st = starting)
  then (inl "System is already running or starting", st)
  else
    let st := addLog "Starting viral content automation system..." "info"
                (broadcastStatus (set_status starting st)) in
    (inr tt,
     {| startup := Some (newStartup (startupOptions options) (portManager st));
        systemStatus := systemStatus st; logs := logs st;
        emitted := emitted st; ticks := ticks st;
        portManager := portManager st; processManager := processManager st |}).

(** The process of the launcher: alive, or ended by [process.exit]. *)
Inductive Process :=
| Alive (st : t)
| ExitedWith (code : Z).

(** The moment [this.startup.run()] settles. [run] rejects never: what
    goes wrong inside ends in its own [catch] block, which calls
    [process.exit(1)] in the process of the launcher. *)
Definition startupSettled (e : ViralContentStartup.Env) (st : t) : Process :=
  match startup st with
  | None => Alive st
  | Some s =>
      let r := ViralContentStartup.run e s in
      match ViralContentStartup.exitCode r with
      | Some code => ExitedWith code
      | None =>
          let st :=
            {| startup := Some (ViralContentStartup.final r);
               systemStatus := running; logs := logs st;
               emitted := emitted st; ticks := ticks st;
               portManager :=
                 ViralContentStartup.portManager (ViralContentStartup.final r);
               processManager := processManager st |} in
          Alive (addLog "System started successfully! 🎉" "success"
                   (broadcastStatus st))
      end
  end.

(** [stopSystem()]; [os] and [window] are what [processManager.shutdown()]
    depends on. *)
Definition stopSystem (os : string -> ProcessManager.Program) (window : nat)
    (st : t) : t :=
  if bool_decide (systemStatus st = stopped) then st
  else
    let st := addLog "Stopping system..." "info"
                (broadcastStatus (set_status stopping st)) in
    let st :=
      {| startup := ViralContentStartup.cleanup <$> startup st;
         systemStatus := systemStatus st; logs := logs st;
         emitted := emitted st; ticks := ticks st;
         portManager := portManager st;
         processManager := ProcessManager.shutdown os window (processManager st) |} in
    addLog "System stopped successfully" "success"
      (broadcastStatus (set_status stopped st)).

(** The entries that [addLog] makes of a list of messages with their
    levels when the clock has been read [tick] times. *)
Fixpoint stamped (tick : nat) (msgs : list (string * string)) : list LogEntry :=
  match msgs with
  | [] => []
  | ml :: rest =>
      {| timestamp := clock tick; level := ml.2; message := ml.1 |}
      :: stamped (S tick) rest
  end.
End WithClock.

(** The port of the dashboard that a startup object would get. *)
Definition dashboardPort (e : ViralContentStartup.Env) (st : t) : option Z :=
  match startup st with
  | Some s =>
      match ViralContentStartup.findAvailablePort e s
              (ViralContentStartup.port (ViralContentStartup.options s)) with
      | (inr p, _) => Some p
      | (inl _, _) => None
      end
  | None => None
  end.

(** A launcher on a healthy machine: started once, and what the first
    and the second start leave behind. *)
Definition no_options : StartOptions :=
  {| opt_skipTests := None; opt_openBrowser := None; opt_quick := None |}.

Definition settled (p : Process) : t :=
  match p with
  | Alive st => st
  | ExitedWith _ => create
  end.

Definition first_run : t :=
  settled (startupSettled (fun k => pretty k) ViralContentStartup.healthy_machine
             (startSystem (fun k => pretty k) no_options create).2).

Definition second_run : t :=
  settled (startupSettled (fun k => pretty k) ViralContentStartup.healthy_machine
             (startSystem (fun k => pretty k) no_options
                (stopSystem (fun k => pretty k) ProcessManager.always_fails 0
                   first_run)).2).

End GUILauncher.


(* ===================================================================== *)
(** * monitoring/dashboard.js                                             *)
(* ===================================================================== *)

(** The workflow tests, the workflow counters and the log of the
    dashboard. The API and content metrics are not part of this
    embedding. *)
Module MonitoringDashboard.

(** [this.metrics.workflows]; [lastExecution] holds the reading of the
    clock in milliseconds that the ISO string renders. *)
Record Workflows := {
  executed : Z;
  successful : Z;
  failed : Z;
  lastExecution : option Z
}.

(** An entry of [this.logs]. [id] names the reading of
    [Date.now() + Math.random()] that produced it. Entries read from log
    files may lack a [level]. *)
Record LogEntry := {
  id : nat;
  timestamp : Z;
  level : option string;
  message : string;
  source : string
}.

(** [ticks] counts the readings of the clock, [requests] the HTTP
    requests sent. *)
Record t := {
  workflows : Workflows;
  logs : list LogEntry;
  ticks : nat;
  requests : nat
}.

(** [new MonitoringDashboard()] *)
Definition create : t :=
  {| workflows := {| executed := 0; successful := 0; failed := 0;
                     lastExecution := None |};
     logs := []; ticks := 0; requests := 0 |}.

(** The services that the workflow tests call. *)
Inductive Endpoint :=
| InstagramPosts | OpenAIModels | AirTableSources | ApifyActs | TikTokSearch.

Inductive StepStatus := pending | success | failed_.

#[global] Instance StepStatus_eq_dec : EqDecision StepStatus.
Proof. solve_decision. Defined.

Record Step := {
  name : string;
  status : StepStatus;
  duration : option Z;
  error : option string
}.

(** What a workflow test resolves with. *)
Record TestResult := {
  ok : bool;
  platform : string;
  steps : option (list Step);
  totalDuration : option Z;
  note : option string;
  failure : option string
}.

Definition set_workflows (w : Workflows) (st : t) : t :=
  {| workflows := w; logs := logs st; ticks := ticks st; requests := requests st |}.
Definition tick (st : t) : t :=
  {| workflows := workflows st; logs := logs st; ticks := S (ticks st);
     requests := requests st |}.
Definition sent (st : t) : t :=
  {| workflows := workflows st; logs := logs st; ticks := ticks st;
     requests := S (requests st) |}.

Section WithNetwork.
(** [clock k] is the [k]-th reading of the clock in milliseconds;
    [axios k ep] tells how the [k]-th request settles when it goes to
    [ep]: [None] when it resolves, [Some m] when it rejects with message
    [m]. *)
Variable clock : nat -> Z.
Variable axios : nat -> Endpoint -> option string.

(** [addLog(message, level)]; the copy in [logs/dashboard.log] is left
    out. [Date.now()] and [new Date()] are two readings of the clock. *)
Definition addLog (message level : string) (st : t) : t :=
  {| workflows := workflows st;
     logs := logs st ++ [{| id := ticks st; timestamp := clock (S (ticks st));
                            level := Some level; message := message;
                            source := "monitoring-dashboard" |}];
     ticks := S (S (ticks st)); requests := requests st |}.

(** [log(message, level)]: [addLog] and a line on the console that reads
    the clock once more. *)
Definition log (message level : string) (st : t) : t :=
  tick (addLog message level st).

(** One of the three blocks of [testInstagramWorkflow]: read the clock,
    send the request and, when it resolves, mark step [i]. *)
Definition runStep (i : nat) (ep : Endpoint) (x : list Step * t)
  : option string * (list Step * t) :=
  let '(steps, st) := x in
  let startTime := clock (ticks st) in
  let st := tick st in
  match axios (requests st) ep with
  | Some m => (Some m, (steps, sent st))
  | None =>
      let st := sent st in
      let d := clock (ticks st) - startTime in
      (None,
       (alter (fun s => {| name := name s; status := success;
                           duration := Some d; error := error s |}) i steps,
        tick st))
  end.

(** [steps.find(step => step.status === 'pending')] followed by the two
    assignments to the step found. *)
Fixpoint markFailed (m : string) (steps : list Step) : list Step :=
  match steps with
  | [] => []
  | s :: rest =>
      if decide (status s = pending)
      then {| name := name s; status := failed_; duration := duration s;
              error := Some m |} :: rest
      else s :: markFailed m rest
  end.

Definition countFailure (st : t) : t :=
  let w := workflows st in
  set_workflows {| executed := executed w + 1; successful := successful w;
                   failed := failed w + 1; lastExecution := lastExecution w |} st.

Definition countSuccess (st : t) : t :=
  let w := workflows st in
  tick (set_workflows {| executed := executed w + 1;
                         successful := successful w + 1; failed := failed w;
                         lastExecution := Some (clock (ticks st)) |} st).

Definition instagramFailed (m : string) (x : list Step * t) : TestResult * t :=
  let '(steps, st) := x in
  ({| ok := false; platform := "Instagram";
      steps := Some (markFailed m steps); totalDuration := None;
      note := None; failure := Some m |},
   countFailure st).

(** [testInstagramWorkflow()] *)
Definition testInstagramWorkflow (st : t) : TestResult * t :=
  let steps :=
    [ {| name := "Instagram API Connection"; status := pending;
         duration := None; error := None |};
      {| name := "Content Analysis"; status := pending;
         duration := None; error := None |};
      {| name := "AirTable Storage"; status := pending;
         duration := None; error := None |} ] in
  match runStep 0 InstagramPosts (steps, st) with
  | (Some m, x) => instagramFailed m x
  | (None, x) =>
      match runStep 1 OpenAIModels x with
      | (Some m, x) => instagramFailed m x
      | (None, x) =>
          match runStep 2 AirTableSources x with
          | (Some m, x) => instagramFailed m x
          | (None, (steps, st)) =>
              ({| ok := true; platform := "Instagram"; steps := Some steps;
                  totalDuration :=
                    Some (foldl (fun sum step => sum + default 0 (duration step))
                                0 steps);
                  note := None; failure := None |},
               countSuccess st)
          end
      end
  end.

(** [testLinkedInWorkflow()] and [testTikTokWorkflow()] *)
Definition testSingle (ep : Endpoint) (platformName : string) (st : t)
  : TestResult * t :=
  match axios (requests st) ep with
  | None =>
      ({| ok := true; platform := platformName; steps := None;
          totalDuration := None;
          note := Some (platformName +:+ " workflow test successful");
          failure := None |}, sent st)
  | Some m =>
      ({| ok := false; platform := platformName; steps := None;
          totalDuration := None; note := None; failure := Some m |}, sent st)
  end.

Definition testLinkedInWorkflow : t -> TestResult * t :=
  testSingle ApifyActs "LinkedIn".
Definition testTikTokWorkflow : t -> TestResult * t :=
  testSingle TikTokSearch "TikTok".

(** [testWorkflow(platform)] for a string [platform]. *)
Definition testWorkflow (platform : string) (st : t) : (string + TestResult) * t :=
  let st := log ("Testing " +:+ platform +:+ " workflow") "info" st in
  let p := toLowerCase platform in
  if decide (p = "instagram") then
    let '(r, st) := testInstagramWorkflow st in (inr r, st)
  else if decide (p = "linkedin") then
    let '(r, st) := testLinkedInWorkflow st in (inr r, st)
  else if decide (p = "tiktok") then
    let '(r, st) := testTikTokWorkflow st in (inr r, st)
  else
    let m := "Unknown platform: " +:+ platform in
    (inl m,
     log ("Workflow test failed for " +:+ platform +:+ ": " +:+ m) "error" st).

(** [trackWorkflowExecution(platform, success, duration)] *)
Definition trackWorkflowExecution (platform : string) (succeeded : bool)
    (duration : Z) (st : t) : t :=
  let w := workflows st in
  let w := {| executed := executed w + 1;
              successful := if succeeded then successful w + 1 else successful w;
              failed := if succeeded then failed w else failed w + 1;
              lastExecution := Some (clock (ticks st)) |} in
  log ("Workflow executed: " +:+ platform +:+ ", Success: " +:+
       (if succeeded then "true" else "false") +:+ ", Duration: " +:+
       pretty duration +:+ "ms") "info"
      (tick (set_workflows w st)).

(** What happens to the dashboard from outside. *)
Inductive Op :=
| TestWorkflow (platform : string)
| TrackWorkflowExecution (platform : string) (succeeded : bool) (duration : Z).

Definition apply (op : Op) (st : t) : t :=
  match op with
  | TestWorkflow platform => (testWorkflow platform st).2
  | TrackWorkflowExecution platform succeeded duration =>
      trackWorkflowExecution platform succeeded duration st
  end.
End WithNetwork.

(** An operation that counts as a workflow execution. *)
Definition counted (op : Op) : bool :=
  match op with
  | TestWorkflow platform => bool_decide (toLowerCase platform = "instagram")
  | TrackWorkflowExecution _ _ _ => true
  end.

(** ** The [/api/logs] route *)

(** [l.slice(start)] *)
Definition slice {A} (start : Z) (l : list A) : list A :=
  let len := Z.of_nat (length l) in
  let k := if bool_decide (start < 0) then Z.max (len + start) 0
           else Z.min start len in
  drop (Z.to_nat k) l.

(** The query of a request: [limit] is what [parseInt(req.query.limit)]
    yields, [None] for [NaN]; [level] is [req.query.level], a string or
    absent. *)
Record Query := { q_limit : option Z; q_level : option string }.

Record LogsResponse := { res_logs : list LogEntry; res_total : nat }.

Definition apiLogs (q : Query) (st : t) : LogsResponse :=
  let limit := match q_limit q with
               | Some n => if bool_decide (n = 0) then 100 else n
               | None => 100
               end in
  let filteredLogs :=
    match q_level q with
    | Some l =>
        if bool_decide (l = "") then logs st
        else filter (fun entry => level entry = Some l) (logs st)
    | None => logs st
    end in
  {| res_logs := slice (- limit) filteredLogs; res_total := length filteredLogs |}.

(** A network where OpenAI is down. *)
Definition openai_down : nat -> Endpoint -> option string :=
  fun _ ep => match ep with
              | OpenAIModels => Some "Request failed with status code 401"
              | _ => None
              end.

(** The requests of [testInstagramWorkflow] in their order. *)
Definition instagramEndpoints : list Endpoint :=
  [InstagramPosts; OpenAIModels; AirTableSources].

(** The entries that [/api/logs] chooses from. *)
Definition matching (q : Query) (st : t) : list LogEntry :=
  match q_level q with
  | Some l =>
      if bool_decide (l = "") then logs st
      else filter (fun entry => level entry = Some l) (logs st)
  | None => logs st
  end.

(** By how much [executed], [successful] and [failed] grow from [st] to
    [st']. *)
Definition delta (st st' : t) : Z * Z * Z :=
  (executed (workflows st') - executed (workflows st),
   successful (workflows st') - successful (workflows st),
   failed (workflows st') - failed (workflows st)).

End MonitoringDashboard.


(* ===================================================================== *)
(** * Properties of the port allocator                                    *)
(* ===================================================================== *)

Module PortManagerProps.
Import PortManager.

Section Search.
Variable listens : Z -> bool.

Lemma testPort_true_iff (pm : t) (o : Options) (p : Z) :
  testPort listens (excludePorts pm o) p = true <->
  listens p = true /\ (p ∉ reservedPorts pm) /\ (p ∉ avoid o).
Proof.
  unfold testPort, excludePorts.
  destruct (decide (p ∈ reservedPorts pm ∪ list_to_set (avoid o))) as [Hin|Hout].
  - split; [discriminate|]. intros (_ & Hr & Ha). exfalso.
    apply elem_of_union in Hin as [Hin|Hin]; [auto|].
    apply elem_of_list_to_set in Hin. auto.
  - split; [|tauto]. intros Hl. repeat split; [done| |].
    + intros Hr. apply Hout, elem_of_union. by left.
    + intros Ha. apply Hout, elem_of_union. right.
      by apply elem_of_list_to_set.
Qed.

Lemma search_Some (excl : gset Z) (n : nat) :
  forall p q, search listens excl p n = Some q ->
    (p <= q < p + Z.of_nat n) /\ testPort listens excl q = true /\
    (forall r, p <= r < q -> testPort listens excl r = false).
Proof.
  induction n as [|n IH]; intros p q H; simpl in H; [discriminate|].
  destruct (testPort listens excl p) eqn:Hp.
  - inversion H; subst q. repeat split; [lia | lia | done | intros r Hr; lia].
  - apply IH in H as (Hrange & Hq & Hbelow).
    repeat split; [lia | lia | done |].
    intros r Hr. destruct (decide (r = p)) as [->|Hne]; [done|].
    apply Hbelow. lia.
Qed.

Lemma search_None (excl : gset Z) (n : nat) :
  forall p, search listens excl p n = None ->
    forall r, p <= r < p + Z.of_nat n -> testPort listens excl r = false.
Proof.
  induction n as [|n IH]; intros p H r Hr; simpl in H; [lia|].
  destruct (testPort listens excl p) eqn:Hp; [discriminate|].
  destruct (decide (r = p)) as [->|Hne]; [done|].
  apply (IH (p + 1)); [done | lia].
Qed.

(** The loop finds the least port of its span that passes [testPort]. *)
Lemma search_least (excl : gset Z) (n : nat) (p q : Z) :
  p <= q < p + Z.of_nat n ->
  testPort listens excl q = true ->
  (forall r, p <= r < q -> testPort listens excl r = false) ->
  search listens excl p n = Some q.
Proof.
  intros Hrange Hq Hbelow.
  destruct (search listens excl p n) as [q'|] eqn:Hs.
  - apply search_Some in Hs as (Hr' & Hq' & Hb').
    f_equal. destruct (Z_lt_le_dec q' q) as [Hlt|Hge].
    + rewrite Hbelow in Hq' by lia. discriminate.
    + destruct (Z_lt_le_dec q q') as [Hlt'|Hge']; [|lia].
      rewrite Hb' in Hq by lia. discriminate.
  - rewrite (search_None _ _ _ Hs q Hrange) in Hq. discriminate.
Qed.
End Search.

(** C3. [findAvailablePort] tests the preferred port first (a port fails
    the test when it cannot be bound or is reserved or to be avoided);
    when the preferred port fails it walks upward to [portRange[1]] and
    resolves with the first port that passes, [isPreferred] being [false];
    when none passes it throws. With ports 3000-3002 held by others,
    [findAvailablePort(3000, {portRange: [3000, 3005]})] on a fresh
    manager gives port 3003 with [isPreferred: false]. *)
Theorem C3_findAvailablePort_sequential_search :
  forall (listens : Z -> bool) (pm : t) (P : Z) (o : Options),
    let ok := testPort listens (excludePorts pm o) in
    let hi := snd (portRange o) in
    let out := fst (findAvailablePort listens pm P o) in
    (forall p, ok p = true <->
               listens p = true /\ (p ∉ reservedPorts pm) /\ (p ∉ avoid o)) /\
    (ok P = true ->
     exists m, out = Returned {| port := P; isPreferred := true; message := m |}) /\
    (ok P = false ->
     forall q, P < q <= hi -> ok q = true ->
               (forall r, P < r < q -> ok r = false) ->
     exists m, out = Returned {| port := q; isPreferred := false; message := m |}) /\
    (ok P = false -> (forall q, P < q <= hi -> ok q = false) ->
     exists m, out = Thrown m) /\
    ((forall p, 3000 <= p <= 3002 -> listens p = false) ->
     listens 3003 = true ->
     exists m,
       fst (findAvailablePort listens create 3000
              {| portRange := (3000, 3005); reservePort := true; avoid := [] |})
       = Returned {| port := 3003; isPreferred := false; message := m |}).
Proof.
  intros listens pm P o ok hi out. subst ok hi out.
  split; [apply testPort_true_iff|].
  split; [|split; [|split]].
  - intros HP. unfold findAvailablePort. rewrite HP. eauto.
  - intros HP q Hq Hok Hbelow. unfold findAvailablePort. rewrite HP.
    rewrite (search_least listens _ _ (P + 1) q); [eauto | lia | done |].
    intros r Hr. apply Hbelow. lia.
  - intros HP Hnone. unfold findAvailablePort. rewrite HP.
    destruct (search listens _ (P + 1) _) as [q|] eqn:Hs; [|eauto].
    apply search_Some in Hs as (Hr & Hq & _).
    rewrite Hnone in Hq by lia. discriminate.
  - intros Hbound Hfree.
    assert (Hfresh : forall p,
               testPort listens
                 (excludePorts create
                    {| portRange := (3000, 3005); reservePort := true;
                       avoid := [] |}) p = listens p).
    { intros p. unfold testPort, excludePorts. simpl.
      rewrite decide_False; [reflexivity|].
      rewrite elem_of_union.
      intros [Hin|Hin]; by apply not_elem_of_empty in Hin. }
    unfold findAvailablePort. rewrite Hfresh, (Hbound 3000) by lia.
    rewrite (search_least listens _ _ (3000 + 1) 3003); [eauto | simpl; lia | |].
    + by rewrite Hfresh.
    + intros r Hr. rewrite Hfresh. apply Hbound. lia.
Qed.

Lemma C3_witness :
  (exists m,
     fst (findAvailablePort (fun _ => true) create 3000 defaults)
     = Returned {| port := 3000; isPreferred := true; message := m |}) /\
  (exists m,
     fst (findAvailablePort (fun p => negb (bool_decide (3000 <= p <= 3002)))
            create 3000
            {| portRange := (3000, 3005); reservePort := true; avoid := [] |})
     = Returned {| port := 3003; isPreferred := false; message := m |}) /\
  (exists m,
     fst (findAvailablePort (fun _ => false) create 3000
            {| portRange := (3000, 3005); reservePort := true; avoid := [] |})
     = Thrown m).
Proof.
  split; [|split].
  - destruct (C3_findAvailablePort_sequential_search
                (fun _ => true) create 3000 defaults) as (_ & H & _).
    apply H. reflexivity.
  - destruct (C3_findAvailablePort_sequential_search
                (fun p => negb (bool_decide (3000 <= p <= 3002)))
                create 3000 defaults) as (_ & _ & _ & _ & H).
    apply H.
    + intros p Hp. rewrite bool_decide_eq_true_2; [reflexivity | lia].
    + reflexivity.
  - destruct (C3_findAvailablePort_sequential_search
                (fun _ => false) create 3000
                {| portRange := (3000, 3005); reservePort := true; avoid := [] |})
      as (_ & _ & _ & H & _).
    apply H; [reflexivity|]. intros q _. reflexivity.
Defined.

(** [findAvailablePort] changes the object only through [reserve_if]. *)
Lemma findAvailablePort_state (listens : Z -> bool) (pm : t) (P : Z) (o : Options) :
  snd (findAvailablePort listens pm P o) =
  match fst (findAvailablePort listens pm P o) with
  | Returned r => reserve_if (reservePort o) (port r) pm
  | Thrown _ => pm
  end.
Proof.
  unfold findAvailablePort.
  destruct (testPort listens _ P); [reflexivity|].
  destruct (search listens _ _ _); reflexivity.
Qed.

Lemma findAvailablePort_Returned (listens : Z -> bool) (pm : t) (P : Z)
    (o : Options) (r : Found) :
  fst (findAvailablePort listens pm P o) = Returned r ->
  testPort listens (excludePorts pm o) (port r) = true /\
  P <= port r /\
  (forall q, P <= q < port r -> testPort listens (excludePorts pm o) q = false).
Proof.
  unfold findAvailablePort.
  destruct (testPort listens _ P) eqn:HP.
  - simpl. intros [= <-]. simpl. repeat split; [done | lia | intros q Hq; lia].
  - destruct (search listens _ _ _) as [q|] eqn:Hs; simpl; [|discriminate].
    intros [= <-]. simpl.
    apply search_Some in Hs as (Hr & Hq & Hbelow).
    repeat split; [done | lia |].
    intros q' Hq'. destruct (decide (q' = P)) as [->|Hne]; [done|].
    apply Hbelow. lia.
Qed.

(** C4 as worded does not hold: on a fresh manager with every port free
    the first call reserves 3000, so the object changes (and a second call
    resolves with 3001). *)
Lemma C4_counterexample :
  ~ side_effect_free_at (fun _ => true) create 3000 defaults.
Proof.
  intros [Hstate _].
  assert (H : 3000 ∈ reservedPorts
                (snd (findAvailablePort (fun _ => true) create 3000 defaults))).
  { vm_compute. reflexivity. }
  rewrite Hstate in H. simpl in H. by apply not_elem_of_empty in H.
Qed.

(** C4, as the code has it. [findAvailablePort] leaves [reservedPorts]
    untouched, and so gives the same answer when repeated, only when
    called with [reservePort: false] or when it throws; with
    [reservePort: true] (the default) it adds exactly the port it returns,
    and an identical second call cannot return that port again. Reserving
    an already reserved port changes nothing. *)
Theorem C4_reservation_side_effect :
  forall (listens : Z -> bool) (pm : t) (P : Z) (o : Options),
    let out := fst (findAvailablePort listens pm P o) in
    let pm' := snd (findAvailablePort listens pm P o) in
    (reservePort o = false -> side_effect_free_at listens pm P o) /\
    (forall m, out = Thrown m -> pm' = pm) /\
    (reservePort o = true -> forall r, out = Returned r ->
       reservedPorts pm' = {[port r]} ∪ reservedPorts pm /\
       (port r ∉ reservedPorts pm) /\
       forall r', fst (findAvailablePort listens pm' P o) = Returned r' ->
                  port r' <> port r) /\
    (forall p, p ∈ reservedPorts pm -> reservePort_ p pm = pm).
Proof.
  intros listens pm P o out pm'. subst out pm'.
  split; [|split; [|split]].
  - intros Hno.
    assert (Hpm : snd (findAvailablePort listens pm P o) = pm).
    { rewrite findAvailablePort_state, Hno.
      destruct (fst (findAvailablePort listens pm P o)); reflexivity. }
    split; [exact Hpm | by rewrite Hpm].
  - intros m Hm. rewrite findAvailablePort_state, Hm. reflexivity.
  - intros Hyes r Hr.
    assert (Hpm : reservedPorts (snd (findAvailablePort listens pm P o))
                  = {[port r]} ∪ reservedPorts pm).
    { rewrite findAvailablePort_state, Hr, Hyes. reflexivity. }
    split; [exact Hpm|]. split.
    + apply findAvailablePort_Returned in Hr as (Hok & _).
      apply testPort_true_iff in Hok. tauto.
    + intros r' Hr' Heq.
      apply findAvailablePort_Returned in Hr' as (Hok & _).
      apply testPort_true_iff in Hok as (_ & Hres & _). apply Hres.
      rewrite Hpm, Heq. apply elem_of_union. left. by apply elem_of_singleton.
  - intros p Hp. destruct pm as [res]. unfold reservePort_. simpl in *. f_equal.
    apply set_eq. intros x. rewrite elem_of_union, elem_of_singleton.
    split; [intros [->|Hx]; done | auto].
Qed.

Lemma C4_witness :
  side_effect_free_at (fun _ => true) create 3000
    {| portRange := (3000, 9999); reservePort := false; avoid := [] |} /\
  reservedPorts (snd (findAvailablePort (fun _ => true) create 3000 defaults))
  = {[3000]} ∪ reservedPorts create /\
  snd (findAvailablePort (fun _ => false) create 3000 defaults) = create /\
  reservePort_ 3000 {| reservedPorts := {[3000]} |} = {| reservedPorts := {[3000]} |}.
Proof.
  split; [|split; [|split]].
  - apply (C4_reservation_side_effect (fun _ => true) create 3000
             {| portRange := (3000, 9999); reservePort := false; avoid := [] |}).
    reflexivity.
  - destruct (C4_reservation_side_effect (fun _ => true) create 3000 defaults)
      as (_ & _ & H & _).
    destruct (H eq_refl {| port := 3000; isPreferred := true;
                           message := "Using preferred port 3000" |})
      as [Hres _]; [reflexivity | exact Hres].
  - destruct (C4_reservation_side_effect (fun _ => false) create 3000 defaults)
      as (_ & H & _).
    apply (H "Cannot find available port in range 3000-9999"). reflexivity.
  - destruct (C4_reservation_side_effect (fun _ => true)
                {| reservedPorts := {[3000]} |} 3000 defaults) as (_ & _ & _ & H).
    apply H. simpl. by apply elem_of_singleton.
Defined.

(** C5. Whatever the reserved-port set holds, a port that
    [findAvailablePort] resolves with is not in it; the port can be bound,
    is not in the avoid list, and no port from the preferred one up to it
    has these three properties. When the preferred port cannot be bound
    and some port below or at [portRange[1]] is free in this sense, the
    call does resolve, with the first such port. *)
Theorem C5_reserved_port_never_returned :
  forall (listens : Z -> bool) (pm : t) (P : Z) (o : Options),
    let out := fst (findAvailablePort listens pm P o) in
    let free q := listens q = true /\ (q ∉ reservedPorts pm) /\ (q ∉ avoid o) in
    (forall r, out = Returned r ->
       (port r ∉ reservedPorts pm) /\ free (port r) /\ P <= port r /\
       forall q, P <= q < port r -> ~ free q) /\
    (listens P = false ->
     (exists q, P < q <= snd (portRange o) /\ free q) ->
     exists r, out = Returned r /\ isPreferred r = false /\ P < port r /\
               free (port r) /\ forall q, P <= q < port r -> ~ free q).
Proof.
  intros listens pm P o out free. subst out free. simpl.
  assert (Hret : forall r, fst (findAvailablePort listens pm P o) = Returned r ->
            (port r ∉ reservedPorts pm) /\
            (listens (port r) = true /\ (port r ∉ reservedPorts pm) /\
             (port r ∉ avoid o)) /\ P <= port r /\
            forall q, P <= q < port r ->
              ~ (listens q = true /\ (q ∉ reservedPorts pm) /\ (q ∉ avoid o))).
  { intros r Hr. apply findAvailablePort_Returned in Hr as (Hok & Hle & Hbelow).
    apply testPort_true_iff in Hok.
    repeat split; try tauto.
    intros q Hq Hfree. apply testPort_true_iff in Hfree.
    rewrite Hbelow in Hfree by done. discriminate. }
  split; [exact Hret|].
  intros HP (q & Hq & Hfree).
  assert (HPno : testPort listens (excludePorts pm o) P = false).
  { destruct (testPort listens (excludePorts pm o) P) eqn:E; [|done].
    apply testPort_true_iff in E as (E & _). congruence. }
  apply testPort_true_iff in Hfree.
  destruct (fst (findAvailablePort listens pm P o)) as [r|m] eqn:Hout.
  - exists r. destruct (Hret r eq_refl) as (Hres & Hfr & Hle & Hbelow).
    assert (Hne : port r <> P).
    { intros Heq. rewrite Heq in Hfr. destruct Hfr as (E & _). congruence. }
    split; [reflexivity|]. split.
    { revert Hout. unfold findAvailablePort. rewrite HPno.
      destruct (search listens _ _ _); simpl; [|discriminate].
      by intros [= <-]. }
    split; [lia|]. split; [exact Hfr | exact Hbelow].
  - exfalso. revert Hout. unfold findAvailablePort. rewrite HPno.
    destruct (search listens _ _ _) as [q'|] eqn:Hs; simpl; [discriminate|].
    intros _. rewrite (search_None _ _ _ _ Hs q) in Hfree by lia.
    discriminate.
Qed.

Lemma C5_witness :
  exists r,
    fst (findAvailablePort (fun p => negb (bool_decide (p = 3000)))
           {| reservedPorts := {[3001]} |} 3000
           {| portRange := (3000, 3005); reservePort := true; avoid := [3002] |})
    = Returned r /\ port r = 3003 /\ (port r ∉ ({[3001]} : gset Z)).
Proof.
  destruct (C5_reserved_port_never_returned
              (fun p => negb (bool_decide (p = 3000)))
              {| reservedPorts := {[3001]} |} 3000
              {| portRange := (3000, 3005); reservePort := true;
                 avoid := [3002] |}) as [Hnever H].
  destruct H as (r & Hr & _).
  - reflexivity.
  - exists 3003. simpl. split; [lia|]. split; [reflexivity|]. split.
    + rewrite elem_of_singleton. lia.
    + rewrite list_elem_of_singleton. lia.
  - exists r. split; [exact Hr|]. split.
    + revert Hr. vm_compute. intros [= <-]. reflexivity.
    + destruct (Hnever r Hr) as [Hout _]. exact Hout.
Defined.

(** ** Reserving, releasing, sequences and service assignment *)

Lemma findAvailablePort_not_preferred (listens : Z -> bool) (pm : t) (P : Z)
    (o : Options) (r : Found) :
  testPort listens (excludePorts pm o) P = false ->
  fst (findAvailablePort listens pm P o) = Returned r ->
  isPreferred r = false /\ P < port r.
Proof.
  intros HP. unfold findAvailablePort. rewrite HP.
  destruct (search listens _ _ _) as [q|] eqn:Hs; simpl; [|discriminate].
  intros [= <-]. simpl. apply search_Some in Hs. split; [done | lia].
Qed.

(** X1. A reserved port is not handed out again, and releasing it (or
    clearing all reservations) makes it available again: for a port that can
    be bound and is not to be avoided, [findAvailablePort] skips it after
    [reservePort] and returns it as the preferred port after [releasePort]
    or [cleanup]. *)
Theorem X1_reserve_blocks_release_unblocks :
  forall (listens : Z -> bool) (pm : t) (P : Z) (o : Options),
    listens P = true -> P ∉ avoid o ->
    (forall r, fst (findAvailablePort listens (reservePort_ P pm) P o) = Returned r ->
               isPreferred r = false /\ P < port r) /\
    (exists m, fst (findAvailablePort listens (releasePort P pm) P o)
               = Returned {| port := P; isPreferred := true; message := m |}) /\
    (exists m, fst (findAvailablePort listens (cleanup pm) P o)
               = Returned {| port := P; isPreferred := true; message := m |}).
Proof.
  intros listens pm P o Hl Ha. split; [|split].
  - intros r. apply findAvailablePort_not_preferred.
    destruct (testPort listens _ P) eqn:E; [|done].
    apply testPort_true_iff in E as (_ & Hres & _). exfalso. apply Hres.
    simpl. apply elem_of_union. left. by apply elem_of_singleton.
  - assert (E : testPort listens (excludePorts (releasePort P pm) o) P = true).
    { apply testPort_true_iff. repeat split; [done | | done].
      simpl. rewrite elem_of_difference, elem_of_singleton. tauto. }
    unfold findAvailablePort. rewrite E. eauto.
  - assert (E : testPort listens (excludePorts (cleanup pm) o) P = true).
    { apply testPort_true_iff. repeat split; [done | | done].
      simpl. apply not_elem_of_empty. }
    unfold findAvailablePort. rewrite E. eauto.
Qed.

Lemma X1_witness :
  exists m, fst (findAvailablePort (fun _ => true)
                   (releasePort 3000 {| reservedPorts := {[3000]} |}) 3000 defaults)
            = Returned {| port := 3000; isPreferred := true; message := m |}.
Proof.
  destruct (X1_reserve_blocks_release_unblocks (fun _ => true)
              {| reservedPorts := {[3000]} |} 3000 defaults eq_refl) as (_ & H & _).
  - simpl. apply not_elem_of_nil.
  - exact H.
Defined.

Lemma findPortSequence_loop_state (listens : Z -> bool) (n : nat) :
  forall pm cur, snd (findPortSequence_loop listens pm cur n) = pm.
Proof.
  induction n as [|n IH]; intros pm cur; simpl; [done|].
  pose proof (findAvailablePort_state listens pm cur unreserved) as Hst.
  destruct (findAvailablePort listens pm cur unreserved) as [[r|m] pm1];
    simpl in Hst; subst pm1; [|done].
  specialize (IH pm (port r + 1)).
  destruct (findPortSequence_loop listens pm (port r + 1) n) as [rest pm2].
  simpl in *. done.
Qed.

Lemma findPortSequence_loop_ok (listens : Z -> bool) (pm : t) (n : nat) :
  forall cur ports,
    fst (findPortSequence_loop listens pm cur n) = Some ports ->
    length ports = n /\
    StronglySorted Z.lt ports /\
    Forall (fun p => cur <= p /\
                     testPort listens (excludePorts pm unreserved) p = true) ports /\
    (forall q p, p ∈ ports -> cur <= q < p ->
                 testPort listens (excludePorts pm unreserved) q = true ->
                 q ∈ ports).
Proof.
  induction n as [|n IH]; intros cur ports; simpl.
  - intros [= <-]. repeat split; [constructor | constructor |].
    intros q p Hp. by apply elem_of_nil in Hp.
  - pose proof (findAvailablePort_state listens pm cur unreserved) as Hst.
    pose proof (findAvailablePort_Returned listens pm cur unreserved) as Hret.
    destruct (findAvailablePort listens pm cur unreserved) as [[r|m] pm1];
      simpl in Hst, Hret; subst pm1; [|discriminate].
    destruct (Hret r eq_refl) as (Hok & Hle & Hbelow).
    specialize (IH (port r + 1)).
    destruct (findPortSequence_loop listens pm (port r + 1) n) as [[rest|] pm2];
      simpl in *; [|discriminate].
    intros [= <-]. destruct (IH rest eq_refl) as (Hlen & Hsorted & Hall & Hfull).
    split; [simpl; by rewrite Hlen|]. split; [|split].
    + constructor; [done|]. eapply Forall_impl; [exact Hall|].
      simpl. intros p [Hp _]. lia.
    + constructor; [done|]. eapply Forall_impl; [exact Hall|].
      simpl. intros p [Hp Hp']. split; [lia | done].
    + intros q p Hp Hq Hfree.
      destruct (decide (q = port r)) as [->|Hne]; [apply list_elem_of_here|].
      apply list_elem_of_further.
      destruct (Z_lt_le_dec q (port r)) as [Hlt|Hge].
      * rewrite Hbelow in Hfree by lia. discriminate.
      * apply elem_of_cons in Hp as [->|Hp]; [lia|].
        apply (Hfull q p Hp); [lia | done].
Qed.

(** X2. [findPortSequence(startPort, count)] never changes the reserved
    set. When it resolves, it returns exactly [count] ports in strictly
    increasing order, each at or above [startPort], each one that can be
    bound and is not reserved, and it skips no such port: every free port
    between [startPort] and a returned port is itself returned. *)
Theorem X2_findPortSequence_first_free_ports :
  forall (listens : Z -> bool) (pm : t) (startPort : Z) (count : nat),
    snd (findPortSequence listens pm startPort count) = pm /\
    forall ports,
      fst (findPortSequence listens pm startPort count) = inr ports ->
      length ports = count /\
      StronglySorted Z.lt ports /\
      Forall (fun p => startPort <= p /\ listens p = true /\
                       (p ∉ reservedPorts pm)) ports /\
      (forall q p, p ∈ ports -> startPort <= q < p -> listens q = true ->
                   q ∉ reservedPorts pm -> q ∈ ports).
Proof.
  intros listens pm startPort count.
  pose proof (findPortSequence_loop_state listens count pm startPort) as Hst.
  pose proof (findPortSequence_loop_ok listens pm count startPort) as Hok.
  unfold findPortSequence.
  destruct (findPortSequence_loop listens pm startPort count) as [[l|] pm1];
    simpl in *; subst pm1; (split; [done|]); [|discriminate].
  intros ports [= <-]. destruct (Hok l eq_refl) as (Hlen & Hsorted & Hall & Hfull).
  split; [done|]. split; [done|]. split.
  - eapply Forall_impl; [exact Hall|]. simpl. intros p [Hp Hfree].
    apply testPort_true_iff in Hfree. tauto.
  - intros q p Hp Hq Hl Hres. apply (Hfull q p Hp Hq).
    apply testPort_true_iff. repeat split; [done | done |].
    simpl. apply not_elem_of_nil.
Qed.

Lemma X2_witness :
  fst (findPortSequence (fun p => negb (bool_decide (p = 3001)))
         {| reservedPorts := {[3002]} |} 3000 3) = inr [3000; 3003; 3004] /\
  length [3000; 3003; 3004] = 3%nat.
Proof.
  split; [reflexivity|].
  destruct (X2_findPortSequence_first_free_ports
              (fun p => negb (bool_decide (p = 3001)))
              {| reservedPorts := {[3002]} |} 3000 3) as [_ H].
  destruct (H [3000; 3003; 3004] eq_refl) as [Hlen _]. exact Hlen.
Defined.

(** The ports of a sequence are unreserved, and finding them reserves
    nothing. *)
Lemma findPortSequence_unreserved (listens : Z -> bool) (pm : t) (startPort : Z)
    (count : nat) :
  snd (findPortSequence listens pm startPort count) = pm /\
  forall ports,
    fst (findPortSequence listens pm startPort count) = inr ports ->
    Forall (fun p => p ∉ reservedPorts pm) ports.
Proof.
  pose proof (findPortSequence_loop_state listens count pm startPort) as Hst.
  pose proof (findPortSequence_loop_ok listens pm count startPort) as Hok.
  unfold findPortSequence.
  destruct (findPortSequence_loop listens pm startPort count) as [[l|] pm1];
    simpl in *; subst pm1; (split; [done|]); [|discriminate].
  intros ports [= <-]. destruct (Hok l eq_refl) as (_ & _ & Hall & _).
  eapply Forall_impl; [exact Hall|]. simpl. intros p [Hp Hfree].
  apply testPort_true_iff in Hfree. tauto.
Qed.

Lemma reserve_all (ports : list Z) :
  forall pm, reservedPorts (foldl (fun s p => reservePort_ p s) pm ports)
             = reservedPorts pm ∪ list_to_set ports.
Proof.
  induction ports as [|p ports IH]; intros pm; simpl.
  - by rewrite (right_id_L ∅ (∪)).
  - rewrite IH. simpl. apply set_eq. intros x.
    rewrite !elem_of_union, elem_of_singleton. tauto.
Qed.

(** X3. When [reservePortRange(startPort, count)] resolves, the ports it
    returns were not reserved before and are all reserved afterwards (the
    reserved set grows by exactly these ports); a later [reservePortRange]
    therefore returns none of them again. *)
Theorem X3_reservePortRange_reserves_fresh_ports :
  forall (listens : Z -> bool) (pm pm' : t) (startPort : Z) (count : nat)
         (ports : list Z),
    reservePortRange listens pm startPort count = (inr ports, pm') ->
    reservedPorts pm' = reservedPorts pm ∪ list_to_set ports /\
    Forall (fun p => p ∉ reservedPorts pm) ports /\
    forall start2 count2 ports2 pm2,
      reservePortRange listens pm' start2 count2 = (inr ports2, pm2) ->
      forall p, p ∈ ports -> p ∉ ports2.
Proof.
  assert (Hfresh : forall listens pm pm' startPort count ports,
            reservePortRange listens pm startPort count = (inr ports, pm') ->
            reservedPorts pm' = reservedPorts pm ∪ list_to_set ports /\
            Forall (fun p => p ∉ reservedPorts pm) ports).
  { intros listens pm pm' startPort count ports. unfold reservePortRange.
    destruct (findPortSequence_unreserved listens pm startPort count)
      as [Hst Hok].
    destruct (findPortSequence listens pm startPort count) as [[e|l] pm1];
      simpl in *; subst pm1; [discriminate|].
    intros [= <- <-]. split; [apply reserve_all|].
    exact (Hok l eq_refl). }
  intros listens pm pm' startPort count ports H.
  destruct (Hfresh _ _ _ _ _ _ H) as [Hres Hnew]. split; [done|]. split; [done|].
  intros start2 count2 ports2 pm2 H2 p Hp Hp2.
  destruct (Hfresh _ _ _ _ _ _ H2) as [_ Hnew2].
  rewrite Forall_forall in Hnew2. apply (Hnew2 p Hp2).
  rewrite Hres. apply elem_of_union. right. by apply elem_of_list_to_set.
Qed.

Lemma X3_witness :
  reservedPorts (snd (reservePortRange (fun _ => true) create 3000 2))
  = reservedPorts create ∪ list_to_set [3000; 3001].
Proof.
  destruct (X3_reservePortRange_reserves_fresh_ports (fun _ => true) create
              (snd (reservePortRange (fun _ => true) create 3000 2)) 3000 2
              [3000; 3001] eq_refl) as [H _].
  exact H.
Defined.

(** The invariant of the assignment loop: distinct services hold distinct
    ports, and every assigned port is reserved. *)
Lemma autoAssignPorts_loop_inv (listens : Z -> bool) (services : list string) :
  forall pm a m pm',
    autoAssignPorts_loop listens pm services a = Some (inr m, pm') ->
    (forall s1 s2 p1 p2, a !! s1 = Some p1 -> a !! s2 = Some p2 ->
                         s1 <> s2 -> p1 <> p2) ->
    (forall s p, a !! s = Some p -> p ∈ reservedPorts pm) ->
    (forall s1 s2 p1 p2, m !! s1 = Some p1 -> m !! s2 = Some p2 ->
                         s1 <> s2 -> p1 <> p2) /\
    (forall s p, m !! s = Some p -> p ∈ reservedPorts pm') /\
    (forall s, is_Some (m !! s) <-> s ∈ services \/ is_Some (a !! s)) /\
    (forall s p, m !! s = Some p ->
       a !! s = Some p \/
       (preferredFor s <= p /\ listens p = true /\ (p ∉ reservedPorts pm))).
Proof.
  induction services as [|service rest IH]; intros pm a m pm'; simpl.
  - intros [= <- <-] Hd Hr. split; [done|]. split; [done|]. split.
    + intros s. split; [auto|]. intros [H|H]; [by apply elem_of_nil in H | done].
    + auto.
  - destruct (bool_decide (service ∈ objectPrototypeKeys)); [discriminate|].
    pose proof (findAvailablePort_state listens pm (preferredFor service) defaults)
      as Hst.
    pose proof (findAvailablePort_Returned listens pm (preferredFor service)
                  defaults) as Hret.
    destruct (findAvailablePort listens pm (preferredFor service) defaults)
      as [[r|e] pm1]; simpl in Hst, Hret; [|discriminate].
    destruct (Hret r eq_refl) as (Hok & Hle & _).
    apply testPort_true_iff in Hok as (Hl & Hnew & _).
    assert (Hpm1 : reservedPorts pm1 = {[port r]} ∪ reservedPorts pm)
      by (subst pm1; reflexivity).
    intros Hrun Hd Hr.
    destruct (IH pm1 (<[service := port r]> a) m pm' Hrun)
      as (Hd' & Hr' & Hdom & Horigin).
    + intros s1 s2 p1 p2 H1 H2 Hne.
      destruct (decide (s1 = service)) as [E1|N1];
        destruct (decide (s2 = service)) as [E2|N2]; subst.
      * done.
      * rewrite lookup_insert_eq in H1. rewrite lookup_insert_ne in H2 by done.
        injection H1 as <-. intros Heq. apply Hnew. rewrite Heq. by apply (Hr s2).
      * rewrite lookup_insert_eq in H2. rewrite lookup_insert_ne in H1 by done.
        injection H2 as <-. intros Heq. apply Hnew. rewrite <- Heq. by apply (Hr s1).
      * rewrite lookup_insert_ne in H1, H2 by done. by apply (Hd s1 s2).
    + intros s p. rewrite Hpm1, elem_of_union, elem_of_singleton.
      destruct (decide (s = service)) as [->|N].
      * rewrite lookup_insert_eq. intros [= <-]. by left.
      * rewrite lookup_insert_ne by done. intros H. right. by apply (Hr s).
    + split; [done|]. split; [done|]. split.
      * intros s. rewrite Hdom, elem_of_cons.
        destruct (decide (s = service)) as [->|N].
        -- rewrite lookup_insert_eq. split; [auto | intros _; right; eauto].
        -- rewrite lookup_insert_ne by done. split; [tauto|].
           intros [[->|H]|H]; [done | by left | by right].
      * intros s p Hm. destruct (Horigin s p Hm) as [Ha|(Hp & Hlp & Hnp)].
        -- destruct (decide (s = service)) as [->|N].
           ++ rewrite lookup_insert_eq in Ha. injection Ha as <-. right. done.
           ++ rewrite lookup_insert_ne in Ha by done. by left.
        -- right. repeat split; [done | done |].
           intros Hin. apply Hnp. rewrite Hpm1. apply elem_of_union. by right.
Qed.

(** X4. When [autoAssignPorts(services)] resolves, every listed service has
    a port, no two different services share one, and each port is at or
    above the service's preferred port, can be bound, was not reserved
    before the call and is reserved after it. *)
Theorem X4_autoAssignPorts_distinct_ports :
  forall (listens : Z -> bool) (pm pm' : t) (services : list string)
         (m : gmap string Z),
    autoAssignPorts listens pm services = Some (inr m, pm') ->
    (forall s, is_Some (m !! s) <-> s ∈ services) /\
    (forall s1 s2 p1 p2, m !! s1 = Some p1 -> m !! s2 = Some p2 ->
                         s1 <> s2 -> p1 <> p2) /\
    (forall s p, m !! s = Some p ->
       preferredFor s <= p /\ listens p = true /\
       (p ∉ reservedPorts pm) /\ p ∈ reservedPorts pm').
Proof.
  intros listens pm pm' services m H.
  destruct (autoAssignPorts_loop_inv listens services pm ∅ m pm' H)
    as (Hd & Hr & Hdom & Horigin).
  - intros s1 s2 p1 p2 H1. by rewrite lookup_empty in H1.
  - intros s p H1. by rewrite lookup_empty in H1.
  - split; [|split; [done|]].
    + intros s. rewrite Hdom, lookup_empty. split; [|auto].
      intros [Hs|Hs]; [done | by destruct Hs].
    + intros s p Hm. destruct (Horigin s p Hm) as [Ha|(Hp & Hl & Hn)].
      * by rewrite lookup_empty in Ha.
      * repeat split; try done. by apply (Hr s).
Qed.

Lemma X4_witness :
  exists m pm',
    autoAssignPorts (fun _ => true) create ["api"; "dashboard"; "worker"]
    = Some (inr m, pm') /\
    m !! "api" = Some 3001 /\ m !! "dashboard" = Some 3000 /\
    m !! "worker" = Some 3002.
Proof.
  destruct (autoAssignPorts (fun _ => true) create ["api"; "dashboard"; "worker"])
    as [[[e|m] pm']|] eqn:E; try (vm_compute in E; discriminate E).
  exists m, pm'. split; [reflexivity|].
  destruct (X4_autoAssignPorts_distinct_ports _ _ _ _ _ E) as (_ & _ & _).
  vm_compute in E. injection E as <- <-. repeat split.
Defined.
End PortManagerProps.

(* ===================================================================== *)
(** * Properties of the process supervisor                                *)
(* ===================================================================== *)

Module ProcessManagerProps.
Import ProcessManager.

Lemma run_add (os : string -> Program) (a b : nat) (st : t) :
  run os (a + b) st = run os b (run os a st).
Proof. revert st. induction a as [|a IH]; intros st; simpl; [done | apply IH]. Qed.

Lemma run_idle (os : string -> Program) (n : nat) (st : t) :
  pending st = [] -> run os n st = st.
Proof.
  intros H. induction n as [|n IH]; simpl; [done|].
  unfold step at 1. rewrite H. exact IH.
Qed.

(** ** Restart after a failure *)

(** The shape of the supervisor while ['x'] keeps failing with a restart
    budget of [R]: the [k]-th respawn is registered, its counter is zero
    again, and its ['exit'] is waiting in the event loop. *)
Record crash_loop (R : Z) (k : nat) (st : t) : Prop := {
  cl_spawned : spawned st = S k;
  cl_registered : processes st !! "x" = Some k;
  cl_config : exists cfg, configs st !! k = Some cfg /\
                name cfg = "x" /\ restartCount cfg = 0 /\
                maxRestarts cfg = R /\ timeoutHandle cfg = false /\
                SpawnOptions.timeout (options cfg) = 0 /\
                SpawnOptions.retries (options cfg) = R;
  cl_pending : pending st = [ChildExit k (Some 1) None];
  cl_running : isShuttingDown st = false
}.

Lemma crash_loop_start (R : Z) : crash_loop R 0 (failing_with R).
Proof.
  split; try reflexivity.
  eexists. split; [apply lookup_insert_eq|]. repeat split.
Qed.

Lemma crash_loop_round (R : Z) (k : nat) (st : t) :
  0 < R ->
  crash_loop R k st ->
  crash_loop R (S k) (step always_fails (step always_fails st)).
Proof.
  intros HR [Hs Hr (cfg & Hc & Hn & Hrc & Hmr & Hth & Hto & Hre) Hp Hsd].
  destruct st as [procs sd cfgs sp pend ev]. simpl in *. subst sp pend sd.
  unfold step at 2. simpl. unfold handleExit. simpl. rewrite Hc, Hth. simpl.
  rewrite Hrc, Hmr, (bool_decide_eq_true_2 _ HR). simpl.
  unfold step. simpl. unfold restart. simpl.
  rewrite lookup_insert_eq. simpl. rewrite Hn.
  unfold spawnProcess. simpl. rewrite lookup_delete_eq. simpl.
  rewrite Hto, Hre. simpl.
  split; simpl; try reflexivity.
  - apply lookup_insert_eq.
  - eexists. split; [apply lookup_insert_eq|]. simpl. repeat split; done.
Qed.

(** Any positive budget: the failing command is respawned without end. *)
Lemma crash_loop_forever (R : Z) (k : nat) :
  0 < R -> crash_loop R k (run always_fails (2 * k) (failing_with R)).
Proof.
  intros HR. induction k as [|k IH]; [exact (crash_loop_start R)|].
  replace (2 * S k)%nat with (2 * k + 2)%nat by lia.
  rewrite run_add. simpl. by apply crash_loop_round.
Qed.

(** Without a budget the first failure is final. *)
Lemma no_retries_no_restart :
  let st := run always_fails 1 (failing_with 0) in
  spawned st = 1%nat /\ processes st !! "x" = None /\ pending st = [].
Proof. repeat split. Qed.

(** C1, evaluated on the code. After
    [spawnProcess('x', 'false', [], {retries: 2, restartDelay: 0})] every
    failure schedules one more respawn: the respawn builds a new
    [processConfig] whose [restartCount] is zero, so the budget of two is
    never used up. After [k] rounds there have been [k + 1] spawns, ['x']
    is registered and the next ['exit'] is waiting; in particular there
    is a fourth spawn. *)
Theorem C1_restart_budget_never_consumed :
  (forall k : nat,
     let st := run always_fails (2 * k) failing_x in
     spawned st = S k /\ processes st !! "x" = Some k /\
     (restartCount <$> configs st !! k) = Some 0 /\
     pending st = [ChildExit k (Some 1) None]) /\
  spawned (run always_fails 6 failing_x) = 4%nat /\
  processes (run always_fails 6 failing_x) !! "x" = Some 3%nat.
Proof.
  split.
  - intros k.
    destruct (crash_loop_forever 2 k ltac:(lia)) as [Hs Hr (cfg & Hc & _ & Hrc & _) Hp _].
    cbv zeta. unfold failing_x.
    rewrite Hc. cbn [fmap option_fmap option_map]. rewrite Hrc. done.
  - split; vm_compute; reflexivity.
Qed.

(** ** Clean exit *)

(** C8. When the ['exit'] event of a spawned process carries code 0, the
    listener removes the process name from the registry and schedules
    nothing: no callback is added to the event loop (so no restart timer)
    and nothing is spawned, whatever [maxRestarts] and [restartCount]
    are. *)
Theorem C8_clean_exit_is_final :
  forall (os : string -> Program) (st : t) (h : nat) (cfg : processConfig)
         (signal : option Signal) (rest : list Task),
    pending st = ChildExit h (Some 0) signal :: rest ->
    configs st !! h = Some cfg ->
    let st' := step os st in
    processes st' !! name cfg = None /\
    (forall k, k ∈ pending st' -> k ∈ rest) /\
    (forall h', RestartTimer h' ∈ pending st' -> RestartTimer h' ∈ rest) /\
    spawned st' = spawned st /\
    statusOf st' h = Some exited.
Proof.
  intros os st h cfg signal rest Hp Hc st'. subst st'.
  unfold step. rewrite Hp. unfold handleExit. simpl. rewrite Hc.
  assert (Hsub : forall k : Task,
            k ∈ filter (fun k => k ≠ TimeoutTimer h) rest -> k ∈ rest).
  { intros k Hk. by apply list_elem_of_filter in Hk as [_ Hk]. }
  destruct (timeoutHandle cfg); simpl;
    (split; [apply lookup_delete_eq|]);
    (split; [auto|]); (split; [auto|]);
    (split; [reflexivity|]);
    unfold statusOf; simpl; by rewrite lookup_insert_eq.
Qed.

Lemma C8_witness :
  processes (step always_succeeds succeeding_job) !! "job" = None /\
  pending (step always_succeeds succeeding_job) = [].
Proof.
  destruct (C8_clean_exit_is_final always_succeeds succeeding_job 0%nat
              {| name := "job"; command := "true"; args := [];
                 options := {| SpawnOptions.timeout := 0;
                               SpawnOptions.retries := 5;
                               SpawnOptions.restartDelay := 5000 |};
                 restartCount := 0; maxRestarts := 5; restartDelay := 5000;
                 status := starting; exitCode := None; exitSignal := None;
                 process := {| pid := 0; killed := false; hasExited := false;
                               received := [] |};
                 timeoutHandle := false |}
              None [] eq_refl eq_refl) as (Hgone & Hsub & _).
  split; [exact Hgone|].
  destruct (pending (step always_succeeds succeeding_job)) as [|k l]; [done|].
  specialize (Hsub k (list_elem_of_here _ _)). inversion Hsub.
Defined.

(** ** Shutdown *)

(** A second [shutdown()] does nothing, and the first one leaves an empty
    registry. *)
Lemma shutdown_registry (os : string -> Program) (window : nat) (st : t) :
  (isShuttingDown st = true -> shutdown os window st = st) /\
  (isShuttingDown st = false -> processes (shutdown os window st) = ∅).
Proof.
  unfold shutdown. split; intros ->; reflexivity.
Qed.

(** A server that honours [SIGTERM] is stopped by [shutdown()]: it gets
    the signal, its ['exit'] arrives during the wait, and it is not
    restarted. *)
Lemma cooperative_shutdown :
  let st0 := spawned_alone cooperative "x" "server" SpawnOptions.defaults in
  let st := shutdown cooperative 2 st0 in
  processes st = ∅ /\ signalsOf st 0 = [SIGTERM] /\ exitedOf st 0 = true /\
  spawned st = 1%nat /\ pending st = [].
Proof. repeat split. Qed.

(** The supervisor sends a second signal to nobody: [killProcess] and
    the five-second timer both look at [killed], which is already [true]
    after the first [kill()]. *)
Lemma killProcess_after_kill (os : string -> Program) (st : t) (n : string)
    (h : nat) (cfg : processConfig) (s : Signal) :
  processes st !! n = Some h -> configs st !! h = Some cfg ->
  killed (process cfg) = true ->
  killProcess os st n s = (inr false, st).
Proof.
  intros Hn Hc Hk. unfold killProcess. by rewrite Hn, Hc, Hk.
Qed.

Lemma straggler_shutdown (window : nat) :
  shutdown stubborn window straggler =
  set_processes (fun _ => ∅)
    (forceStragglers stubborn (map_to_list (processes straggler))
       straggler_signalled (run stubborn window straggler_signalled)).
Proof. reflexivity. Qed.

Lemma straggler_window (window : nat) :
  run stubborn window straggler_signalled = straggler_signalled \/
  run stubborn window straggler_signalled = step stubborn straggler_signalled.
Proof.
  destruct window as [|w]; [by left | right]. simpl.
  apply run_idle. vm_compute. reflexivity.
Qed.

Lemma straggler_after (more : nat) (st : t) :
  st = set_processes (fun _ => ∅) straggler_signalled \/
  st = set_processes (fun _ => ∅) (step stubborn straggler_signalled) ->
  configs (run stubborn more st) !! 0%nat = configs straggler_signalled !! 0%nat /\
  processes (run stubborn more st) = ∅.
Proof.
  intros [-> | ->].
  - destruct more as [|m]; [split; reflexivity|]. simpl.
    rewrite run_idle; [split; vm_compute; reflexivity | vm_compute; reflexivity].
  - rewrite run_idle; [split; vm_compute; reflexivity | vm_compute; reflexivity].
Qed.

(** C7, evaluated on the code. One registered server ignores [SIGTERM].
    [shutdown()] sends it [SIGTERM] and empties the registry, but however
    long the wait lasts and whatever runs afterwards, the server is never
    sent [SIGKILL]: the [killProcess(name, 'SIGKILL')] of the [catch]
    block and the five-second timer are both skipped because
    [childProcess.killed] is already [true]. The server stays alive. *)
Theorem C7_straggler_is_never_force_killed :
  forall window more : nat,
    let st := run stubborn more (shutdown stubborn window straggler) in
    processes st = ∅ /\
    signalsOf st 0 = [SIGTERM] /\
    exitedOf st 0 = false /\
    (killed <$> (process <$> configs st !! 0%nat)) = Some true.
Proof.
  intros window more st. subst st. rewrite straggler_shutdown.
  assert (Hst : set_processes (fun _ => ∅)
             (forceStragglers stubborn (map_to_list (processes straggler))
                straggler_signalled (run stubborn window straggler_signalled))
           = set_processes (fun _ => ∅) straggler_signalled \/
           set_processes (fun _ => ∅)
             (forceStragglers stubborn (map_to_list (processes straggler))
                straggler_signalled (run stubborn window straggler_signalled))
           = set_processes (fun _ => ∅) (step stubborn straggler_signalled)).
  { destruct (straggler_window window) as [-> | ->];
      [left | right]; vm_compute; reflexivity. }
  destruct (straggler_after more _ Hst) as [Hc Hp].
  split; [exact Hp|].
  unfold signalsOf, exitedOf. rewrite Hc.
  repeat split; vm_compute; reflexivity.
Qed.

(** ** Signals, timeouts and the shutdown flag *)

(** X5. [killProcess] goes by the [killed] flag of the child handle alone.
    On a registered name whose child has been signalled before, it returns
    [false], sends no signal and changes nothing, whatever the signal and
    whether or not the child has ended. On a registered name whose child
    has neither been signalled nor exited, it returns [true] and leaves the
    status ['stopping'], so that the process does not count as running, and
    a [killProcess] that directly follows on the same name is a call of
    the first kind: a [SIGTERM] is not followed by a [SIGKILL] that way. On
    a name that is not registered it throws "not found" and changes
    nothing; this is what a call finds once the ['exit'] listener has
    removed the name. *)
Theorem X5_killProcess_goes_by_killed_flag :
  forall (os : string -> Program) (st : t) (n : string) (s : Signal),
    (forall h cfg,
        processes st !! n = Some h -> configs st !! h = Some cfg ->
        killed (process cfg) = true ->
        killProcess os st n s = (inr false, st)) /\
    (forall h cfg s2,
        processes st !! n = Some h -> configs st !! h = Some cfg ->
        killed (process cfg) = false -> hasExited (process cfg) = false ->
        let st' := snd (killProcess os st n s) in
        fst (killProcess os st n s) = inr true /\
        statusOf st' h = Some stopping /\
        isProcessRunning st' n = false /\
        killProcess os st' n s2 = (inr false, st')) /\
    (processes st !! n = None ->
     killProcess os st n s = (inl ("Process '" +:+ n +:+ "' not found"), st)) /\
    (forall h cfg code signal,
        configs st !! h = Some cfg -> name cfg = n ->
        code = Some 0 \/ maxRestarts cfg <= restartCount cfg \/
        isShuttingDown st = true ->
        let st' := handleExit st h code signal in
        killProcess os st' n s = (inl ("Process '" +:+ n +:+ "' not found"), st')).
Proof.
  intros os st n s. split; [|split; [|split]].
  - intros h cfg. apply killProcess_after_kill.
  - intros h cfg s2 Hn Hc Hk He st'. subst st'.
    assert (Hst : exists cfg',
               processes (snd (killProcess os st n s)) !! n = Some h /\
               configs (snd (killProcess os st n s)) !! h = Some cfg' /\
               killed (process cfg') = true /\ status cfg' = stopping /\
               fst (killProcess os st n s) = inr true).
    { unfold killProcess. rewrite Hn, Hc, Hk. simpl.
      unfold kill. simpl. rewrite lookup_insert_eq. simpl. rewrite He.
      destruct (osAlive _ _); destruct (decide (s <> SIGKILL)); simpl;
        eexists; (split; [exact Hn|]);
        (split; [apply lookup_insert_eq|]); done. }
    destruct Hst as (cfg' & Hn' & Hc' & Hk' & Hs' & Hr).
    split; [exact Hr|]. split; [|split].
    + unfold statusOf. by rewrite Hc', <- Hs'.
    + unfold isProcessRunning. rewrite Hn', Hc', Hk'. apply andb_false_r.
    + by apply (killProcess_after_kill os _ n h cfg').
  - intros Hn. unfold killProcess. by rewrite Hn.
  - intros h cfg code signal Hc Hname Hend st'. subst st'.
    assert (Hgone : processes (handleExit st h code signal) !! n = None).
    { unfold handleExit. rewrite Hc.
      assert (Hb : bool_decide (code <> Some 0)
                   && bool_decide (restartCount cfg < maxRestarts cfg)
                   && negb (isShuttingDown st) = false).
      { destruct Hend as [-> | [Hle | ->]].
        - rewrite bool_decide_eq_false_2 by (intros H; by apply H). done.
        - rewrite (bool_decide_eq_false_2 (restartCount cfg < maxRestarts cfg))
            by lia. apply andb_false_iff. left. apply andb_false_r.
        - apply andb_false_r. }
      destruct (timeoutHandle cfg); simpl; rewrite Hb; simpl; subst n;
        apply lookup_delete_eq. }
    unfold killProcess. by rewrite Hgone.
Qed.

Lemma X5_witness :
  killProcess stubborn (snd (killProcess stubborn straggler "x" SIGTERM)) "x" SIGKILL
  = (inr false, snd (killProcess stubborn straggler "x" SIGTERM)) /\
  killProcess always_succeeds (step always_succeeds succeeding_job) "job" SIGTERM
  = (inl "Process 'job' not found", step always_succeeds succeeding_job).
Proof.
  destruct (X5_killProcess_goes_by_killed_flag stubborn straggler "x" SIGTERM)
    as (_ & H & _).
  destruct (H 0%nat
              {| name := "x"; command := "server"; args := [];
                 options := SpawnOptions.defaults;
                 restartCount := 0; maxRestarts := 0; restartDelay := 5000;
                 status := running; exitCode := None; exitSignal := None;
                 process := {| pid := 0; killed := false; hasExited := false;
                               received := [] |};
                 timeoutHandle := false |}
              SIGKILL eq_refl eq_refl eq_refl eq_refl) as (_ & _ & _ & H2).
  split; [exact H2|].
  destruct (X5_killProcess_goes_by_killed_flag always_succeeds
              {| processes := processes succeeding_job;
                 isShuttingDown := false;
                 configs := configs succeeding_job;
                 spawned := 1; pending := []; emitted := [] |}
              "job" SIGTERM) as (_ & _ & _ & H4).
  apply (H4 0%nat
           {| name := "job"; command := "true"; args := [];
              options := {| SpawnOptions.timeout := 0; SpawnOptions.retries := 5;
                            SpawnOptions.restartDelay := 5000 |};
              restartCount := 0; maxRestarts := 5; restartDelay := 5000;
              status := starting; exitCode := None; exitSignal := None;
              process := {| pid := 0; killed := false; hasExited := false;
                            received := [] |};
              timeoutHandle := false |}
           (Some 0) None eq_refl eq_refl).
  by left.
Defined.

Section Waiting.
Variable os : string -> Program.
Variable n : string.
Variable h : nat.

(** What a turn of the event loop has to leave alone for the wait to go
    on. *)
Lemma waits_frame (s s' : t) (q r : list Task) :
  waits_for_restart n h s ->
  pending s = q ++ RestartTimer h :: r ->
  Forall (bystander n h s) q ->
  (spawned s <= spawned s')%nat ->
  (forall m, processes s' !! m = Some h -> processes s !! m = Some h) ->
  processes s' !! n = processes s !! n ->
  configs s' !! h = configs s !! h ->
  (forall x c', x <> h -> configs s' !! x = Some c' ->
                name c' <> n \/ exists c, configs s !! x = Some c /\ name c = name c') ->
  (exists q' r', pending s' = q' ++ RestartTimer h :: r' /\
                 forall k, k ∈ q' -> k ∈ q) ->
  waits_for_restart n h s'.
Proof.
  intros (Hlt & Hreg & Huniq & Hcfg & _) Hp Hq Hsp Hnames Hn Hh Hothers
         (q' & r' & Hp' & Hsub).
  split; [lia|]. split; [congruence|]. split; [auto|].
  split; [by rewrite Hh|].
  exists q', r'. split; [exact Hp'|].
  apply Forall_forall. intros k Hk. apply Hsub in Hk.
  rewrite Forall_forall in Hq. destruct (Hq k Hk) as [->|[Hne Hname]];
    [by left|]. right. split; [exact Hne|].
  intros c' Hc'. destruct (Hothers _ _ Hne Hc') as [Hdone|(c & Hc & Heq)];
    [exact Hdone|]. rewrite <- Heq. by apply Hname.
Qed.

Lemma filter_keeps_restart (h' : nat) (q r : list Task) :
  exists q' r',
    filter (fun k => k <> TimeoutTimer h') (q ++ RestartTimer h :: r)
    = q' ++ RestartTimer h :: r' /\
    forall k, k ∈ q' -> k ∈ q.
Proof.
  exists (filter (fun k => k <> TimeoutTimer h') q),
         (filter (fun k => k <> TimeoutTimer h') r).
  split.
  - rewrite filter_app. by rewrite filter_cons_True by discriminate.
  - intros k Hk. by apply list_elem_of_filter in Hk as [_ Hk].
Qed.

(** [kill] on another object than [h]. *)
Lemma kill_frame (s : t) (h' : nat) (sig : Signal) :
  h' <> h ->
  let s' := snd (kill os s h' sig) in
  spawned s' = spawned s /\ processes s' = processes s /\
  configs s' !! h = configs s !! h /\
  (forall x c', x <> h -> configs s' !! x = Some c' ->
                exists c, configs s !! x = Some c /\ name c = name c') /\
  exists extra, pending s' = pending s ++ extra.
Proof.
  intros Hne. unfold kill.
  destruct (configs s !! h') as [cfg'|] eqn:Hc'; simpl;
    [|repeat split; [eauto | exists []; by rewrite app_nil_r]].
  destruct (hasExited (process cfg')); simpl;
    [repeat split; [eauto | exists []; by rewrite app_nil_r]|].
  destruct (osAlive _ _); simpl.
  - repeat split.
    + by rewrite lookup_insert_ne.
    + intros x c' Hx. destruct (decide (x = h')) as [->|Hxh].
      * rewrite lookup_insert_eq. intros [= <-]. by exists cfg'.
      * rewrite lookup_insert_ne by done. eauto.
    + eauto.
  - repeat split.
    + by rewrite lookup_insert_ne.
    + intros x c' Hx. destruct (decide (x = h')) as [->|Hxh].
      * rewrite lookup_insert_eq. intros [= <-]. by exists cfg'.
      * rewrite lookup_insert_ne by done. eauto.
    + exists []. by rewrite app_nil_r.
Qed.

(** [killProcess] on another name than [n]. *)
Lemma killProcess_frame (s : t) (m : string) (sig : Signal) :
  m <> n ->
  (forall m', processes s !! m' = Some h -> m' = n) ->
  let s' := snd (killProcess os s m sig) in
  spawned s' = spawned s /\ processes s' = processes s /\
  configs s' !! h = configs s !! h /\
  (forall x c', x <> h -> configs s' !! x = Some c' ->
                exists c, configs s !! x = Some c /\ name c = name c') /\
  exists extra, pending s' = pending s ++ extra.
Proof.
  intros Hm Huniq. unfold killProcess.
  destruct (processes s !! m) as [h2|] eqn:Hreg; simpl;
    [|repeat split; [eauto | exists []; by rewrite app_nil_r]].
  assert (Hne : h2 <> h) by (intros ->; by apply Hm, Huniq).
  destruct (configs s !! h2) as [cfg2|] eqn:Hc2; simpl;
    [|repeat split; [eauto | exists []; by rewrite app_nil_r]].
  destruct (killed (process cfg2)); simpl;
    [repeat split; [eauto | exists []; by rewrite app_nil_r]|].
  set (s1 := set_config h2 (set_status stopping cfg2) s).
  destruct (kill_frame s1 h2 sig Hne) as (Hsp & Hpr & Hch & Hoth & extra & Hpe).
  assert (Hoth' : forall x c', x <> h ->
             configs (kill os s1 h2 sig).2 !! x = Some c' ->
             exists c, configs s !! x = Some c /\ name c = name c').
  { intros x c' Hx Hc'. destruct (Hoth x c' Hx Hc') as (c & Hc & Heq).
    subst s1. simpl in Hc. destruct (decide (x = h2)) as [->|Hxh].
    - rewrite lookup_insert_eq in Hc. injection Hc as <-. by exists cfg2.
    - rewrite lookup_insert_ne in Hc by done. eauto. }
  assert (Hch' : configs (kill os s1 h2 sig).2 !! h = configs s !! h).
  { rewrite Hch. subst s1. simpl. by rewrite lookup_insert_ne. }
  destruct (decide (sig <> SIGKILL)); simpl.
  - repeat split; [done | done | done | done |].
    rewrite Hpe. exists (extra ++ [ForceKillTimer h2]). by rewrite <- app_assoc.
  - repeat split; [done | done | done | done |]. by exists extra.
Qed.

(** A turn of the event loop that does not run the restart timer of [h]
    leaves [h] waiting. *)
Lemma step_keeps_waiting (s : t) :
  waits_for_restart n h s ->
  head (pending s) <> Some (RestartTimer h) ->
  waits_for_restart n h (step os s).
Proof.
  intros Hw Hhead.
  pose proof Hw as (Hlt & Hreg & Huniq & (cfg & Hcfg & Hname & Hstat & Hex)
                    & q & r & Hp & Hq).
  destruct q as [|k q]; [rewrite Hp in Hhead; by destruct Hhead|].
  simpl in Hp. unfold step. rewrite Hp.
  set (s0 := set_pending (fun _ => q ++ RestartTimer h :: r) s).
  assert (Hw0 : waits_for_restart n h s0).
  { split; [exact Hlt|]. split; [exact Hreg|]. split; [exact Huniq|].
    split; [by exists cfg|]. exists q, r. split; [done|].
    by inversion Hq. }
  assert (Hq0 : Forall (bystander n h s0) q) by (by inversion Hq).
  assert (Hk : bystander n h s0 k) by (by inversion Hq).
  assert (Hp0 : pending s0 = q ++ RestartTimer h :: r) by done.
  assert (Hcfg0 : configs s0 !! h = Some cfg) by done.
  assert (Huniq0 : forall m, processes s0 !! m = Some h -> m = n) by done.
  assert (Hlt0 : (h < spawned s0)%nat) by done.
  clearbody s0. clear Hw Hp Hq Hhead Hlt Hreg Huniq Hcfg s.
  destruct Hk as [->|[Hne Hforeign]].
  { (* the force-kill timer of [h]: the child has exited *)
    rewrite Hcfg0. destruct (killed (process cfg)); simpl; [done|].
    unfold kill. by rewrite Hcfg0, Hex. }
  destruct k as [h' code sig|h'|h'|h']; simpl in Hne, Hforeign.
  - (* the exit of another child *)
    unfold handleExit.
    destruct (configs s0 !! h') as [cfg'|] eqn:Hc'; [|done].
    specialize (Hforeign cfg' eq_refl).
    destruct (filter_keeps_restart h' q r) as (qf & rf & Hf & Hsub).
    destruct s0 as [procs sd cfgs sp pend ev]. simpl in *. subst pend.
    destruct (timeoutHandle cfg'); simpl;
      destruct (bool_decide (code <> Some 0)
                && bool_decide (restartCount cfg' < maxRestarts cfg') && negb sd);
      simpl;
      (eapply (waits_frame _ _ q r Hw0);
       [ reflexivity | exact Hq0 | simpl; lia
       | simpl; intros m; rewrite ?lookup_delete_Some; tauto
       | simpl; rewrite ?lookup_delete_ne by done; reflexivity
       | simpl; rewrite ?lookup_insert_ne by done; reflexivity
       | simpl; intros x c' Hx;
         destruct (decide (x = h')) as [->|Hxh];
         [ rewrite !lookup_insert_eq; intros [= <-]; by left
         | rewrite !lookup_insert_ne by done; eauto ]
       | simpl ]).
    + rewrite Hf. exists qf, (rf ++ [RestartTimer h']).
      by rewrite <- app_assoc.
    + rewrite Hf. by exists qf, rf.
    + exists q, (r ++ [RestartTimer h']). by rewrite <- app_assoc.
    + by exists q, r.
  - (* the restart of another process *)
    unfold restart.
    destruct (configs s0 !! h') as [cfg'|] eqn:Hc'; [|done].
    specialize (Hforeign cfg' eq_refl).
    unfold spawnProcess. simpl. rewrite lookup_delete_eq.
    destruct s0 as [procs sd cfgs sp pend ev]. simpl in *. subst pend.
    eapply (waits_frame _ _ q r Hw0); [reflexivity | exact Hq0 | ..]; simpl.
    + lia.
    + intros m. destruct (decide (m = name cfg')) as [->|Hm].
      * rewrite lookup_insert_eq. intros [= ->]. lia.
      * rewrite lookup_insert_ne, lookup_delete_ne by done. done.
    + by rewrite lookup_insert_ne, lookup_delete_ne by done.
    + rewrite lookup_insert_ne by lia. done.
    + intros x c' Hx. destruct (decide (x = sp)) as [->|Hxs].
      * rewrite lookup_insert_eq. intros [= <-]. by left.
      * rewrite lookup_insert_ne by done. eauto.
    + eexists q, _. by rewrite <- app_assoc.
  - (* the force-kill timer of another child *)
    destruct (configs s0 !! h') as [cfg'|] eqn:Hc'; [|done].
    destruct (killed (process cfg')); simpl; [done|].
    destruct (kill_frame s0 h' SIGKILL Hne) as (Hsp & Hpr & Hch & Hoth & extra & Hpe).
    eapply (waits_frame _ _ q r Hw0); [exact Hp0 | exact Hq0 | ..].
    + lia.
    + by rewrite Hpr.
    + by rewrite Hpr.
    + exact Hch.
    + intros x c' Hx Hcx. right. eauto.
    + rewrite Hpe, Hp0. exists q, (r ++ extra). by rewrite <- app_assoc.
  - (* the start timeout of another child *)
    destruct (configs s0 !! h') as [cfg'|] eqn:Hc'; [|done].
    specialize (Hforeign cfg' eq_refl).
    destruct (killProcess_frame s0 (name cfg') SIGKILL Hforeign Huniq0)
      as (Hsp & Hpr & Hch & Hoth & extra & Hpe).
    eapply (waits_frame _ _ q r Hw0); [exact Hp0 | exact Hq0 | ..]; simpl.
    + lia.
    + by rewrite Hpr.
    + by rewrite Hpr.
    + exact Hch.
    + intros x c' Hx Hcx. right. eauto.
    + rewrite Hpe, Hp0. exists q, (r ++ extra). by rewrite <- app_assoc.
Qed.

Lemma run_keeps_waiting (j : nat) :
  forall s,
    waits_for_restart n h s ->
    (forall i, (i < j)%nat -> head (pending (run os i s)) <> Some (RestartTimer h)) ->
    waits_for_restart n h (run os j s).
Proof.
  induction j as [|j IH]; intros s Hw Hnot; [done|].
  simpl. apply IH.
  - apply step_keeps_waiting; [done|]. apply (Hnot 0%nat). lia.
  - intros i Hi. apply (Hnot (S i)). lia.
Qed.
End Waiting.

(** X6. A process that ended by itself with a non-zero exit code, with
    restart budget left and no shutdown in progress, keeps its name until
    its restart timer fires: while the event loop runs callbacks of other
    processes (or the force-kill timer of an earlier [killProcess] on the
    process itself), and no call comes from outside, the name stays in the
    registry with status ['exited'], the restart timer stays queued, and
    [spawnProcess] with that name is refused as "already running". *)
Theorem X6_name_taken_until_restart_fires :
  forall (os : string -> Program) (st : t) (h : nat) (cfg : processConfig)
         (c : Z) (signal : option Signal),
    configs st !! h = Some cfg ->
    processes st !! name cfg = Some h ->
    (forall m, processes st !! m = Some h -> m = name cfg) ->
    (h < spawned st)%nat ->
    c <> 0 ->
    restartCount cfg < maxRestarts cfg ->
    isShuttingDown st = false ->
    Forall (fun k => (k = TimeoutTimer h /\ timeoutHandle cfg = true) \/
                     bystander (name cfg) h st k) (pending st) ->
    let st' := handleExit st h (Some c) signal in
    forall j,
      (forall i, (i < j)%nat ->
                 head (pending (run os i st')) <> Some (RestartTimer h)) ->
      let s := run os j st' in
      processes s !! name cfg = Some h /\
      statusOf s h = Some exited /\
      RestartTimer h ∈ pending s /\
      forall cmd a o,
        spawnProcess os s (name cfg) cmd a o
        = inl ("Process '" +:+ name cfg +:+ "' is already running").
Proof.
  intros os st h cfg c signal Hc Hn Huniq Hlt Hcode Hbudget Hsd Hpend st' j Hnot s.
  assert (Hw : waits_for_restart (name cfg) h st').
  { subst st'. unfold handleExit. rewrite Hc.
    assert (Hb : bool_decide (Some c <> Some 0)
                 && bool_decide (restartCount cfg < maxRestarts cfg) = true).
    { rewrite !bool_decide_eq_true_2; [done | done | congruence]. }
    assert (Hby : forall k,
               bystander (name cfg) h st k ->
               forall cs',
               (forall x, x <> h -> cs' !! x = configs st !! x) ->
               forall p' sd' sp' pe' ev',
               bystander (name cfg) h
                 {| processes := p'; isShuttingDown := sd'; configs := cs';
                    spawned := sp'; pending := pe'; emitted := ev' |} k).
    { intros k [->|[Hne Hf]] cs' Hsame p' sd' sp' pe' ev'; [by left|].
      right. split; [done|]. simpl. rewrite (Hsame _ Hne). exact Hf. }
    destruct st as [procs sd cfgs sp pend ev]. simpl in *. subst sd.
    destruct (timeoutHandle cfg) eqn:Hth; simpl; rewrite Hb; simpl.
    - split; [done|]. split; [done|]. split; [done|]. split.
      { eexists. simpl. rewrite lookup_insert_eq. split; [reflexivity|]. done. }
      exists (filter (fun k => k <> TimeoutTimer h) pend), []. split; [done|].
      unfold set_pending, emit, set_config. simpl.
      apply Forall_forall. intros k Hk.
      apply list_elem_of_filter in Hk as [Hnk Hk].
      rewrite Forall_forall in Hpend.
      destruct (Hpend k Hk) as [[-> _]|Hbk]; [done|].
      apply (Hby k Hbk).
      intros x Hx. by rewrite !lookup_insert_ne.
    - split; [done|]. split; [done|]. split; [done|]. split.
      { eexists. simpl. rewrite lookup_insert_eq. split; [reflexivity|]. done. }
      exists pend, []. split; [done|].
      unfold set_pending, emit, set_config. simpl.
      apply Forall_forall. intros k Hk.
      rewrite Forall_forall in Hpend.
      destruct (Hpend k Hk) as [[_ ?]|Hbk]; [done|].
      apply (Hby k Hbk).
      intros x Hx. by rewrite !lookup_insert_ne. }
  pose proof (run_keeps_waiting os (name cfg) h j st' Hw Hnot)
    as (_ & Hreg & _ & (cfg' & Hc' & _ & Hst & _) & q & r & Hp & _).
  fold s in Hreg, Hc', Hp.
  split; [exact Hreg|]. split; [unfold statusOf; by rewrite Hc', <- Hst|].
  split.
  { rewrite Hp. apply elem_of_app. right. apply list_elem_of_here. }
  intros cmd a o. unfold spawnProcess. by rewrite Hreg.
Qed.

Lemma X6_witness :
  let st' := handleExit x_exits_beside_y 1 (Some 1) None in
  pending st' = [TimeoutTimer 0; RestartTimer 1] /\
  spawnProcess false_and_servers (step false_and_servers st') "x" "true" []
    SpawnOptions.defaults
  = inl "Process 'x' is already running".
Proof.
  split; [reflexivity|].
  assert (Hcfg : configs x_exits_beside_y !! 1%nat
                 = Some {| name := "x"; command := "false"; args := [];
                           options := {| SpawnOptions.timeout := 0;
                                         SpawnOptions.retries := 2;
                                         SpawnOptions.restartDelay := 5000 |};
                           restartCount := 0; maxRestarts := 2;
                           restartDelay := 5000;
                           status := starting; exitCode := None;
                           exitSignal := None;
                           process := {| pid := 1; killed := false;
                                         hasExited := false; received := [] |};
                           timeoutHandle := false |}) by reflexivity.
  destruct (X6_name_taken_until_restart_fires false_and_servers x_exits_beside_y
              1%nat _ 1 None Hcfg) with (j := 1%nat) as (_ & _ & _ & H).
  - reflexivity.
  - intros m Hm.
    change (processes x_exits_beside_y)
      with (<["x":=1%nat]> (<["y":=0%nat]> (∅ : gmap string nat))) in Hm.
    destruct (decide (m = "x")) as [->|Hne]; [done|].
    rewrite lookup_insert_ne in Hm by done.
    destruct (decide (m = "y")) as [->|Hne'].
    + rewrite lookup_insert_eq in Hm. discriminate Hm.
    + rewrite lookup_insert_ne in Hm by done. discriminate Hm.
  - vm_compute. lia.
  - lia.
  - simpl. lia.
  - reflexivity.
  - constructor; [|constructor]. right. right. split; [simpl; lia|].
    intros cfg' Hc'. simpl in Hc'. vm_compute in Hc'. injection Hc' as <-.
    discriminate.
  - intros i Hi. replace i with 0%nat by lia. discriminate.
  - apply H.
Defined.

(** X7. A process that is ended by a signal has exit code [null], which
    counts as a failure: when [killProcess(name, 'SIGTERM')] ends a
    registered server that still has restart budget, and the supervisor is
    not shutting down, the server is spawned again under the same name. *)
Theorem X7_killed_process_with_budget_is_respawned :
  forall (os : string -> Program) (st : t) (h : nat) (cfg : processConfig),
    pending st = [] ->
    processes st !! name cfg = Some h ->
    configs st !! h = Some cfg ->
    (h < spawned st)%nat ->
    os (command cfg) = Daemon false ->
    killed (process cfg) = false ->
    hasExited (process cfg) = false ->
    received (process cfg) = [] ->
    timeoutHandle cfg = false ->
    restartCount cfg < maxRestarts cfg ->
    isShuttingDown st = false ->
    let st' := run os 3 (snd (killProcess os st (name cfg) SIGTERM)) in
    exitedOf st' h = true /\
    signalsOf st' h = [SIGTERM] /\
    processes st' !! name cfg = Some (spawned st) /\
    spawned st' = S (spawned st) /\
    exitedOf st' (spawned st) = false /\
    signalsOf st' (spawned st) = [].
Proof.
  intros os st h cfg Hp Hn Hc Hlt Hos Hk He Hrec Hth Hbudget Hsd st'.
  assert (Hne : h <> spawned st) by lia.
  destruct st as [procs sd cfgs sp pend ev].
  destruct cfg as [nm cmd ar op rc mr rd stt ec es [pd kl he rcv] th].
  simpl in *. subst pend sd kl he rcv th.
  evar (target : t).
  assert (Hfin : st' = target).
  { subst st' target.
    unfold killProcess. simpl. rewrite Hn, Hc. simpl.
    unfold kill. simpl. rewrite lookup_insert_eq. simpl. rewrite Hos. simpl.
    unfold step at 3. simpl. unfold handleExit. simpl.
    rewrite lookup_insert_eq. simpl.
    rewrite (bool_decide_eq_true_2 _ Hbudget). simpl.
    unfold step at 2. simpl. rewrite lookup_insert_eq. simpl.
    unfold step. simpl. unfold restart. simpl. rewrite lookup_insert_eq. simpl.
    unfold spawnProcess. simpl. rewrite lookup_delete_eq. simpl. rewrite Hos.
    reflexivity. }
  rewrite Hfin. subst target. unfold exitedOf, signalsOf. simpl.
  repeat (rewrite lookup_insert_eq || rewrite lookup_insert_ne by done). simpl.
  repeat split.
Qed.

Lemma X7_witness :
  let st' := run cooperative 3
               (snd (killProcess cooperative supervised_server "x" SIGTERM)) in
  processes st' !! "x" = Some 1%nat /\ spawned st' = 2%nat.
Proof.
  destruct (X7_killed_process_with_budget_is_respawned cooperative
              supervised_server 0%nat
              {| name := "x"; command := "server"; args := [];
                 options := {| SpawnOptions.timeout := 0;
                               SpawnOptions.retries := 1;
                               SpawnOptions.restartDelay := 5000 |};
                 restartCount := 0; maxRestarts := 1; restartDelay := 5000;
                 status := running; exitCode := None; exitSignal := None;
                 process := {| pid := 0; killed := false; hasExited := false;
                               received := [] |};
                 timeoutHandle := false |}
              eq_refl eq_refl eq_refl) as (_ & _ & Hreg & Hsp & _).
  - vm_compute; lia.
  - reflexivity.
  - reflexivity.
  - reflexivity.
  - reflexivity.
  - reflexivity.
  - reflexivity.
  - reflexivity.
  - split; [exact Hreg | exact Hsp].
Defined.

(** X8. While the supervisor is shutting down, no exit leads to a restart:
    whatever the exit code and the remaining budget, the ['exit'] listener
    removes the name from the registry, adds no callback to the event loop
    and spawns nothing. *)
Theorem X8_no_restart_during_shutdown :
  forall (os : string -> Program) (st : t) (h : nat) (cfg : processConfig)
         (code : option Z) (signal : option Signal) (rest : list Task),
    isShuttingDown st = true ->
    pending st = ChildExit h code signal :: rest ->
    configs st !! h = Some cfg ->
    let st' := step os st in
    processes st' !! name cfg = None /\
    (forall k, k ∈ pending st' -> k ∈ rest) /\
    spawned st' = spawned st /\
    (restartCount <$> configs st' !! h) = Some (restartCount cfg).
Proof.
  intros os st h cfg code signal rest Hsd Hp Hc st'. subst st'.
  unfold step. rewrite Hp. unfold handleExit. simpl. rewrite Hc.
  assert (Hsub : forall k : Task,
            k ∈ filter (fun k => k ≠ TimeoutTimer h) rest -> k ∈ rest).
  { intros k Hk. by apply list_elem_of_filter in Hk as [_ Hk]. }
  destruct (timeoutHandle cfg); simpl; rewrite Hsd, andb_false_r; simpl;
    (split; [apply lookup_delete_eq|]);
    (split; [auto|]); (split; [reflexivity|]);
    by rewrite lookup_insert_eq.
Qed.

Lemma X8_witness :
  let st := beginShutdown failing_x in
  processes (step always_fails st) !! "x" = None /\
  spawned (step always_fails st) = 1%nat.
Proof.
  destruct (X8_no_restart_during_shutdown always_fails (beginShutdown failing_x)
              0%nat
              {| name := "x"; command := "false"; args := [];
                 options := {| SpawnOptions.timeout := 0;
                               SpawnOptions.retries := 2;
                               SpawnOptions.restartDelay := 0 |};
                 restartCount := 0; maxRestarts := 2; restartDelay := 0;
                 status := starting; exitCode := None; exitSignal := None;
                 process := {| pid := 0; killed := false; hasExited := false;
                               received := [] |};
                 timeoutHandle := false |}
              (Some 1) None [] eq_refl eq_refl eq_refl) as (Hgone & _ & Hsp & _).
  split; [exact Hgone | exact Hsp].
Defined.



(** X10. A child that exits before its start timeout disarms the timer:
    the timer is waiting after the spawn and is gone once the ['exit'] has
    been handled; the child was sent no signal and no [processTimeout] is
    emitted. *)
Theorem X10_exit_disarms_timeout :
  forall (os : string -> Program) (st : t) (n cmd : string) (a : list string)
         (o : SpawnOptions.t) (c : Z),
    pending st = [] ->
    processes st !! n = None ->
    0 < SpawnOptions.timeout o ->
    os cmd = ExitsAtOnce c ->
    exists st1,
      spawnProcess os st n cmd a o = inr st1 /\
      let h := spawned st in
      let st2 := step os st1 in
      TimeoutTimer h ∈ pending st1 /\
      (forall h', TimeoutTimer h' ∉ pending st2) /\
      signalsOf st2 h = [] /\
      (forall e, e ∈ emitted st2 -> e ∈ emitted st \/
                                    exists m, e = processExit n (Some c) None \/
                                              e = processRestart n m).
Proof.
  intros os st n cmd a o c Hp Hn Hto Hos.
  destruct st as [procs sd cfgs sp pend ev]. simpl in *. subst pend.
  eexists. split.
  { unfold spawnProcess. simpl. rewrite Hn, Hos.
    rewrite (bool_decide_eq_true_2 _ Hto). simpl. reflexivity. }
  cbv zeta. split; [simpl; apply list_elem_of_further, list_elem_of_here|].
  unfold step. simpl. unfold handleExit. simpl. rewrite lookup_insert_eq. simpl.
  unfold set_pending, set_config, emit, set_processes. simpl.
  rewrite filter_cons_False by (intros Hx; by apply Hx). rewrite filter_nil.
  destruct (_ && _); simpl; unfold signalsOf; simpl; rewrite ?lookup_insert_eq; simpl.
  - split; [|split; [reflexivity|]].
    + intros h' Hin. apply list_elem_of_singleton in Hin. discriminate.
    + intros e He. rewrite !elem_of_app, !list_elem_of_singleton in He.
      destruct He as [[He|He]|He]; [by left | right; exists 0; by left |].
      right. exists (0 + 1). by right.
  - split; [|split; [reflexivity|]].
    + intros h'. apply not_elem_of_nil.
    + intros e He. rewrite elem_of_app, list_elem_of_singleton in He.
      destruct He as [He|He]; [by left | right; exists 0; by left].
Qed.

Lemma X10_witness :
  let o := {| SpawnOptions.timeout := 1000; SpawnOptions.retries := 0;
              SpawnOptions.restartDelay := 5000 |} in
  pending (step always_succeeds (spawned_alone always_succeeds "x" "true" o)) = [].
Proof.
  destruct (X10_exit_disarms_timeout always_succeeds create "x" "true" []
              {| SpawnOptions.timeout := 1000; SpawnOptions.retries := 0;
                 SpawnOptions.restartDelay := 5000 |} 0
              eq_refl eq_refl eq_refl eq_refl) as (st1 & Hsp & _ & Hno & _).
  injection Hsp as <-. reflexivity.
Defined.

(** The shutdown flag is written only by [shutdown()]: no other operation
    of the supervisor changes it. *)
Lemma spawnProcess_flag (os : string -> Program) (st st' : t) (n cmd : string)
    (a : list string) (o : SpawnOptions.t) :
  spawnProcess os st n cmd a o = inr st' -> isShuttingDown st' = isShuttingDown st.
Proof.
  unfold spawnProcess. destruct (processes st !! n); [discriminate|].
  by intros [= <-].
Qed.

Lemma handleExit_flag (st : t) (h : nat) (code : option Z) (signal : option Signal) :
  isShuttingDown (handleExit st h code signal) = isShuttingDown st.
Proof.
  unfold handleExit. destruct (configs st !! h); [|done].
  destruct (timeoutHandle p); simpl; destruct (_ && _); reflexivity.
Qed.

Lemma kill_flag (os : string -> Program) (st : t) (h : nat) (s : Signal) :
  isShuttingDown (snd (kill os st h s)) = isShuttingDown st.
Proof.
  unfold kill. destruct (configs st !! h); [|done].
  destruct (hasExited _); [done|]. destruct (osAlive _ _); reflexivity.
Qed.

Lemma killProcess_flag (os : string -> Program) (st : t) (n : string) (s : Signal) :
  isShuttingDown (snd (killProcess os st n s)) = isShuttingDown st.
Proof.
  unfold killProcess. destruct (processes st !! n); [|done].
  destruct (configs st !! n0); [|done].
  destruct (negb _); [|done]. simpl.
  destruct (decide (s <> SIGKILL)); simpl; by rewrite kill_flag.
Qed.

Lemma step_flag (os : string -> Program) (st : t) :
  isShuttingDown (step os st) = isShuttingDown st.
Proof.
  unfold step. destruct (pending st) as [|k rest]; [done|].
  destruct k as [h code signal|h|h|h]; simpl.
  - by rewrite handleExit_flag.
  - unfold restart. simpl. destruct (configs st !! h); [|done]. simpl.
    destruct (spawnProcess os _ _ _ _ _) as [e|st'] eqn:E; [done|].
    by rewrite (spawnProcess_flag _ _ _ _ _ _ _ E).
  - destruct (configs st !! h); [|done].
    destruct (negb _); [|done]. by rewrite kill_flag.
  - destruct (configs st !! h); [|done]. simpl. by rewrite killProcess_flag.
Qed.

Lemma run_flag (os : string -> Program) (n : nat) :
  forall st, isShuttingDown (run os n st) = isShuttingDown st.
Proof.
  induction n as [|n IH]; intros st; simpl; [done|]. by rewrite IH, step_flag.
Qed.

Lemma terminateAll_flag (os : string -> Program) (l : list (string * nat)) :
  forall st, isShuttingDown (terminateAll os l st) = isShuttingDown st.
Proof.
  unfold terminateAll. induction l as [|x l IH]; intros st; simpl; [done|].
  rewrite IH. apply killProcess_flag.
Qed.

Lemma forceStragglers_flag (os : string -> Program) (l : list (string * nat))
    (st1 st2 : t) :
  isShuttingDown (forceStragglers os l st1 st2) = isShuttingDown st2.
Proof.
  unfold forceStragglers. generalize st2 at 2 3 as acc.
  induction l as [|x l IH]; intros acc; simpl; [done|].
  rewrite IH. destruct (waitResolved st1 st2 x.2); [done|].
  apply killProcess_flag.
Qed.

Lemma shutdown_flag (os : string -> Program) (window : nat) (st : t) :
  isShuttingDown (shutdown os window st) = true.
Proof.
  unfold shutdown. destruct (isShuttingDown st) eqn:E; [done|]. simpl.
  by rewrite forceStragglers_flag, run_flag, terminateAll_flag.
Qed.

(** X11. [shutdown()] works once. It sets the shutdown flag and nothing
    ever clears it, so every later [shutdown()] returns at its first line: a
    process spawned after the first shutdown stays registered and is not
    stopped by the next one. *)
Theorem X11_shutdown_works_once :
  forall (os : string -> Program) (window : nat) (st : t),
    let st1 := shutdown os window st in
    isShuttingDown st1 = true /\
    (forall w, shutdown os w st1 = st1) /\
    forall n cmd a o st2,
      spawnProcess os st1 n cmd a o = inr st2 ->
      processes st2 !! n = Some (spawned st1) /\
      forall w, shutdown os w st2 = st2.
Proof.
  intros os window st st1. subst st1.
  pose proof (shutdown_flag os window st) as Hflag.
  split; [exact Hflag|]. split.
  - intros w. unfold shutdown at 1. by rewrite Hflag.
  - intros n cmd a o st2 Hsp.
    pose proof (spawnProcess_flag _ _ _ _ _ _ _ Hsp) as Hflag2.
    rewrite Hflag in Hflag2. split.
    + revert Hsp. unfold spawnProcess.
      destruct (processes _ !! n); [discriminate|].
      intros [= <-]. simpl. apply lookup_insert_eq.
    + intros w. unfold shutdown. by rewrite Hflag2.
Qed.

Lemma X11_witness :
  let st1 := shutdown cooperative 2 supervised_server in
  let st2 := spawned_alone_after st1 in
  processes st2 !! "y" = Some (spawned st1) /\ shutdown cooperative 5 st2 = st2.
Proof.
  destruct (X11_shutdown_works_once cooperative 2 supervised_server) as (_ & _ & H).
  destruct (H "y" "server" [] SpawnOptions.defaults
              (spawned_alone_after (shutdown cooperative 2 supervised_server))
              eq_refl) as [Hreg Hno].
  split; [exact Hreg | apply Hno].
Defined.
End ProcessManagerProps.

(* ===================================================================== *)
(** * Properties of the health checker                                    *)
(* ===================================================================== *)

Module HealthCheckerProps.
Import HealthChecker.

Lemma errorEntry_inj (e : Env) (p q : Probe) :
  errorEntry e p = errorEntry e q -> p = q.
Proof.
  unfold errorEntry. destruct p, q; simpl; intros H;
    first [reflexivity | discriminate H].
Qed.

(** With every probe failing, each finished probe appends its own entry
    and no warning. *)
Lemma complete_all_failed (e : Env) (l : list Probe) :
  (forall p, exists m, http e p = Failed m) ->
  forall d,
    errors (foldl (fun d p => complete p (http e p) d) d l)
    = errors d ++ (errorEntry e <$> l) /\
    warnings (foldl (fun d p => complete p (http e p) d) d l) = warnings d.
Proof.
  intros Hdown. induction l as [|p l IH]; intros d; simpl.
  - by rewrite app_nil_r.
  - destruct (IH (complete p (http e p) d)) as [He Hw]. rewrite He, Hw.
    destruct (Hdown p) as [m Hm]. unfold errorEntry, messageOf.
    rewrite Hm. simpl. by rewrite <- app_assoc.
Qed.

Lemma aggregate_cases (d : healthData) :
  (aggregate d = unhealthy <-> errors d <> []) /\
  (aggregate d = degraded <-> errors d = [] /\ warnings d <> []) /\
  (aggregate d = healthy <-> errors d = [] /\ warnings d = []).
Proof.
  unfold aggregate.
  destruct (errors d) as [|x xs], (warnings d) as [|w ws]; simpl;
    repeat split; intros; try done; try tauto; try (by intuition discriminate).
Qed.

Lemma generateHealthReport_status (e : Env) (d0 : healthData) :
  performanceError e = None ->
  status (snd (generateHealthReport e d0))
  = aggregate (snd (generateHealthReport e d0)).
Proof.
  intros Hp. unfold generateHealthReport. rewrite Hp. reflexivity.
Qed.

(** C6 as worded does not hold: with every probe down a fresh checker
    records five errors, not four. *)
Lemma C6_counterexample : ~ four_errors_at network_down.
Proof. intros [_ H]. vm_compute in H. discriminate H. Qed.

(** C6, as the code has it. When every probe of the health checker fails,
    the report of a fresh checker has status [unhealthy] and its errors
    list holds five distinct entries, one per probe: OpenAI, the two
    RapidAPI endpoints (Instagram Scraper and TikTok API), Apify and
    AirTable. In every generated report the status is [unhealthy] exactly
    when the errors list is non-empty, [degraded] exactly when there are
    warnings but no errors, and [healthy] exactly when there are
    neither. *)
Theorem C6_five_errors_when_all_probes_fail :
  (forall e : Env,
     (forall p, exists m, http e p = Failed m) ->
     Permutation (completion e) all_probes ->
     performanceError e = None ->
     let d := snd (generateHealthReport e create) in
     status d = unhealthy /\
     length (errors d) = 5%nat /\
     NoDup (errors d) /\
     forall p, (label p +:+ ": " +:+ messageOf e p) ∈ errors d) /\
  (forall (e : Env) (d0 : healthData),
     performanceError e = None ->
     let d := snd (generateHealthReport e d0) in
     (status d = unhealthy <-> errors d <> []) /\
     (status d = degraded <-> errors d = [] /\ warnings d <> []) /\
     (status d = healthy <-> errors d = [] /\ warnings d = [])).
Proof.
  split.
  - intros e Hdown Hperm Hperf d.
    assert (Herr : errors d = errorEntry e <$> completion e).
    { subst d. unfold generateHealthReport. rewrite Hperf. simpl.
      by destruct (complete_all_failed e (completion e) Hdown create) as [-> _]. }
    assert (Hlen : length (errors d) = 5%nat).
    { rewrite Herr, length_fmap. by rewrite (Permutation_length Hperm). }
    split.
    { subst d. rewrite generateHealthReport_status by done.
      apply aggregate_cases. intros Hnil. rewrite Hnil in Hlen. discriminate. }
    split; [exact Hlen|]. split.
    + rewrite Herr. apply NoDup_fmap_2_strong.
      * intros p q _ _. apply errorEntry_inj.
      * rewrite Hperm. unfold all_probes.
        apply (bool_decide_unpack _). vm_compute. reflexivity.
    + intros p. rewrite Herr. apply list_elem_of_fmap. exists p.
      split; [reflexivity|]. rewrite Hperm. unfold all_probes.
      destruct p; apply (bool_decide_unpack _); vm_compute; reflexivity.
  - intros e d0 Hperf d. subst d.
    rewrite generateHealthReport_status by done. apply aggregate_cases.
Qed.

Lemma C6_witness :
  (let d := snd (generateHealthReport network_down create) in
   status d = unhealthy /\ length (errors d) = 5%nat) /\
  status (snd (generateHealthReport memory_pressure create)) = degraded.
Proof.
  destruct C6_five_errors_when_all_probes_fail as [Hdown Hagg].
  split.
  - destruct (Hdown network_down) as (Hs & Hl & _).
    + intros p. exists "Network Error". reflexivity.
    + reflexivity.
    + reflexivity.
    + split; [exact Hs | exact Hl].
  - destruct (Hagg memory_pressure create eq_refl) as (_ & Hdeg & _).
    apply Hdeg. split; [reflexivity | discriminate].
Defined.

(** C10. [run()] resolves with [success: true] exactly when no exception
    reached its [catch] block and the aggregated status is not
    [unhealthy]; a [degraded] report is therefore a success. Run as a
    script, the checker exits with code 0 for [healthy] and [degraded]
    and with code 1 for [unhealthy] or an internal failure, and with no
    other code. *)
Theorem C10_degraded_counts_as_success :
  forall (e : Env) (d0 : healthData),
    let threw d := fst (generateHealthReport e d) <> None \/ saveError e <> None in
    let d := snd (generateHealthReport e d0) in
    let d1 := snd (generateHealthReport e create) in
    (success (fst (run e d0)) = true <-> ~ threw d0 /\ status d <> unhealthy) /\
    (~ threw d0 -> status d = degraded -> success (fst (run e d0)) = true) /\
    (main e = 0 <-> ~ threw create /\ (status d1 = healthy \/ status d1 = degraded)) /\
    (main e = 1 <-> threw create \/ status d1 = unhealthy) /\
    (main e = 0 \/ main e = 1).
Proof.
  intros e d0 threw d d1. subst threw d d1.
  assert (Hrun : forall d0,
            success (fst (run e d0)) = true <->
            ~ (fst (generateHealthReport e d0) <> None \/ saveError e <> None) /\
            status (snd (generateHealthReport e d0)) <> unhealthy).
  { intros d. unfold run.
    destruct (generateHealthReport e d) as [[err|] d'] eqn:Hg; simpl.
    - split; [discriminate|]. intros [Hno _]. exfalso. apply Hno. by left.
    - destruct (saveError e) as [err|]; simpl.
      + split; [discriminate|]. intros [Hno _]. exfalso. apply Hno. by right.
      + rewrite bool_decide_eq_true. split; [|tauto].
        intros Hs. split; [|done]. intros [H|H]; by apply H. }
  split; [apply Hrun|]. split.
  { intros Hno Hdeg. apply Hrun. split; [done|]. rewrite Hdeg. discriminate. }
  assert (H0 : main e = 0 <-> success (fst (run e create)) = true).
  { unfold main. destruct (success (fst (run e create))); split; done. }
  assert (H1 : main e = 1 <-> success (fst (run e create)) = false).
  { unfold main. destruct (success (fst (run e create))); split; done. }
  split; [|split].
  - rewrite H0, Hrun.
    destruct (status (snd (generateHealthReport e create)));
      split; intros [Hno Hs]; (split; [done|]); try tauto; try discriminate.
    destruct Hs; discriminate.
  - rewrite H1. rewrite <- not_true_iff_false, Hrun.
    destruct (status (snd (generateHealthReport e create))) eqn:Hst.
    + split; [|intros [Ht|Hd]; [tauto | discriminate]].
      intros Hn. left.
      destruct (fst (generateHealthReport e create)) as [x|];
        [left; discriminate|].
      destruct (saveError e) as [y|]; [right; discriminate|].
      exfalso. apply Hn. split; [|discriminate]. intros [H|H]; by apply H.
    + split; [|intros [Ht|Hd]; [tauto | discriminate]].
      intros Hn. left.
      destruct (fst (generateHealthReport e create)) as [x|];
        [left; discriminate|].
      destruct (saveError e) as [y|]; [right; discriminate|].
      exfalso. apply Hn. split; [|discriminate]. intros [H|H]; by apply H.
    + split; [by right | tauto].
  - unfold main. destruct (success (fst (run e create))); [by left | by right].
Qed.

Lemma C10_witness :
  success (fst (run memory_pressure create)) = true /\
  main memory_pressure = 0 /\
  main network_down = 1.
Proof.
  split; [|split].
  - destruct (C10_degraded_counts_as_success memory_pressure create)
      as (_ & Hdeg & _).
    apply Hdeg; [|reflexivity].
    intros [H|H]; apply H; reflexivity.
  - destruct (C10_degraded_counts_as_success memory_pressure create)
      as (_ & _ & H0 & _).
    apply H0. split; [|right; reflexivity].
    intros [H|H]; apply H; reflexivity.
  - destruct (C10_degraded_counts_as_success network_down create)
      as (_ & _ & _ & H1 & _).
    apply H1. right. reflexivity.
Defined.

(** ** A reused checker, the healthy verdict, and report files *)

Lemma complete_split (e : Env) (l : list Probe) :
  forall d,
    errors (foldl (fun d p => complete p (http e p) d) d l)
    = errors d ++ (l ≫= errorsOf e) /\
    warnings (foldl (fun d p => complete p (http e p) d) d l)
    = warnings d ++ (l ≫= warningsOf e).
Proof.
  induction l as [|p l IH]; intros d; simpl.
  - by rewrite !app_nil_r.
  - destruct (IH (complete p (http e p) d)) as [He Hw]. rewrite He, Hw.
    unfold errorsOf, warningsOf, complete.
    destruct (http e p) as [g|m]; simpl; rewrite <- ?app_assoc, ?app_nil_r; done.
Qed.

(** X12. A checker object never forgets: each [generateHealthReport()]
    only appends to [errors]. A checker that has recorded an error
    therefore reports [unhealthy] in every later report, and one that has
    recorded a warning is never [healthy] again, even when all probes
    answer. (The dashboard keeps one checker for all its health
    requests.) *)
Theorem X12_unhealthy_is_sticky :
  forall (e : Env) (d : healthData),
    let d' := snd (generateHealthReport e d) in
    (exists more, errors d' = errors d ++ more) /\
    (performanceError e = None ->
     (errors d <> [] -> status d' = unhealthy) /\
     (warnings d <> [] -> status d' <> healthy)).
Proof.
  intros e d d'. subst d'.
  destruct (complete_split e (completion e) d) as [He Hw].
  unfold generateHealthReport.
  destruct (performanceError e) as [err|] eqn:Hp; simpl.
  - split; [eauto | discriminate].
  - split; [eauto|]. intros _. unfold aggregate. simpl. rewrite He, Hw. split.
    + intros Hne. destruct (errors d); [done|]. reflexivity.
    + intros Hne. destruct (warnings d); [done|]. simpl.
      destruct (bool_decide _); discriminate.
Qed.

Lemma X12_witness :
  status (snd (generateHealthReport memory_pressure
                 (snd (generateHealthReport network_down create)))) = unhealthy.
Proof.
  destruct (X12_unhealthy_is_sticky memory_pressure
              (snd (generateHealthReport network_down create))) as [_ H].
  destruct (H eq_refl) as [Hsticky _]. apply Hsticky. discriminate.
Defined.

Lemma bind_nil {A B} (f : A -> list B) (l : list A) :
  l ≫= f = [] <-> forall x, x ∈ l -> f x = [].
Proof.
  induction l as [|a l IH]; simpl.
  - split; [|done]. intros _ x Hx. by apply elem_of_nil in Hx.
  - split.
    + intros H. apply app_eq_nil in H as [Ha Hl]. intros x Hx.
      apply elem_of_cons in Hx as [->|Hx]; [done|]. by apply IH.
    + intros H. rewrite (H a (list_elem_of_here _ _)). simpl.
      apply IH. intros x Hx. apply H. by apply list_elem_of_further.
Qed.

(** X13. When is a fresh checker's report [healthy]? Exactly when every
    probe answers, the OpenAI answer lists a GPT-4 model, the heap is at
    most 512 MB and the disk, if its usage could be read, is at most 80 %
    full. *)
Theorem X13_healthy_verdict :
  forall e : Env,
    Permutation (completion e) all_probes ->
    performanceError e = None ->
    (status (snd (generateHealthReport e create)) = healthy <->
     (forall p, exists g, http e p = Answered g) /\
     http e OpenAI = Answered true /\
     heapUsedMB e <= 512 /\
     (forall d, diskUsedPercentage e = Some d -> d <= 80)).
Proof.
  intros e Hperm Hperf.
  assert (Hall : forall p, p ∈ completion e).
  { intros p. rewrite Hperm. destruct p; apply (bool_decide_unpack _);
      vm_compute; reflexivity. }
  destruct (complete_split e (completion e) create) as [He Hw].
  rewrite generateHealthReport_status by done.
  destruct (aggregate_cases (snd (generateHealthReport e create)))
    as (_ & _ & ->).
  unfold generateHealthReport. rewrite Hperf. simpl. rewrite He, Hw. simpl.
  rewrite bind_nil. unfold performanceWarnings. split.
  - intros [Herr Hwarn]. apply app_eq_nil in Hwarn as [Hprobe Hperfw].
    apply app_eq_nil in Hperfw as [Hheap Hdisk].
    rewrite bind_nil in Hprobe.
    assert (Hans : forall p, exists g, http e p = Answered g).
    { intros p. specialize (Herr p (Hall p)). unfold errorsOf in Herr.
      destruct (http e p); [eauto | discriminate]. }
    split; [exact Hans|]. split; [|split].
    + specialize (Hprobe OpenAI (Hall OpenAI)). unfold warningsOf in Hprobe.
      destruct (Hans OpenAI) as [g Hg]. rewrite Hg in Hprobe. rewrite Hg.
      simpl in Hprobe. destruct g; [done | discriminate].
    + destruct (bool_decide (512 < heapUsedMB e)) eqn:E; [discriminate|].
      apply bool_decide_eq_false in E. lia.
    + intros d Hd. rewrite Hd in Hdisk.
      destruct (bool_decide (80 < d)) eqn:E; [discriminate|].
      apply bool_decide_eq_false in E. lia.
  - intros (Hans & Hgpt & Hheap & Hdisk). split.
    + intros p _. unfold errorsOf. by destruct (Hans p) as [g ->].
    + apply app_nil. split; [|apply app_nil; split].
      * apply bind_nil. intros p _. unfold warningsOf.
        destruct (decide (p = OpenAI)) as [->|Hne].
        -- by rewrite Hgpt.
        -- by destruct (Hans p) as [g ->].
      * rewrite bool_decide_eq_false_2; [done | lia].
      * destruct (diskUsedPercentage e) as [d|]; [|done].
        rewrite bool_decide_eq_false_2; [done|]. specialize (Hdisk d eq_refl). lia.
Qed.

Lemma X13_witness :
  status (snd (generateHealthReport
                 {| http := fun _ => Answered true; completion := all_probes;
                    heapUsedMB := 512; diskUsedPercentage := Some 80;
                    performanceError := None; saveError := None |} create))
  = healthy.
Proof.
  apply (X13_healthy_verdict
           {| http := fun _ => Answered true; completion := all_probes;
              heapUsedMB := 512; diskUsedPercentage := Some 80;
              performanceError := None; saveError := None |});
    [reflexivity | reflexivity |].
  split; [intros p; eauto|]. split; [reflexivity|]. split; [simpl; lia|].
  simpl. intros d [= <-]. lia.
Defined.

(** *** The order on file names *)

Lemma ascii_compare_refl (a : Ascii.ascii) : Ascii.compare a a = Eq.
Proof. unfold Ascii.compare. apply N.compare_refl. Qed.

Lemma ascii_compare_lt_trans (a b c : Ascii.ascii) :
  Ascii.compare a b = Lt -> Ascii.compare b c = Lt -> Ascii.compare a c = Lt.
Proof.
  unfold Ascii.compare. rewrite !N.compare_lt_iff. lia.
Qed.

Lemma string_compare_lt_trans (s1 : string) :
  forall s2 s3, String.compare s1 s2 = Lt -> String.compare s2 s3 = Lt ->
                String.compare s1 s3 = Lt.
Proof.
  induction s1 as [|a s1 IH]; intros [|b s2] [|c s3]; simpl; try done.
  destruct (Ascii.compare a b) eqn:Eab; destruct (Ascii.compare b c) eqn:Ebc;
    try done.
  - apply Ascii.compare_eq_iff in Eab, Ebc. subst.
    rewrite ascii_compare_refl. apply IH.
  - apply Ascii.compare_eq_iff in Eab. subst. by rewrite Ebc.
  - apply Ascii.compare_eq_iff in Ebc. subst. by rewrite Eab.
  - by rewrite (ascii_compare_lt_trans a b c).
Qed.

Lemma string_compare_refl (s : string) : String.compare s s = Eq.
Proof. induction s as [|a s IH]; simpl; [done|]. by rewrite ascii_compare_refl. Qed.

#[local] Instance nameLe_total : Total nameLe.
Proof. intros a b. apply String.leb_total. Qed.

#[local] Instance nameLe_trans : Transitive nameLe.
Proof.
  intros a b c. unfold nameLe, String.leb.
  destruct (String.compare a b) eqn:Eab; try discriminate;
    destruct (String.compare b c) eqn:Ebc; try discriminate; intros _ _.
  - apply String.compare_eq_iff in Eab, Ebc. subst. by rewrite string_compare_refl.
  - apply String.compare_eq_iff in Eab. subst. by rewrite Ebc.
  - apply String.compare_eq_iff in Ebc. subst. by rewrite Eab.
  - by rewrite (string_compare_lt_trans a b c).
Qed.

Lemma reportName_isReport (timestamp : string) : isReport (reportName timestamp) = true.
Proof.
  unfold isReport, reportName. simpl.
  repeat (destruct (Ascii.ascii_dec _ _) as [_|Hne]; [|by destruct Hne]).
  by destruct (timestamp +:+ ".json").
Qed.

Lemma newestFirst_elem (dir : gset string) (f : string) :
  f ∈ newestFirst dir <-> f ∈ dir /\ isReport f = true.
Proof.
  unfold newestFirst.
  rewrite elem_of_reverse, merge_sort_Permutation, list_elem_of_filter,
    elem_of_elements. tauto.
Qed.

Lemma newestFirst_NoDup (dir : gset string) : NoDup (newestFirst dir).
Proof.
  unfold newestFirst. rewrite reverse_Permutation, merge_sort_Permutation.
  apply NoDup_filter, NoDup_elements.
Qed.

Lemma newestFirst_sorted (dir : gset string) :
  StronglySorted (flip nameLe) (newestFirst dir).
Proof.
  unfold newestFirst. apply Sorted_StronglySorted; [apply _|].
  apply Sorted_reverse, Sorted_merge_sort. apply _.
Qed.

(** X14. After [saveHealthReport()] at most ten report files exist. Only
    report files are deleted, never another file of the directory, and no
    file appears except the new report. The reports that stay are the
    newest by name: every deleted report sorts at or below every report
    that is kept. *)
Theorem X14_saveHealthReport_keeps_ten_newest :
  forall (timestamp : string) (dir : gset string),
    let before := {[reportName timestamp]} ∪ dir in
    let after := saveHealthReport timestamp dir in
    (length (filter (fun f => isReport f = true) (elements after)) <= 10)%nat /\
    after ⊆ before /\
    (forall f, f ∈ before -> isReport f = false -> f ∈ after) /\
    (forall kept deleted,
       kept ∈ after -> isReport kept = true ->
       deleted ∈ before -> deleted ∉ after ->
       isReport deleted = true /\ nameLe deleted kept) /\
    ((length (newestFirst before) <= 10)%nat -> after = before).
Proof.
  intros timestamp dir before after. subst after. unfold saveHealthReport.
  fold before.
  pose proof (newestFirst_NoDup before) as Hnd.
  pose proof (newestFirst_sorted before) as Hsorted.
  pose proof (newestFirst_elem before) as Helem.
  rewrite <- (take_drop 10 (newestFirst before)) in Hnd, Hsorted, Helem.
  destruct (bool_decide (10 < length (newestFirst before))%nat) eqn:Hmany.
  - apply bool_decide_eq_true in Hmany.
    assert (Hkept : forall f, f ∈ before ∖ list_to_set (drop 10 (newestFirst before)) ->
                              isReport f = true ->
                              f ∈ take 10 (newestFirst before)).
    { intros f Hf Hrep. apply elem_of_difference in Hf as [Hin Hnot].
      rewrite elem_of_list_to_set in Hnot.
      pose proof (proj2 (Helem f) (conj Hin Hrep)) as H.
      apply elem_of_app in H as [H|H]; done. }
    split; [|split; [|split; [|split]]].
    + transitivity (length (take 10 (newestFirst before))); [|rewrite length_take; lia].
      apply submseteq_length, NoDup_submseteq.
      * apply NoDup_filter, NoDup_elements.
      * intros f Hf. apply list_elem_of_filter in Hf as [Hrep Hin].
        apply elem_of_elements in Hin. by apply Hkept.
    + intros f Hf. by apply elem_of_difference in Hf as [Hin _].
    + intros f Hin Hrep. apply elem_of_difference. split; [done|].
      rewrite elem_of_list_to_set. intros Hd.
      assert (Hf : f ∈ take 10 (newestFirst before) ++ drop 10 (newestFirst before))
        by (apply elem_of_app; by right).
      apply Helem in Hf as [_ Hf]. congruence.
    + intros kept deleted Hk Hkrep Hd Hgone.
      assert (Hdel : deleted ∈ drop 10 (newestFirst before)).
      { destruct (decide (deleted ∈ drop 10 (newestFirst before))) as [|Hn]; [done|].
        exfalso. apply Hgone, elem_of_difference. split; [done|].
        by rewrite elem_of_list_to_set. }
      split.
      * assert (Hf : deleted ∈ take 10 (newestFirst before)
                               ++ drop 10 (newestFirst before))
          by (apply elem_of_app; by right).
        by apply Helem in Hf as [_ Hf].
      * apply (StronglySorted_app_1_elem_of (flip nameLe) _ _ kept deleted Hsorted);
          [by apply Hkept | done].
    + lia.
  - apply bool_decide_eq_false in Hmany.
    split; [|split; [done|]; split; [done|]; split; [done | done]].
    transitivity (length (newestFirst before)); [|lia].
    apply submseteq_length, NoDup_submseteq.
    + apply NoDup_filter, NoDup_elements.
    + intros f Hf. apply list_elem_of_filter in Hf as [Hrep Hin].
      apply elem_of_elements in Hin. apply newestFirst_elem. by split.
Qed.

Lemma X14_witness :
  "notes.txt" ∈ saveHealthReport "2024-01-02T00-00-00-000Z" crowded /\
  "health-report-2024-01-01T00-00-00-000Z.json"
    ∉ saveHealthReport "2024-01-02T00-00-00-000Z" crowded.
Proof.
  destruct (X14_saveHealthReport_keeps_ten_newest "2024-01-02T00-00-00-000Z" crowded)
    as (_ & _ & Hother & _).
  split.
  - apply Hother; [|reflexivity]. apply (bool_decide_unpack _). vm_compute. reflexivity.
  - apply (bool_decide_unpack _). vm_compute. reflexivity.
Defined.
End HealthCheckerProps.

(* ===================================================================== *)
(** * Properties of the setup validator                                   *)
(* ===================================================================== *)

Module SetupValidatorProps.
Import SetupValidator.

(** Errors are only ever appended. *)
Lemma check_keeps_errors (description : string) (o : Outcome) (v : t) (x : string) :
  x ∈ errors v -> x ∈ errors (snd (check description o v)).
Proof.
  intros Hx. unfold check.
  destruct (result o) as [err|r]; [|destruct (success r)]; simpl;
    rewrite ?elem_of_app; auto.
Qed.

Lemma check_failed (description : string) (r : CheckResult) (v : t) :
  success r = false ->
  (description +:+ ": " +:+ messageOf r)
    ∈ errors (snd (check description (returns r) v)).
Proof.
  intros Hr. unfold check, returns. simpl. rewrite Hr. simpl.
  rewrite elem_of_app. right. apply list_elem_of_here.
Qed.

(** An empty object has none of the three platform keys, so the last
    test of [validateConfigurationFiles] cannot pass. *)
Lemma empty_platforms_fail (fs : Files) :
  fs "config/platforms.json" = Some (inr (JObject [])) ->
  success (validateConfigurationFiles fs) = false /\
  exists m, message (validateConfigurationFiles fs) = Some m /\
            messageOf (validateConfigurationFiles fs) = m.
Proof.
  intros Hp. unfold validateConfigurationFiles.
  destruct (List.find _ configFiles) as [f|]; [simpl; eauto|].
  unfold parseFile. rewrite Hp.
  destruct (fs "config/airtable-schema.json") as [[e|schema]|]; simpl; eauto.
  destruct (orElse (missing schema "tables") (missing schema "base_name"))
    as [e|[|]]; simpl; eauto.
Qed.

(** C9. When [config/platforms.json] parses to the empty object, the
    configuration-files check fails and nothing is thrown:
    [runValidation] returns a report with [success: false] whose errors
    list holds the failure of that check. When the three configuration
    files exist and the AirTable schema has its two required keys, the
    failure is "Invalid platforms configuration structure". *)
Theorem C9_empty_platforms_config_is_rejected :
  forall (e : Env) (v : t),
    files e "config/platforms.json" = Some (inr (JObject [])) ->
    let r := validateConfigurationFiles (files e) in
    let report := fst (runValidation e v) in
    success r = false /\
    report_success report = false /\
    (exists m, message r = Some m /\
               ("Configuration files: " +:+ m) ∈ report_errors report) /\
    (forall schema,
       files e "config/airtable-schema.json" = Some (inr schema) ->
       existsSync (files e) ".env.example" = true ->
       missing schema "tables" = inr false ->
       missing schema "base_name" = inr false ->
       r = fail "Invalid platforms configuration structure").
Proof.
  intros e v Hp r report. subst r report.
  destruct (empty_platforms_fail (files e) Hp) as (Hfail & m & Hm & Hmsg).
  assert (Hin : ("Configuration files: " +:+ m)
                  ∈ report_errors (fst (runValidation e v))).
  { unfold runValidation. simpl.
    do 7 apply check_keeps_errors.
    rewrite <- Hmsg. exact (check_failed "Configuration files" _ _ Hfail). }
  split; [exact Hfail|]. split; [|split].
  - unfold runValidation in *. simpl in *.
    apply bool_decide_eq_false. intros Hlen.
    apply nil_length_inv in Hlen. rewrite Hlen in Hin. inversion Hin.
  - exists m. by split.
  - intros schema Hs Henv Ht Hb. unfold validateConfigurationFiles.
    unfold configFiles, existsSync in *. simpl. rewrite Hs, Hp.
    destruct (files e ".env.example"); [|discriminate]. simpl.
    unfold parseFile. rewrite Hs, Hp, Ht, Hb. reflexivity.
Qed.

Lemma C9_witness :
  report_success (fst (runValidation empty_platforms create)) = false /\
  validateConfigurationFiles (files empty_platforms)
  = fail "Invalid platforms configuration structure".
Proof.
  destruct (C9_empty_platforms_config_is_rejected empty_platforms create eq_refl)
    as (_ & Hrep & _ & Hmsg).
  split; [exact Hrep|].
  apply (Hmsg (JObject [("base_name", JString "Viral Content");
                        ("tables", JArray [JObject []])]));
    reflexivity.
Defined.

(** ** Environment variables, workflow files and the check counters *)

Lemma filter_nil_Forall {A} (P : A -> Prop) `{forall x, Decision (P x)} (l : list A) :
  filter P l = [] <-> Forall (fun x => ~ P x) l.
Proof.
  induction l as [|a l IH].
  - split; [constructor | done].
  - destruct (decide (P a)) as [Ha|Ha].
    + rewrite filter_cons_True by done. split; [discriminate|].
      intros Hall. inversion Hall; subst. done.
    + rewrite filter_cons_False by done. rewrite IH. split.
      * intros Hall. by constructor.
      * intros Hall. by inversion Hall.
Qed.

(** X15. [validateEnvironmentVariables] passes exactly when all six
    required variables are set to a non-empty value and the AirTable base
    id starts with "app", the AirTable key with "key", the OpenAI key with
    "sk-" and the Apify token with "apify_api_"; the RapidAPI key and the
    mail address have no format check. A missing variable is reported
    before any format error, and the message lists all missing variables in
    the order of the required list. *)
Theorem X15_environment_variables_verdict :
  forall env : string -> option string,
    let r := validateEnvironmentVariables env in
    let missingVars := filter (fun v => unset env v = true) requiredVars in
    (success r = true <->
     Forall (fun v => envValue env v <> "") requiredVars /\
     String.prefix "app" (envValue env "AIRTABLE_BASE_ID") = true /\
     String.prefix "key" (envValue env "AIRTABLE_API_KEY") = true /\
     String.prefix "sk-" (envValue env "OPENAI_API_KEY") = true /\
     String.prefix "apify_api_" (envValue env "APIFY_TOKEN") = true) /\
    (missingVars <> [] ->
     r = fail ("Missing environment variables: " +:+ join ", " missingVars)).
Proof.
  intros env r missingVars. subst r. unfold validateEnvironmentVariables.
  fold missingVars.
  assert (Hset : missingVars = [] <->
                 Forall (fun v => envValue env v <> "") requiredVars).
  { subst missingVars. rewrite filter_nil_Forall. apply Forall_proper; [|done].
    intros v. unfold unset. rewrite bool_decide_eq_true. tauto. }
  destruct missingVars as [|m ms] eqn:Hm.
  - simpl. split; [|done].
    destruct (String.prefix "app" _); simpl;
      [|split; [discriminate | intros (_ & ? & _); discriminate]].
    destruct (String.prefix "key" _); simpl;
      [|split; [discriminate | intros (_ & _ & ? & _); discriminate]].
    destruct (String.prefix "sk-" _); simpl;
      [|split; [discriminate | intros (_ & _ & _ & ? & _); discriminate]].
    destruct (String.prefix "apify_api_" _); simpl;
      [|split; [discriminate | intros (_ & _ & _ & _ & ?); discriminate]].
    split; [|done]. intros _. split; [by apply Hset | done].
  - simpl. split; [|done]. split; [discriminate|].
    intros (Hall & _). apply Hset in Hall. discriminate.
Qed.

Lemma X15_witness :
  success (validateEnvironmentVariables good_env) = true /\
  validateEnvironmentVariables (fun _ => None)
  = fail "Missing environment variables: AIRTABLE_BASE_ID, AIRTABLE_API_KEY, OPENAI_API_KEY, RAPIDAPI_KEY, APIFY_TOKEN, GMAIL_ADDRESS".
Proof.
  split.
  - apply (X15_environment_variables_verdict good_env).
    split; [|repeat split].
    repeat constructor; discriminate.
  - apply (X15_environment_variables_verdict (fun _ => None)). discriminate.
Defined.

Lemma well_formed_workflow_inv (fs : Files) (filePath : string) (doc : json) :
  fs filePath = Some (inr doc) ->
  well_formed_workflow fs filePath ->
  exists a c n ns,
    getProp doc "name" = inr a /\ truthy a = true /\
    getProp doc "connections" = inr c /\ truthy c = true /\
    getProp doc "nodes" = inr (Some (JArray (n :: ns))).
Proof.
  intros Hfs (d & Hd & (a & Ha & Hta) & (c & Hc & Htc) & n & ns & Hn).
  rewrite Hfs in Hd. injection Hd as <-. by exists a, c, n, ns.
Qed.

Lemma checkWorkflowFile_None (fs : Files) (filePath : string) :
  checkWorkflowFile fs filePath = None <-> well_formed_workflow fs filePath.
Proof.
  unfold checkWorkflowFile, existsSync, parseFile, missing, orElse.
  destruct (fs filePath) as [[e|doc]|] eqn:Hfs; simpl;
    [split; [discriminate | intros (d & Hd & _); congruence] | |
     split; [discriminate | intros (d & Hd & _); congruence]].
  assert (Hrefute : forall r : CheckResult,
            (forall a c n ns,
                 getProp doc "name" = inr a -> truthy a = true ->
                 getProp doc "connections" = inr c -> truthy c = true ->
                 getProp doc "nodes" = inr (Some (JArray (n :: ns))) -> False) ->
            (Some r = None <-> well_formed_workflow fs filePath)).
  { intros r Hf. split; [discriminate|]. intros Hwf.
    destruct (well_formed_workflow_inv _ _ _ Hfs Hwf)
      as (a & c & n & ns & Ha & Hta & Hc & Htc & Hn).
    destruct (Hf a c n ns); done. }
  destruct (getProp doc "name") as [e1|x1] eqn:G1; simpl.
  { apply Hrefute. intros; congruence. }
  destruct (truthy x1) eqn:T1; simpl.
  2:{ apply Hrefute. intros; congruence. }
  destruct (getProp doc "nodes") as [e2|x2] eqn:G2; simpl.
  { apply Hrefute. intros; congruence. }
  destruct (truthy x2) eqn:T2; simpl.
  2:{ apply Hrefute. intros a c n ns _ _ _ _ [= ->]. discriminate. }
  destruct (getProp doc "connections") as [e3|x3] eqn:G3; simpl.
  { apply Hrefute. intros; congruence. }
  destruct (truthy x3) eqn:T3; simpl.
  2:{ apply Hrefute. intros; congruence. }
  destruct x2 as [[| | | |[|node nodes]|]|]; simpl;
    try (apply Hrefute; intros; congruence).
  split; [|done]. intros _. exists doc. split; [done|].
  split; [by exists x1|]. split; [by exists x3|]. by exists node, nodes.
Qed.

Lemma checkWorkflowFile_Some (fs : Files) (filePath : string) (r : CheckResult) :
  checkWorkflowFile fs filePath = Some r -> success r = false.
Proof.
  unfold checkWorkflowFile, existsSync, parseFile, missing, orElse.
  destruct (fs filePath) as [[e|doc]|]; simpl; try (by intros [= <-]).
  destruct (getProp doc "name") as [e1|x1]; simpl; try (by intros [= <-]).
  destruct (truthy x1); simpl; try (by intros [= <-]).
  destruct (getProp doc "nodes") as [e2|x2]; simpl; try (by intros [= <-]).
  destruct (truthy x2); simpl; try (by intros [= <-]).
  destruct (getProp doc "connections") as [e3|x3]; simpl; try (by intros [= <-]).
  destruct (truthy x3); simpl; try (by intros [= <-]).
  destruct x2 as [[| | | |[|node nodes]|]|]; simpl; by intros [= <-].
Qed.

(** X16. [validateWorkflowFiles] passes exactly when both workflow files
    exist, parse, have a truthy [name] and truthy [connections], and hold a
    non-empty array under [nodes]; an empty array, or an object in place of
    the array, fails the check. *)
Theorem X16_workflow_files_verdict :
  forall fs : Files,
    success (validateWorkflowFiles fs) = true <->
    Forall (well_formed_workflow fs) workflowPaths.
Proof.
  intros fs. unfold validateWorkflowFiles.
  induction workflowPaths as [|f rest IH]; simpl.
  - split; [constructor | done].
  - destruct (checkWorkflowFile fs f) as [r|] eqn:E.
    + rewrite (checkWorkflowFile_Some _ _ _ E). split; [discriminate|].
      intros Hall. inversion Hall as [|? ? Hf _]; subst.
      apply checkWorkflowFile_None in Hf. congruence.
    + rewrite IH. apply checkWorkflowFile_None in E. split.
      * intros Hall. by constructor.
      * intros Hall. by inversion Hall.
Qed.

Lemma X16_witness :
  success (validateWorkflowFiles good_workflows) = true /\
  success (validateWorkflowFiles
             (fun _ => Some (inr (JObject [("name", JString "w");
                                            ("nodes", JArray []);
                                            ("connections", JObject [])]))))
  = false.
Proof.
  split.
  - apply (X16_workflow_files_verdict good_workflows).
    repeat constructor;
      (eexists; split; [reflexivity|]; split; [eexists; split; reflexivity|];
       split; [eexists; split; reflexivity|]; eexists; eexists; reflexivity).
  - apply not_true_iff_false. intros H.
    apply X16_workflow_files_verdict in H.
    inversion H as [|? ? (doc & [= <-] & _ & _ & n & ns & Hn) _]. discriminate.
Defined.

Lemma check_counts (description : string) (o : Outcome) (v : t) :
  checks (snd (check description o v)) = S (checks v) /\
  (passed (snd (check description o v))
   + length (errors (snd (check description o v))))%nat
  = S (passed v + length (errors v)).
Proof.
  unfold check. destruct (result o) as [e|r]; [|destruct (success r)]; simpl;
    rewrite ?length_app; simpl; split; lia.
Qed.

(** X17. Every check is counted once and ends either in [passed] or in
    [errors]: [runValidation] adds ten to [checks] and ten to the sum of
    [passed] and the number of errors. On a fresh validator the report
    therefore has [total = 10] and [passed + errors.length = 10], and
    [success] holds exactly when all ten checks passed. *)
Theorem X17_validation_counters :
  forall (e : Env) (v : t),
    let v' := snd (runValidation e v) in
    let report := fst (runValidation e create) in
    checks v' = (checks v + 10)%nat /\
    (passed v' + length (errors v'))%nat
    = (passed v + length (errors v) + 10)%nat /\
    report_total report = 10%nat /\
    (report_passed report + length (report_errors report))%nat = 10%nat /\
    (report_success report = true <-> report_passed report = 10%nat).
Proof.
  intros e v.
  assert (Hcount : forall v,
            checks (snd (runValidation e v)) = (checks v + 10)%nat /\
            (passed (snd (runValidation e v))
             + length (errors (snd (runValidation e v))))%nat
            = (passed v + length (errors v) + 10)%nat).
  { intros w. unfold runValidation. cbv zeta. cbn [snd].
    repeat match goal with
           | |- context [check ?d ?o ?x] =>
               is_var x;
               let H := fresh "H" in
               pose proof (check_counts d o x) as H;
               generalize dependent (snd (check d o x)); intros
           end.
    lia. }
  cbv zeta. destruct (Hcount v) as [Hc Hp]. destruct (Hcount create) as [Hc0 Hp0].
  change (checks create) with 0%nat in Hc0.
  change (passed create + length (errors create))%nat with 0%nat in Hp0.
  split; [exact Hc|]. split; [exact Hp|].
  assert (Hrep : forall w, report_total (fst (runValidation e w))
                           = checks (snd (runValidation e w)) /\
                           report_passed (fst (runValidation e w))
                           = passed (snd (runValidation e w)) /\
                           report_errors (fst (runValidation e w))
                           = errors (snd (runValidation e w)) /\
                           report_success (fst (runValidation e w))
                           = bool_decide (length (errors (snd (runValidation e w)))
                                          = 0%nat)).
  { intros w. unfold runValidation. simpl. done. }
  destruct (Hrep create) as (-> & -> & -> & ->).
  split; [exact Hc0|]. split; [exact Hp0|].
  rewrite bool_decide_eq_true. lia.
Qed.

Lemma X17_witness :
  let report := fst (runValidation empty_platforms create) in
  report_total report = 10%nat /\ report_success report = false.
Proof.
  destruct (X17_validation_counters empty_platforms create)
    as (_ & _ & Ht & _ & Hs).
  split; [exact Ht|].
  apply not_true_iff_false. intros H. apply Hs in H. vm_compute in H.
  discriminate H.
Defined.
End SetupValidatorProps.

(* ===================================================================== *)
(** * Properties of the startup sequencer                                 *)
(* ===================================================================== *)

Module ViralContentStartupProps.
Import ViralContentStartup.

(** Steps 5 and 6 turn every failure into a warning text: they resolve
    whatever the environment does. *)
Lemma validation_and_health_check_resolve (e : Env) (o : Options) :
  (exists v, validateSystemConfiguration e o = Resolved v) /\
  (exists v, runHealthCheck e o = Resolved v).
Proof.
  unfold validateSystemConfiguration, runHealthCheck. split.
  - destruct (skipValidation o); [eauto|].
    destruct (exec e _) as [out err|m c]; [|eauto].
    destruct (_ || _); eauto.
  - destruct (skipHealthCheck o); [eauto|].
    destruct (exec e _) as [out err|m c]; [|eauto].
    destruct (includes "HEALTHY" out); [eauto|].
    destruct (includes "DEGRADED" out); eauto.
Qed.

(** With [exitOnError: false] the task runner visits every task and
    never rejects. *)
Lemma listr_run_visits_all (l : list ListrTask) :
  forall st,
    (listr_run false l st).1.2 = None /\
    Forall (fun x => x.2 <> Pending) (listr_run false l st).1.1 /\
    length (listr_run false l st).1.1 = length l.
Proof.
  induction l as [|k l IH]; intros st; simpl.
  - repeat split. constructor.
  - destruct (skip k) as [why|].
    + specialize (IH st). destruct (listr_run false l st) as [[states err] st'].
      simpl in *. destruct IH as (He & Hf & Hl).
      repeat split; [done | by constructor | by rewrite Hl].
    + destruct (task k st) as [[v|m] st1];
        specialize (IH st1); destruct (listr_run false l st1) as [[states err] st'];
        simpl in *; destruct IH as (He & Hf & Hl);
        (repeat split; [done | by constructor | by rewrite Hl]).
Qed.

(** Had the list been built with the default [exitOnError: true], the
    failed requirement check would have stopped the sequence. *)
Lemma fail_fast_with_exitOnError (banner : option string) :
  let r := run_with (old_node banner) true (create defaults) in
  exitCode r = Some 1 /\ cleanedUp r = true /\
  taskStates r !! 1%nat = Some ("Install Dependencies", Pending) /\
  taskStates r !! 6%nat = Some ("Start Monitoring Dashboard", Pending).
Proof. repeat split. Qed.

(** For every environment and option set without [gui], no task is left
    unvisited, and [run()] reaches its [catch] block (cleanup, exit code 1)
    only when printing the banner throws, never because a step failed. *)
Lemma run_ignores_step_failures (e : Env) (o : Options) :
  gui o = false ->
  let r := run e (create o) in
  length (taskStates r) = 7%nat /\
  Forall (fun x => x.2 <> Pending) (taskStates r) /\
  (exitCode r = Some 1 <-> welcomeError e <> None) /\
  (cleanedUp r = true <-> welcomeError e <> None).
Proof.
  intros Hgui r. subst r. unfold run, run_with.
  change (options (create o)) with o. rewrite Hgui.
  destruct (listr_run_visits_all (tasks e o) (create o)) as (He & Hf & Hl).
  destruct (listr_run false (tasks e o) (create o)) as [[states err] st'].
  simpl in *. subst err.
  destruct (welcomeError e) as [w|]; simpl;
    (split; [exact Hl|]); (split; [exact Hf|]); split; split;
    intros H; try done; try discriminate; by destruct H.
Qed.

(** With [exitOnError: false] a task that leaves the object alone is
    recorded with its own outcome and the list goes on. *)
Lemma listr_run_records_pure (k : ListrTask) (rest : list ListrTask) (st : t) :
  (forall s, (task k s).2 = s) ->
  (listr_run false (k :: rest) st).1.1
  = (title k, recorded k st) :: (listr_run false rest st).1.1.
Proof.
  intros Hpure. unfold recorded. simpl. destruct (skip k).
  - by destruct (listr_run false rest st) as [[l err] st'].
  - specialize (Hpure st). destruct (task k st) as [[v|m] st1]; simpl in Hpure;
      subst st1; by destruct (listr_run false rest st) as [[l err] st'].
Qed.

(** Every step of [run()] is recorded with the outcome it has by itself
    on the new startup object. *)
Lemma run_records_every_step (e : Env) (o : Options) :
  (listr_run false (tasks e o) (create o)).1.1
  = (fun k => (title k, recorded k (create o))) <$> tasks e o.
Proof.
  unfold tasks. cbv zeta.
  do 6 (rewrite listr_run_records_pure by (intros; reflexivity)).
  cbn [fmap list_fmap]. do 6 f_equal.
  unfold recorded. simpl.
  by destruct (startMonitoringDashboard e (create o)) as [[v|m] s].
Qed.

(** C2, evaluated on the code. Steps 5 and 6 always resolve, as the claim
    says. But no failed step aborts the sequence: for every machine and
    every option set without [gui], each of the seven steps is carried out
    and ends in the state of its own outcome, whichever steps failed before
    it. A Node.js runtime below 16 fails step 1 and a dashboard that does
    not come up fails step 7, and in both cases the other steps are
    recorded as they end by themselves. No step failure reaches the [catch]
    block of [run()]: cleanup and [process.exit(1)] happen exactly when
    printing the welcome banner throws, with or without a failed step. *)
Theorem C2_failed_step_does_not_abort :
  forall (e : Env) (o : Options),
    gui o = false ->
    let r := run e (create o) in
    ((exists v, validateSystemConfiguration e o = Resolved v) /\
     (exists v, runHealthCheck e o = Resolved v)) /\
    taskStates r = (fun k => (title k, recorded k (create o))) <$> tasks e o /\
    Forall (fun x => x.2 <> Pending) (taskStates r) /\
    (nodeMajor e < 16 ->
     exists m, taskStates r !! 0%nat
               = Some ("System Requirements Check", Failed m)) /\
    (forall m, (startMonitoringDashboard e (create o)).1 = Rejected m ->
               taskStates r !! 6%nat
               = Some ("Start Monitoring Dashboard", Failed m)) /\
    (exitCode r = Some 1 <-> welcomeError e <> None) /\
    (cleanedUp r = true <-> welcomeError e <> None) /\
    (exitCode r = None <-> welcomeError e = None).
Proof.
  intros e o Hgui r.
  assert (Hstates : taskStates r
                    = (fun k => (title k, recorded k (create o))) <$> tasks e o).
  { subst r. unfold run, run_with. change (options (create o)) with o.
    rewrite Hgui. rewrite <- run_records_every_step.
    destruct (listr_run_visits_all (tasks e o) (create o)) as (He & _).
    destruct (listr_run false (tasks e o) (create o)) as [[states err] st'].
    simpl in *. subst err. by destruct (welcomeError e). }
  destruct (run_ignores_step_failures e o Hgui) as (_ & Hvisited & Hexit & Hclean).
  fold r in Hvisited, Hexit, Hclean.
  split; [apply validation_and_health_check_resolve|].
  split; [exact Hstates|]. split; [exact Hvisited|].
  split; [|split; [|split; [exact Hexit|split; [exact Hclean|]]]].
  - intros Hold. rewrite Hstates. unfold tasks. cbv zeta.
    cbn [fmap list_fmap lookup list_lookup]. unfold recorded. simpl.
    unfold checkSystemRequirements. rewrite bool_decide_eq_true_2 by done.
    eauto.
  - intros m Hm. rewrite Hstates. unfold tasks. cbv zeta.
    cbn [fmap list_fmap lookup list_lookup]. unfold recorded. simpl.
    by rewrite Hm.
  - subst r. unfold run, run_with. change (options (create o)) with o.
    rewrite Hgui.
    destruct (listr_run_visits_all (tasks e o) (create o)) as (He & _).
    destruct (listr_run false (tasks e o) (create o)) as [[states err] st'].
    simpl in *. subst err. destruct (welcomeError e); simpl; split; congruence.
Qed.

(** C2 at work: on a machine with Node.js 14 step 1 fails and the
    dashboard is started all the same, whether the banner can be printed or
    not; on a machine whose dashboard exits with code 1 step 7 fails after
    the six steps before it have completed. Where the banner throws, the
    run ends in cleanup and exit code 1, where it does not, the process
    stays alive. *)
Lemma C2_witness :
  (let r := run (old_node None) (create defaults) in
   taskStates r !! 0%nat
   = Some ("System Requirements Check",
           Failed "Node.js Version: Node.js v14.21.3 is too old. Requires 16.0.0 or higher.") /\
   taskStates r !! 6%nat
   = Some ("Start Monitoring Dashboard",
           Completed (Some "✅ Dashboard running on http://localhost:3000")) /\
   exitCode r = None) /\
  (let r := run (old_node no_stripColor) (create defaults) in
   taskStates r !! 0%nat
   = Some ("System Requirements Check",
           Failed "Node.js Version: Node.js v14.21.3 is too old. Requires 16.0.0 or higher.") /\
   taskStates r !! 6%nat
   = Some ("Start Monitoring Dashboard",
           Completed (Some "✅ Dashboard running on http://localhost:3000")) /\
   exitCode r = Some 1 /\ cleanedUp r = true) /\
  (let r := run (dashboard_crash None) (create defaults) in
   taskStates r !! 6%nat
   = Some ("Start Monitoring Dashboard", Failed "Dashboard exited with code 1") /\
   exitCode r = None).
Proof.
  split; [|split].
  - destruct (C2_failed_step_does_not_abort (old_node None) defaults eq_refl)
      as (_ & Hstates & _ & _ & _ & _ & _ & Hexit).
    cbv zeta in *. rewrite Hstates.
    split; [reflexivity|]. split; [reflexivity | by apply Hexit].
  - destruct (C2_failed_step_does_not_abort (old_node no_stripColor) defaults
                eq_refl) as (_ & Hstates & _ & _ & _ & Hexit & Hclean & _).
    cbv zeta in *. rewrite Hstates.
    split; [reflexivity|]. split; [reflexivity|].
    split; [by apply Hexit | by apply Hclean].
  - destruct (C2_failed_step_does_not_abort (dashboard_crash None) defaults eq_refl)
      as (_ & _ & _ & _ & Hdash & _ & _ & Hexit).
    cbv zeta in *. split; [by apply Hdash | by apply Hexit].
Defined.

(** ** What a run leaves in the port manager *)

Lemma findAvailablePort_unreserved (e : Env) (st st' : t) (q p : Z) :
  findAvailablePort e st q = (inr p, st') ->
  (p ∉ PortManager.reservedPorts (portManager st)) /\
  PortManager.reservedPorts (portManager st')
  = {[p]} ∪ PortManager.reservedPorts (portManager st).
Proof.
  unfold findAvailablePort. intros H.
  pose proof (PortManagerProps.findAvailablePort_state (listens e) (portManager st)
                q PortManager.defaults) as Hst.
  pose proof (PortManagerProps.findAvailablePort_Returned (listens e) (portManager st)
                q PortManager.defaults) as Hret.
  destruct (PortManager.findAvailablePort _ _ _ _) as [[f|m] pm]; [|discriminate].
  injection H as <- <-. simpl in Hst. subst pm.
  destruct (Hret f eq_refl) as (Hok & _).
  apply PortManagerProps.testPort_true_iff in Hok as (_ & Hr & _).
  split; [done | reflexivity].
Qed.

Lemma findAvailablePort_keeps_reserved (e : Env) (st : t) (q : Z) :
  PortManager.reservedPorts (portManager st)
  ⊆ PortManager.reservedPorts (portManager (findAvailablePort e st q).2).
Proof.
  unfold findAvailablePort.
  pose proof (PortManagerProps.findAvailablePort_state (listens e) (portManager st)
                q PortManager.defaults) as Hst.
  destruct (PortManager.findAvailablePort _ _ _ _) as [[f|m] pm];
    simpl in *; subst pm; [|done].
  intros x Hx. apply elem_of_union. by right.
Qed.

Lemma startMonitoringDashboard_portManager (e : Env) (st : t) :
  portManager (startMonitoringDashboard e st).2
  = portManager (findAvailablePort e st (port (options st))).2.
Proof.
  unfold startMonitoringDashboard.
  by destruct (findAvailablePort e st (port (options st))) as [[m|p] st1].
Qed.

(** A task that leaves the object alone does not show in the final
    object of the list. *)
Lemma listr_run_skip_pure (k : ListrTask) (rest : list ListrTask) (st : t) :
  (forall s, (task k s).2 = s) ->
  (listr_run false (k :: rest) st).2 = (listr_run false rest st).2.
Proof.
  intros Hpure. simpl. destruct (skip k).
  - by destruct (listr_run false rest st) as [[l err] st'].
  - specialize (Hpure st). destruct (task k st) as [[v|m] st1]; simpl in Hpure;
      subst st1; by destruct (listr_run false rest st) as [[l err] st'].
Qed.

(** Of the seven steps only the last one changes the startup object. *)
Lemma run_final (e : Env) (st : t) :
  gui (options st) = false ->
  exitCode (run e st) = None ->
  final (run e st) = (startMonitoringDashboard e st).2.
Proof.
  intros Hgui. unfold run, run_with. rewrite Hgui.
  pose proof (listr_run_visits_all (tasks e (options st)) st) as (He & _).
  assert (Hfin : (listr_run false (tasks e (options st)) st).2
                 = (startMonitoringDashboard e st).2).
  { unfold tasks. cbv zeta.
    do 6 (rewrite listr_run_skip_pure by (intros; reflexivity)).
    simpl. by destruct (startMonitoringDashboard e st) as [[v|m] s]. }
  destruct (listr_run false (tasks e (options st)) st) as [[states err] st'].
  simpl in *. subst err st'.
  destruct (welcomeError e); simpl; [discriminate | done].
Qed.

(** ** The dashboard port and the test switches *)

(** X18. When [startMonitoringDashboard] finds a port, that port is the
    least bindable unreserved port from [options.port] upward, it is
    reserved in the port manager and the child is registered as
    ['dashboard'] whatever the child does next; the call resolves only
    when the dashboard reports that it started. [cleanup] then signals
    the child and forgets it but keeps the reservation, so a later
    [findAvailablePort] of the same object never yields that port
    again. *)
Theorem X18_dashboard_port_stays_reserved :
  forall (e : Env) (st st1 : t) (p : Z),
    findAvailablePort e st (port (options st)) = (inr p, st1) ->
    let out := fst (startMonitoringDashboard e st) in
    let st2 := snd (startMonitoringDashboard e st) in
    (port (options st) <= p /\ listens e p = true /\
     (p ∉ PortManager.reservedPorts (portManager st)) /\
     forall q, port (options st) <= q < p ->
               listens e q = false \/ q ∈ PortManager.reservedPorts (portManager st)) /\
    PortManager.reservedPorts (portManager st2)
    = {[p]} ∪ PortManager.reservedPorts (portManager st) /\
    (exists rest, processes st2 = ("dashboard", false) :: rest /\
                  "dashboard" ∉ rest.*1) /\
    ((exists v, out = Resolved v) <-> dashboard e = Started) /\
    processes (cleanup st2) = [] /\
    "dashboard" ∈ terminated (cleanup st2) /\
    portManager (cleanup st2) = portManager st2 /\
    (forall q st', findAvailablePort e (cleanup st2) q <> (inr p, st')).
Proof.
  intros e st st1 p H out st2. subst out st2.
  unfold startMonitoringDashboard. rewrite H.
  unfold findAvailablePort in H.
  pose proof (PortManagerProps.findAvailablePort_state (listens e) (portManager st)
                (port (options st)) PortManager.defaults) as Hst.
  pose proof (PortManagerProps.findAvailablePort_Returned (listens e) (portManager st)
                (port (options st)) PortManager.defaults) as Hret.
  destruct (PortManager.findAvailablePort _ _ _ _) as [[f|m] pm]; [|discriminate].
  injection H as <- <-. simpl in Hst. subst pm.
  destruct (Hret f eq_refl) as (Hok & Hle & Hbelow).
  apply PortManagerProps.testPort_true_iff in Hok as (Hl & Hr & _).
  cbn [fst snd portManager processes terminated cleanup].
  split; [|split; [|split; [|split; [|split; [|split; [|split]]]]]].
  - repeat split; [done | done | done |].
    intros q Hq. specialize (Hbelow q Hq).
    destruct (listens e q) eqn:Hlq; [right|by left].
    destruct (decide (q ∈ PortManager.reservedPorts (portManager st)))
      as [Hin|Hout]; [done|].
    assert (PortManager.testPort (listens e)
              (PortManager.excludePorts (portManager st) PortManager.defaults) q
            = true) as Hc; [|congruence].
    apply PortManagerProps.testPort_true_iff. repeat split; [done | done |].
    simpl. apply not_elem_of_nil.
  - reflexivity.
  - eexists. split; [reflexivity|].
    intros Hin. apply list_elem_of_fmap in Hin as ([n k] & Hn & Hin).
    apply list_elem_of_filter in Hin as [Hne _]. simpl in *. by subst.
  - destruct (dashboard e) as [| |m|code|]; simpl.
    + split; [done | eauto].
    + split; [intros [? ?]; discriminate | discriminate].
    + split; [intros [? ?]; discriminate | discriminate].
    + split; [|discriminate]. destruct (decide (code ≠ 0)); intros [? ?]; discriminate.
    + split; [intros [? ?]; discriminate | discriminate].
  - reflexivity.
  - apply elem_of_app. right. simpl. apply list_elem_of_here.
  - reflexivity.
  - intros q st' Hq. unfold findAvailablePort in Hq.
    cbn [portManager cleanup] in Hq.
    pose proof (PortManagerProps.findAvailablePort_Returned (listens e)
                  (PortManager.reserve_if true (PortManager.port f) (portManager st))
                  q PortManager.defaults) as Hret'.
    destruct (PortManager.findAvailablePort _ _ _ _) as [[f'|m'] pm']; [|discriminate].
    injection Hq as Hp _.
    destruct (Hret' f' eq_refl) as (Hok' & _).
    apply PortManagerProps.testPort_true_iff in Hok' as (_ & Hr' & _).
    apply Hr'. rewrite Hp. simpl. apply elem_of_union. left.
    by apply elem_of_singleton.
Qed.

Lemma X18_witness :
  let st2 := snd (startMonitoringDashboard port_3000_taken (create defaults)) in
  PortManager.reservedPorts (portManager st2) = {[3001]} ∪ ∅ /\
  "dashboard" ∈ terminated (cleanup st2) /\
  portManager (cleanup st2) = portManager st2.
Proof.
  pose proof (X18_dashboard_port_stays_reserved port_3000_taken (create defaults)
                (snd (findAvailablePort port_3000_taken (create defaults) 3000))
                3001 eq_refl) as H.
  cbv zeta in *. tauto.
Defined.

(** The task runner only looks at what a task returns. *)
Lemma listr_run_ext (b : bool) (l1 l2 : list ListrTask) :
  Forall2 (fun k1 k2 => title k1 = title k2 /\ skip k1 = skip k2 /\
                        forall st, task k1 st = task k2 st) l1 l2 ->
  forall st, listr_run b l1 st = listr_run b l2 st.
Proof.
  induction 1 as [|k1 k2 l1 l2 (Ht & Hs & Hk) Hrest IH]; intros st; simpl; [done|].
  rewrite Ht, Hs, Hk. destruct (skip k2); [by rewrite IH|].
  destruct (task k2 st) as [[v|m] st1]; [by rewrite IH|].
  destruct b; [|by rewrite IH].
  f_equal. f_equal. f_equal.
  clear -Hrest. induction Hrest as [|a b' l l' (Ht' & _) _ IH']; simpl; [done|].
  by rewrite Ht', IH'.
Qed.

(** X19. With [skipTests] or [quick] no test command is ever executed:
    whatever [npm test], [npm run test:unit] and [npm run test:coverage]
    would do on the machine, [run()] gives the same task states, the same
    final object and the same exit behaviour. *)
Theorem X19_skipped_tests_are_not_run :
  forall (e : Env) (f : string -> Exec) (st : t),
    skipTests (options st) || quick (options st) = true ->
    (forall c, c ∉ testCommands -> f c = exec e c) ->
    run (with_exec f e) st = run e st.
Proof.
  intros e f st Hskip Hf. unfold run, run_with.
  change (launcherError (with_exec f e)) with (launcherError e).
  change (welcomeError (with_exec f e)) with (welcomeError e).
  destruct (gui (options st)); [done|].
  rewrite (listr_run_ext false (tasks (with_exec f e) (options st))
             (tasks e (options st))); [done|].
  assert (Hother : forall c, bool_decide (c ∈ testCommands) = false ->
                             f c = exec e c).
  { intros c Hc. apply Hf. by apply bool_decide_eq_false in Hc. }
  unfold tasks. cbv zeta.
  repeat (apply Forall2_cons; split; [split; [done|split; [done|intros st0] ] |]);
    [| | | | | | | constructor].
  - reflexivity.
  - unfold installDependencies. simpl.
    destruct (decide (mode (options st) = production));
      rewrite Hother by reflexivity; reflexivity.
  - unfold runTests. destruct (skipTests (options st) || quick (options st)); done.
  - unfold runCoverageReport.
    destruct (skipTests (options st) || quick (options st)); done.
  - unfold validateSystemConfiguration. simpl.
    rewrite Hother by reflexivity. reflexivity.
  - unfold runHealthCheck. simpl. rewrite Hother by reflexivity. reflexivity.
  - reflexivity.
Qed.

Lemma X19_witness :
  run broken_tests
    (create {| skipTests := false; skipValidation := false;
               skipHealthCheck := false; openBrowser := true; port := 3000;
               mode := development; gui := false; quick := true |})
  = run healthy_machine
      (create {| skipTests := false; skipValidation := false;
                 skipHealthCheck := false; openBrowser := true; port := 3000;
                 mode := development; gui := false; quick := true |}).
Proof.
  apply (X19_skipped_tests_are_not_run healthy_machine).
  - reflexivity.
  - intros c Hc. cbv beta. rewrite bool_decide_eq_false_2 by exact Hc.
    reflexivity.
Defined.
End ViralContentStartupProps.


(* ===================================================================== *)
(** * Properties of the browser automation                                *)
(* ===================================================================== *)

Module BrowserAutomationProps.
Import BrowserAutomation.

Section Desktop.
Variable open_ : nat -> string -> OpenOptions -> option string.
Variable url : string.
Variable o : Options.

Lemma after_failures_S (a : Z) (k : nat) (st : t) :
  after_failures (a + 1) k
    (set_slept (slept (count_open st) ++ [1000 * a]) (count_open st))
  = after_failures a (S k) st.
Proof.
  unfold after_failures, set_slept, count_open. simpl. f_equal.
  - lia.
  - rewrite <- app_assoc. f_equal. simpl. f_equal.
    + f_equal. lia.
    + rewrite <- fmap_S_seq, <- list_fmap_compose. apply list_fmap_ext.
      intros i x _. simpl. lia.
Qed.

(** [k] failed attempts before the last one only count calls and add
    delays. *)
Lemma openUrl_loop_failures (k : nat) :
  forall (n : nat) (a : Z) (st : t),
    a + Z.of_nat k <= retries o ->
    (forall j, (j < k)%nat ->
               open_ (opened st + j) url (openOptions o) <> None) ->
    openUrl_loop open_ (k + n) a url o st
    = openUrl_loop open_ n (a + Z.of_nat k) url o (after_failures a k st).
Proof.
  induction k as [|k IH]; intros n a st Hle Hfail.
  - simpl. rewrite Z.add_0_r. f_equal. unfold after_failures. destruct st; simpl.
    f_equal; [lia | by rewrite app_nil_r].
  - change (S k + n)%nat with (S (k + n)). cbn [openUrl_loop].
    rewrite bool_decide_eq_true_2 by lia.
    pose proof (Hfail 0%nat ltac:(lia)) as H0. rewrite Nat.add_0_r in H0.
    destruct (open_ (opened st) url (openOptions o)) as [m|]; [|done].
    rewrite bool_decide_eq_false_2 by lia.
    rewrite IH.
    + rewrite after_failures_S. f_equal. lia.
    + lia.
    + intros j Hj. simpl. rewrite <- Nat.add_succ_r. apply Hfail. lia.
Qed.

(** Whatever the desktop does, the loop tracks exactly the subprocess it
    returns and sends no [kill]. *)
Lemma openUrl_loop_tracks :
  forall (n : nat) (a : Z) (st : t),
    n = Z.to_nat (retries o - a + 1) ->
    let out := openUrl_loop open_ n a url o st in
    killed out.2 = killed st /\
    match out.1 with
    | inr (Opened u _ p) => u = url /\ openBrowsers out.2 = {[p]} ∪ openBrowsers st
    | inr NoResult => retries o < a /\ openBrowsers out.2 = openBrowsers st
    | inl e => a <= retries o /\ (exists m, e = failedToOpen o m) /\
               openBrowsers out.2 = openBrowsers st
    end.
Proof.
  induction n as [|n IH]; intros a st Hn; simpl.
  - split; [done|]. split; [lia | done].
  - destruct (bool_decide (a <= retries o)) eqn:Ha;
      [|apply bool_decide_eq_false in Ha; lia].
    apply bool_decide_eq_true in Ha.
    destruct (open_ (opened st) url (openOptions o)) as [m|]; simpl; [|done].
    destruct (bool_decide (a = retries o)) eqn:Hlast; simpl.
    + split; [done|]. split; [done|]. split; [by exists m | done].
    + apply bool_decide_eq_false in Hlast.
      specialize (IH (a + 1)
                     (set_slept (slept (count_open st) ++ [1000 * a]) (count_open st))
                     ltac:(lia)).
      cbv zeta in IH. destruct IH as [Hk IH]. split; [exact Hk|].
      destruct (openUrl_loop _ _ _ _ _ _) as [[e|[u b p|]] st']; simpl in *.
      * destruct IH as (? & ? & ?). split; [lia | done].
      * done.
      * lia.
Qed.
End Desktop.

Lemma backoff_total (k : nat) :
  foldr Z.add 0 (backoff k) = 500 * Z.of_nat k * (Z.of_nat k + 1).
Proof.
  unfold backoff. induction k as [|k IH]; [done|].
  rewrite seq_S, fmap_app, foldr_app. simpl.
  assert (Hshift : forall (l : list Z) (c : Z),
             foldr Z.add c l = c + foldr Z.add 0 l).
  { induction l as [|x l IHl]; intros c; simpl; [lia|]. rewrite IHl. lia. }
  rewrite Hshift, IH. lia.
Qed.

(** X20. [openUrl] calls [open] until it succeeds, at most [retries]
    times, and waits 1000 ms times the attempt number after each failure but
    the last. When the first [k] calls fail and the next succeeds (with
    [k < retries]) it resolves with that subprocess, which is then tracked
    in [openBrowsers], after waits of 1000, ..., 1000 k ms, in total
    500 k (k + 1) ms. When all [retries] calls fail it throws the message
    of the last failure and tracks nothing. With [retries <= 0] it resolves
    with [undefined] without calling [open] at all. *)
Theorem X20_openUrl_retries_with_backoff :
  forall (open_ : nat -> string -> OpenOptions -> option string)
         (url : string) (o : Options) (st : t),
    let out := openUrl open_ url o st in
    let failing (k : nat) :=
      forall j, (j < k)%nat -> open_ (opened st + j)%nat url (openOptions o) <> None in
    (retries o <= 0 -> out = (inr NoResult, st)) /\
    (forall k : nat,
        Z.of_nat k < retries o -> failing k ->
        open_ (opened st + k)%nat url (openOptions o) = None ->
        out.1 = inr (Opened url (default "default" (named (browser o)))
                            (opened st + k)%nat) /\
        opened out.2 = S (opened st + k)%nat /\
        slept out.2 = slept st ++ backoff k /\
        foldr Z.add 0 (backoff k) = 500 * Z.of_nat k * (Z.of_nat k + 1) /\
        openBrowsers out.2 = {[ (opened st + k)%nat ]} ∪ openBrowsers st) /\
    (0 < retries o -> failing (Z.to_nat (retries o)) ->
     exists m,
       open_ (opened st + Z.to_nat (retries o) - 1)%nat url (openOptions o) = Some m /\
       out.1 = inl (failedToOpen o m) /\
       opened out.2 = (opened st + Z.to_nat (retries o))%nat /\
       slept out.2 = slept st ++ backoff (Z.to_nat (retries o) - 1) /\
       openBrowsers out.2 = openBrowsers st).
Proof.
  intros open_ url o st out failing. subst out failing. unfold openUrl.
  assert (Hback : forall k, (fun i => 1000 * (1 + Z.of_nat i)) <$> seq 0 k
                            = backoff k).
  { intros k. unfold backoff. apply list_fmap_ext. intros i x _. lia. }
  split; [|split].
  - intros Hle. replace (Z.to_nat (retries o)) with 0%nat by lia. reflexivity.
  - intros k Hk Hfail Hok.
    replace (Z.to_nat (retries o)) with (k + S (Z.to_nat (retries o) - S k))%nat
      by lia.
    rewrite openUrl_loop_failures by (done || lia).
    cbn [openUrl_loop]. rewrite bool_decide_eq_true_2 by lia.
    change (opened (after_failures 1 k st)) with (opened st + k)%nat.
    rewrite Hok. simpl. rewrite Hback.
    split; [done|]. split; [done|]. split; [done|]. split; [|done].
    apply backoff_total.
  - intros Hpos Hfail.
    destruct (Z.to_nat (retries o)) as [|k] eqn:Hr; [lia|].
    replace (S k) with (k + 1)%nat by lia.
    rewrite openUrl_loop_failures; [|lia|intros j Hj; apply Hfail; lia].
    cbn [openUrl_loop]. rewrite bool_decide_eq_true_2 by lia.
    change (opened (after_failures 1 k st)) with (opened st + k)%nat.
    pose proof (Hfail k ltac:(lia)) as Hlast.
    destruct (open_ (opened st + k)%nat url (openOptions o)) as [m|] eqn:Hm;
      [|done].
    rewrite bool_decide_eq_true_2 by lia. simpl. rewrite Hback.
    exists m. replace (opened st + (k + 1) - 1)%nat with (opened st + k)%nat by lia.
    split; [done|]. split; [done|]. split; [lia|].
    split; [|done]. by replace (k + 1 - 1)%nat with k by lia.
Qed.

Lemma X20_witness :
  let out := openUrl third_time_lucky "http://localhost:8080" (defaults create)
               create in
  openUrl third_time_lucky "http://localhost:8080"
    {| browser := None; newWindow := false; incognito := false;
       fullscreen := false; wait := true; retries := 0 |} create
  = (inr NoResult, create) /\
  out.1 = inr (Opened "http://localhost:8080" "default" 2) /\
  slept out.2 = [1000; 2000] /\
  (exists m, (openUrl (fun _ _ _ => Some "spawn ENOENT") "http://localhost:8080"
                (defaults create) create).1
             = inl (failedToOpen (defaults create) m)).
Proof.
  pose proof (X20_openUrl_retries_with_backoff third_time_lucky
                "http://localhost:8080" (defaults create) create) as (_ & H & _).
  pose proof (X20_openUrl_retries_with_backoff third_time_lucky
                "http://localhost:8080"
                {| browser := None; newWindow := false; incognito := false;
                   fullscreen := false; wait := true; retries := 0 |} create)
    as (H0 & _).
  pose proof (X20_openUrl_retries_with_backoff (fun _ _ _ => Some "spawn ENOENT")
                "http://localhost:8080" (defaults create) create) as (_ & _ & H3).
  split; [apply H0; simpl; lia|].
  destruct (H 2%nat) as (H1 & _ & H2 & _).
  { simpl. lia. }
  { intros j Hj. destruct j as [|[|j]]; [done | done | lia]. }
  { reflexivity. }
  split; [exact H1|]. split; [exact H2|].
  destruct H3 as (m & _ & Hm & _); [simpl; lia | done |].
  by exists m.
Defined.

(** [openMultipleUrls] leaves one entry per URL and tracks the
    subprocesses of its entries. *)
Lemma openMultipleUrls_loop_entries
    (open_ : nat -> string -> OpenOptions -> option string) (m : MultiOptions)
    (urls : list string) :
  forall (i : nat) (st : t),
    let out := openMultipleUrls_loop open_ i urls m st in
    Forall2 (fun x u => entry_for (each m) u x) out.1 urls /\
    openBrowsers out.2 = openBrowsers st ∪ list_to_set (processesOf out.1) /\
    killed out.2 = killed st.
Proof.
  induction urls as [|u rest IH]; intros i st; simpl.
  - split; [constructor|]. split; [|done]. unfold processesOf. simpl.
    by rewrite (right_id_L ∅ (∪)).
  - set (o := with_newWindow _ _).
    pose proof (openUrl_loop_tracks open_ u o (Z.to_nat (retries o)) 1 st
                  ltac:(lia)) as Ht.
    cbv zeta in Ht. fold (openUrl open_ u o st) in Ht.
    destruct (openUrl open_ u o st) as [[e|r] st1]; simpl in Ht.
    + destruct Ht as (Hk & Hpos & Hmsg & Hob).
      specialize (IH (S i) st1). cbv zeta in IH.
      destruct (openMultipleUrls_loop open_ (S i) rest m st1) as [results st2].
      simpl in *. destruct IH as (Hall & Hob2 & Hk2).
      split; [|split; [|congruence]].
      * constructor; [|done]. simpl. split; [done|]. split; [lia|].
        exact Hmsg.
      * unfold processesOf in *. simpl. rewrite Hob2, Hob. done.
    + set (st1' := match rest with [] => st1 | _ :: _ => _ end).
      assert (Hsame : openBrowsers st1' = openBrowsers st1 /\
                      killed st1' = killed st1).
      { subst st1'. by destruct rest. }
      destruct Hsame as [Hsame1 Hsame2].
      specialize (IH (S i) st1'). cbv zeta in IH.
      destruct (openMultipleUrls_loop open_ (S i) rest m st1') as [results st2].
      simpl in *. destruct IH as (Hall & Hob2 & Hk2).
      destruct Ht as [Hk Ht].
      split; [|split; [|congruence]].
      * constructor; [|done]. destruct r as [u' b p|]; simpl; [tauto|].
        destruct Ht as [Hlt _]. change (retries o) with (retries (each m)) in Hlt.
        lia.
      * rewrite Hob2, Hsame1. unfold processesOf in *.
        destruct r as [u' b p|]; simpl.
        -- destruct Ht as [_ ->]. apply set_eq. intros x.
           rewrite !elem_of_union. tauto.
        -- destruct Ht as [_ ->]. done.
Qed.

(** X21. [openMultipleUrls] never throws: it returns one entry per URL, in
    order, a result object for that URL or a failure record for it (a bare
    [undefined] only when [retries <= 0]). The subprocesses of the result
    objects are exactly what it adds to [openBrowsers], and a following
    [cleanup] sends [kill] to each of them and to everything tracked before,
    and empties [openBrowsers]. *)
Theorem X21_openMultipleUrls_entries_and_cleanup :
  forall (open_ : nat -> string -> OpenOptions -> option string)
         (urls : list string) (m : MultiOptions) (st : t),
    let out := openMultipleUrls open_ urls m st in
    length out.1 = length urls /\
    Forall2 (fun x u => entry_for (each m) u x) out.1 urls /\
    openBrowsers out.2 = openBrowsers st ∪ list_to_set (processesOf out.1) /\
    killed out.2 = killed st /\
    openBrowsers (cleanup out.2) = ∅ /\
    killed (cleanup out.2)
    = killed st ∪ openBrowsers st ∪ list_to_set (processesOf out.1).
Proof.
  intros open_ urls m st out. subst out. unfold openMultipleUrls.
  destruct (openMultipleUrls_loop_entries open_ m urls 0 st) as (Hall & Hob & Hk).
  split; [by apply Forall2_length in Hall|].
  split; [exact Hall|]. split; [exact Hob|]. split; [exact Hk|].
  split; [reflexivity|].
  unfold cleanup, closeAllBrowsers. simpl. rewrite Hk, Hob.
  apply set_eq. intros x. rewrite !elem_of_union. tauto.
Qed.
End BrowserAutomationProps.


(* ===================================================================== *)
(** * Properties of the GUI launcher                                      *)
(* ===================================================================== *)

Module GUILauncherProps.
Import GUILauncher.

Lemma addLog_logs (clock : nat -> string) (message level : string) (st : t) :
  logs (addLog clock message level st)
  = slice_last 200 (logs st ++ [{| timestamp := clock (ticks st);
                                    level := level; message := message |}]).
Proof.
  unfold addLog. simpl. case_bool_decide as H; [done|].
  unfold slice_last. by replace (_ - 200)%nat with 0%nat by lia.
Qed.

(** X22. The launcher keeps the newest 200 log entries: after any number
    of [addLog] calls [this.logs] is the last 200 entries of the old log
    followed by the new entries, in order of arrival, so it never holds
    more than 200; every new entry is sent to the clients as a
    ['logUpdate'], whether it stays in the log or not. *)
Theorem X22_addLog_keeps_newest_200 :
  forall (clock : nat -> string) (msgs : list (string * string)) (st : t),
    let st' := foldl (fun s ml => addLog clock ml.1 ml.2 s) st msgs in
    let entries := stamped clock (ticks st) msgs in
    (length (logs st) <= 200)%nat ->
    logs st' = slice_last 200 (logs st ++ entries) /\
    length (logs st') = ((length (logs st) + length msgs) `min` 200)%nat /\
    emitted st' = emitted st ++ (logUpdate <$> entries) /\
    systemStatus st' = systemStatus st.
Proof.
  intros clock msgs st st' entries Hlen. subst st' entries.
  assert (Hsl : forall l tl : list LogEntry,
             slice_last 200 (slice_last 200 l ++ tl) = slice_last 200 (l ++ tl)).
  { clear. intros l tl. unfold slice_last.
    rewrite !length_app, length_drop.
    destruct (decide (length l <= 200)%nat) as [Hle|Hgt].
    - replace (length l - 200)%nat with 0%nat by lia.
      by rewrite Nat.sub_0_r.
    - replace (length l - (length l - 200) + length tl - 200)%nat
        with (length tl) by lia.
      replace (length l + length tl - 200)%nat
        with ((length l - 200) + length tl)%nat by lia.
      rewrite <- drop_drop. by rewrite (drop_app_le l tl) by lia. }
  assert (Hgen : forall msgs st,
             (length (logs st) <= 200)%nat ->
             logs (foldl (fun s ml => addLog clock ml.1 ml.2 s) st msgs)
             = slice_last 200 (logs st ++ stamped clock (ticks st) msgs) /\
             emitted (foldl (fun s ml => addLog clock ml.1 ml.2 s) st msgs)
             = emitted st ++ (logUpdate <$> stamped clock (ticks st) msgs) /\
             systemStatus (foldl (fun s ml => addLog clock ml.1 ml.2 s) st msgs)
             = systemStatus st /\
             length (stamped clock (ticks st) msgs) = length msgs).
  { clear -Hsl. induction msgs as [|ml rest IH]; intros st Hlen; simpl.
    - rewrite !app_nil_r. split; [|done]. unfold slice_last.
      by replace (_ - 200)%nat with 0%nat by lia.
    - destruct (IH (addLog clock ml.1 ml.2 st)) as (Hl & He & Hs & Hn).
      { rewrite addLog_logs. unfold slice_last.
        rewrite length_drop, length_app. simpl. lia. }
      rewrite Hl, He, Hs. rewrite addLog_logs. simpl in *.
      split; [|split; [|split]].
      + rewrite Hsl. by rewrite <- app_assoc.
      + by rewrite <- app_assoc.
      + done.
      + by rewrite Hn. }
  destruct (Hgen msgs st Hlen) as (Hl & He & Hs & Hn).
  split; [exact Hl|]. split; [|split; [exact He | exact Hs]].
  rewrite Hl. unfold slice_last. rewrite length_drop, length_app, Hn. lia.
Qed.

Lemma X22_witness :
  let st' := foldl (fun s ml => addLog (fun k => pretty k) ml.1 ml.2 s) create
               (replicate 201 ("GUI client connected", "info")) in
  length (logs st') = 200%nat /\
  logs st' !! 0%nat
  = Some {| timestamp := "1"; level := "info"; message := "GUI client connected" |}.
Proof.
  pose proof (X22_addLog_keeps_newest_200 (fun k => pretty k)
                (replicate 201 ("GUI client connected", "info")) create) as H.
  cbv zeta in H. destruct H as (Hl & Hn & _); [simpl; lia|].
  split; [exact Hn|]. rewrite Hl. reflexivity.
Defined.

Section Restart.
Variable clock : nat -> string.

Lemma addLog_fields (m l : string) (st : t) :
  startup (addLog clock m l st) = startup st /\
  systemStatus (addLog clock m l st) = systemStatus st /\
  portManager (addLog clock m l st) = portManager st.
Proof. done. Qed.

Lemma startSystem_started (o : StartOptions) (st : t) :
  systemStatus st <> running -> systemStatus st <> starting ->
  (startSystem clock o st).1 = inr tt /\
  startup (startSystem clock o st).2
  = Some (newStartup (startupOptions o) (portManager st)) /\
  systemStatus (startSystem clock o st).2 = starting /\
  portManager (startSystem clock o st).2 = portManager st.
Proof.
  intros H1 H2. unfold startSystem.
  rewrite !bool_decide_eq_false_2 by done. done.
Qed.

Lemma startupSettled_alive (e : ViralContentStartup.Env) (st st' : t)
    (s : ViralContentStartup.t) :
  startup st = Some s ->
  ViralContentStartup.gui (ViralContentStartup.options s) = false ->
  startupSettled clock e st = Alive st' ->
  systemStatus st' = running /\
  portManager st'
  = ViralContentStartup.portManager
      (ViralContentStartup.findAvailablePort e s
         (ViralContentStartup.port (ViralContentStartup.options s))).2.
Proof.
  intros Hs Hgui. unfold startupSettled. rewrite Hs. cbv zeta.
  pose proof (ViralContentStartupProps.run_final e s Hgui) as Hfin.
  destruct (ViralContentStartup.exitCode (ViralContentStartup.run e s));
    [discriminate|].
  intros [= <-]. split; [done|].
  cbn [portManager addLog broadcastStatus].
  rewrite Hfin by done.
  apply ViralContentStartupProps.startMonitoringDashboard_portManager.
Qed.

Lemma stopSystem_fields (os : string -> ProcessManager.Program) (window : nat)
    (st : t) :
  systemStatus (stopSystem clock os window st) = stopped /\
  portManager (stopSystem clock os window st) = portManager st.
Proof.
  unfold stopSystem. case_bool_decide as H; [done|]. done.
Qed.
End Restart.

(** X23. Starting the system from the launcher, stopping it and starting
    it again: as long as the launcher process lives, the status is
    ['running'] after each start whichever steps failed, a start request
    in between is refused, and the stop leaves the status ['stopped'].
    The port that the first dashboard was given stays reserved through
    the stop, so the second start never gives the dashboard the same port
    again, even when that port is free. *)
Theorem X23_restart_moves_the_dashboard :
  forall (clock : nat -> string) (e1 e2 : ViralContentStartup.Env)
         (os : string -> ProcessManager.Program) (window : nat)
         (o1 o2 : StartOptions) (st g2 g5 : t) (p : Z),
    let g1 := (startSystem clock o1 st).2 in
    let g3 := stopSystem clock os window g2 in
    let g4 := (startSystem clock o2 g3).2 in
    systemStatus st = stopped ->
    dashboardPort e1 g1 = Some p ->
    startupSettled clock e1 g1 = Alive g2 ->
    startupSettled clock e2 g4 = Alive g5 ->
    systemStatus g2 = running /\
    (startSystem clock o2 g2).1 = inl "System is already running or starting" /\
    systemStatus g3 = stopped /\
    systemStatus g5 = running /\
    (p ∉ PortManager.reservedPorts (portManager st)) /\
    p ∈ PortManager.reservedPorts (portManager g3) /\
    p ∈ PortManager.reservedPorts (portManager g5) /\
    dashboardPort e2 g4 <> Some p.
Proof.
  intros clock e1 e2 os window o1 o2 st g2 g5 p g1 g3 g4 Hst Hp H2 H5.
  destruct (startSystem_started clock o1 st) as (_ & Hs1 & _ & Hpm1);
    [congruence | congruence |]. fold g1 in Hs1, Hpm1.
  destruct (startupSettled_alive clock e1 g1 g2 _ Hs1 eq_refl H2) as (Hr2 & Hpm2).
  destruct (stopSystem_fields clock os window g2) as (Hs3 & Hpm3).
  fold g3 in Hs3, Hpm3.
  destruct (startSystem_started clock o2 g3) as (_ & Hs4 & _ & Hpm4);
    [congruence | congruence |]. fold g4 in Hs4, Hpm4.
  destruct (startupSettled_alive clock e2 g4 g5 _ Hs4 eq_refl H5) as (Hr5 & Hpm5).
  unfold dashboardPort in Hp. rewrite Hs1 in Hp.
  change (ViralContentStartup.port _) with 3000 in Hp, Hpm2, Hpm5.
  destruct (ViralContentStartup.findAvailablePort e1 _ 3000)
    as [[m|p'] s1] eqn:Hf1; [discriminate|]. injection Hp as ->.
  apply ViralContentStartupProps.findAvailablePort_unreserved in Hf1
    as (Hfresh & Hres). cbn [snd] in Hpm2.
  change (ViralContentStartup.portManager (newStartup _ (portManager st)))
    with (portManager st) in Hfresh, Hres.
  assert (Hin3 : p ∈ PortManager.reservedPorts (portManager g3)).
  { rewrite Hpm3, Hpm2, Hres. apply elem_of_union. left.
    by apply elem_of_singleton. }
  split; [exact Hr2|]. split.
  { unfold startSystem. rewrite Hr2. reflexivity. }
  split; [exact Hs3|]. split; [exact Hr5|]. split; [exact Hfresh|].
  split; [exact Hin3|]. split.
  - rewrite Hpm5.
    apply (ViralContentStartupProps.findAvailablePort_keeps_reserved e2 _ 3000).
    change (ViralContentStartup.portManager (newStartup _ (portManager g3)))
      with (portManager g3). exact Hin3.
  - unfold dashboardPort. rewrite Hs4.
    change (ViralContentStartup.port _) with 3000.
    destruct (ViralContentStartup.findAvailablePort e2 _ 3000)
      as [[m|q] s4] eqn:Hf4; [discriminate|]. intros [= ->].
    apply ViralContentStartupProps.findAvailablePort_unreserved in Hf4 as (Hq & _).
    apply Hq. exact Hin3.
Qed.

Lemma X23_witness :
  systemStatus first_run = running /\
  3000 ∈ PortManager.reservedPorts (portManager second_run) /\
  dashboardPort ViralContentStartup.healthy_machine
    (startSystem (fun k => pretty k) no_options
       (stopSystem (fun k => pretty k) ProcessManager.always_fails 0 first_run)).2
  <> Some 3000.
Proof.
  pose proof (X23_restart_moves_the_dashboard (fun k => pretty k)
                ViralContentStartup.healthy_machine
                ViralContentStartup.healthy_machine
                ProcessManager.always_fails 0 no_options no_options
                create first_run second_run 3000) as H.
  cbv zeta in H.
  destruct H as (H1 & _ & _ & _ & _ & _ & H2 & H3).
  - reflexivity.
  - vm_compute. reflexivity.
  - vm_compute. reflexivity.
  - vm_compute. reflexivity.
  - split; [exact H1|]. split; [exact H2 | exact H3].
Defined.
End GUILauncherProps.


(* ===================================================================== *)
(** * Properties of the monitoring dashboard                              *)
(* ===================================================================== *)

Module MonitoringDashboardProps.
Import MonitoringDashboard.

(** X24. [testInstagramWorkflow] sends its three requests in order and
    stops at the first that fails: with [k] the number of requests that
    resolved, the first [k] steps are ['success'], the next one is
    ['failed'] and carries the message of the rejected request, the steps
    after it stay ['pending'] and their requests are never sent. The test
    succeeds exactly when [k = 3]. Either way [executed] grows by one, and
    so does [successful] or [failed]. *)
Theorem X24_instagram_test_stops_at_first_failure :
  forall (clock : nat -> Z) (axios : nat -> Endpoint -> option string) (st : t),
    let r := (testInstagramWorkflow clock axios st).1 in
    let st' := (testInstagramWorkflow clock axios st).2 in
    exists (k : nat) (stps : list Step),
      (k <= 3)%nat /\
      steps r = Some stps /\
      name <$> stps
      = ["Instagram API Connection"; "Content Analysis"; "AirTable Storage"] /\
      status <$> stps
      = replicate k success ++ take (3 - k) [failed_; pending; pending] /\
      (forall j ep, (j < k)%nat -> instagramEndpoints !! j = Some ep ->
                    axios (requests st + j)%nat ep = None) /\
      (ok r = true <-> k = 3%nat) /\
      (ok r = false ->
       exists ep m,
         instagramEndpoints !! k = Some ep /\
         axios (requests st + k)%nat ep = Some m /\
         failure r = Some m /\ error <$> stps !! k = Some (Some m)) /\
      requests st' = (requests st + S k `min` 3)%nat /\
      executed (workflows st') = executed (workflows st) + 1 /\
      successful (workflows st')
      = successful (workflows st) + (if ok r then 1 else 0) /\
      failed (workflows st') = failed (workflows st) + (if ok r then 0 else 1).
Proof.
  intros clock axios st r st'. subst r st'.
  unfold testInstagramWorkflow, runStep. cbn [tick sent requests ticks].
  destruct (axios (requests st) InstagramPosts) as [m0|] eqn:H0.
  { exists 0%nat. eexists. simpl.
    split; [lia|]. split; [reflexivity|]. split; [reflexivity|].
    split; [reflexivity|]. split; [intros; lia|]. split; [split; discriminate|].
    split; [|repeat split; lia].
    intros _. exists InstagramPosts, m0. rewrite Nat.add_0_r. done. }
  cbn [tick sent requests ticks].
  destruct (axios (S (requests st)) OpenAIModels) as [m1|] eqn:H1.
  { exists 1%nat. eexists. simpl.
    split; [lia|]. split; [reflexivity|]. split; [reflexivity|].
    split; [reflexivity|]. split.
    { intros j ep Hj. destruct j as [|j]; [|lia]. intros [= <-].
      rewrite <- H0. f_equal. lia. }
    split; [split; discriminate|].
    split; [|repeat split; lia].
    intros _. exists OpenAIModels, m1. rewrite Nat.add_1_r. done. }
  cbn [tick sent requests ticks].
  destruct (axios (S (S (requests st))) AirTableSources) as [m2|] eqn:H2.
  { exists 2%nat. eexists. simpl.
    split; [lia|]. split; [reflexivity|]. split; [reflexivity|].
    split; [reflexivity|]. split.
    { intros j ep Hj. destruct j as [|[|j]]; [| |lia]; intros [= <-].
      - rewrite <- H0. f_equal. lia.
      - rewrite <- H1. f_equal. lia. }
    split; [split; discriminate|].
    split; [|repeat split; lia].
    intros _. exists AirTableSources, m2.
    replace (requests st + 2)%nat with (S (S (requests st))) by lia. done. }
  exists 3%nat. eexists. simpl.
  split; [lia|]. split; [reflexivity|]. split; [reflexivity|].
  split; [reflexivity|]. split.
  { intros j ep Hj. destruct j as [|[|[|j]]]; [| | |lia]; intros [= <-].
    - rewrite <- H0. f_equal. lia.
    - rewrite <- H1. f_equal. lia.
    - rewrite <- H2. f_equal. lia. }
  split; [done|]. split; [discriminate|]. repeat split; lia.
Qed.

Lemma X24_witness :
  let r := (testInstagramWorkflow (fun k => 40 * Z.of_nat k) openai_down create).1 in
  exists ep m, instagramEndpoints !! 1%nat = Some ep /\
               openai_down 1%nat ep = Some m /\ failure r = Some m.
Proof.
  destruct (X24_instagram_test_stops_at_first_failure
              (fun k => 40 * Z.of_nat k) openai_down create)
    as (k & stps & Hk & Hs & _ & Hst & _ & _ & Hfail & _).
  destruct (Hfail eq_refl) as (ep & m & Hep & Hm & Hf & _).
  assert (k = 1%nat) as ->.
  { injection Hs as <-.
    destruct k as [|[|[|[|k]]]];
      [discriminate Hst | done | discriminate Hst | discriminate Hst | lia]. }
  exists ep, m. done.
Defined.

Section Counters.
Variable clock : nat -> Z.
Variable axios : nat -> Endpoint -> option string.

Lemma testInstagramWorkflow_counts (st : t) :
  let r := (testInstagramWorkflow clock axios st).1 in
  let st' := (testInstagramWorkflow clock axios st).2 in
  delta st st' = (1, if ok r then 1 else 0, if ok r then 0 else 1).
Proof.
  unfold testInstagramWorkflow, runStep, delta.
  cbn [tick sent requests ticks].
  destruct (axios _ InstagramPosts); simpl;
    [f_equal; [f_equal|]; lia|].
  destruct (axios _ OpenAIModels); simpl;
    [f_equal; [f_equal|]; lia|].
  destruct (axios _ AirTableSources); simpl;
    f_equal; try f_equal; lia.
Qed.

Lemma apply_delta (op : Op) (st : t) :
  exists s f : Z,
    delta st (apply clock axios op st) = (s + f, s, f) /\ 0 <= s /\ 0 <= f /\
    s + f = (if counted op then 1 else 0).
Proof.
  destruct op as [platform|platform succeeded duration]; simpl.
  - unfold testWorkflow.
    set (st0 := log clock _ _ st).
    change (delta st) with (delta st0).
    destruct (decide (toLowerCase platform = "instagram")) as [Hi|Hi].
    + rewrite bool_decide_eq_true_2 by done.
      pose proof (testInstagramWorkflow_counts st0) as Hc. cbv zeta in Hc.
      destruct (testInstagramWorkflow clock axios st0) as [r st1]. simpl in *.
      rewrite Hc.
      destruct (ok r); [exists 1, 0 | exists 0, 1]; (split; [done | lia]).
    + rewrite bool_decide_eq_false_2 by done.
      exists 0, 0. split; [|lia]. unfold delta.
      destruct (decide (toLowerCase platform = "linkedin")).
      { unfold testLinkedInWorkflow, testSingle.
        destruct (axios _ _); simpl; f_equal; try f_equal; lia. }
      destruct (decide (toLowerCase platform = "tiktok")).
      { unfold testTikTokWorkflow, testSingle.
        destruct (axios _ _); simpl; f_equal; try f_equal; lia. }
      simpl. f_equal; try f_equal; lia.
  - unfold delta.
    destruct succeeded; [exists 1, 0 | exists 0, 1];
      (split; [simpl; f_equal; try f_equal; lia | lia]).
Qed.
End Counters.

(** X25. Whatever sequence of workflow tests and tracked executions the
    dashboard goes through and whatever the network does, the counters
    never decrease and [executed] grows by exactly what [successful] and
    [failed] grow together, namely by the number of Instagram tests and
    tracked executions: tests of LinkedIn, TikTok or an unknown platform
    are not counted. From a new dashboard on, [executed] is the sum of
    [successful] and [failed]. *)
Theorem X25_workflow_counters_add_up :
  forall (clock : nat -> Z) (axios : nat -> Endpoint -> option string)
         (ops : list Op) (st : t),
    let st' := foldl (fun s op => apply clock axios op s) st ops in
    let w := workflows (foldl (fun s op => apply clock axios op s) create ops) in
    executed (workflows st') - executed (workflows st)
    = Z.of_nat (length (filter (fun op => counted op = true) ops)) /\
    executed (workflows st') - executed (workflows st)
    = (successful (workflows st') - successful (workflows st))
      + (failed (workflows st') - failed (workflows st)) /\
    successful (workflows st) <= successful (workflows st') /\
    failed (workflows st) <= failed (workflows st') /\
    executed w = successful w + failed w.
Proof.
  intros clock axios ops.
  assert (Hgen : forall st,
             let st' := foldl (fun s op => apply clock axios op s) st ops in
             executed (workflows st') - executed (workflows st)
             = Z.of_nat (length (filter (fun op => counted op = true) ops)) /\
             executed (workflows st') - executed (workflows st)
             = (successful (workflows st') - successful (workflows st))
               + (failed (workflows st') - failed (workflows st)) /\
             successful (workflows st) <= successful (workflows st') /\
             failed (workflows st) <= failed (workflows st')).
  { induction ops as [|op rest IH]; intros st; cbn [foldl].
    - rewrite filter_nil. simpl. lia.
    - destruct (IH (apply clock axios op st)) as (He & Hsum & Hs & Hf).
      destruct (apply_delta clock axios op st) as (s & f & Hd & Hs0 & Hf0 & Hc).
      unfold delta in Hd. injection Hd as Hd1 Hd2 Hd3.
      destruct (counted op) eqn:Hcnt.
      + rewrite filter_cons_True by done. simpl length. lia.
      + rewrite filter_cons_False by (rewrite Hcnt; discriminate). lia. }
  intros st st' w. subst st' w.
  destruct (Hgen st) as (He & Hsum & Hs & Hf).
  destruct (Hgen create) as (_ & Hsum0 & _).
  cbv zeta in *. simpl in Hsum0.
  repeat (split; [assumption|]). lia.
Qed.

(** X26. [/api/logs] answers with a tail of the entries that match the
    level filter, [total] being their number. A positive [limit] gives the
    newest [limit] of them; a missing, unreadable or zero [limit] counts as
    100. A negative [limit] sets no bound: [limit = -k] leaves out the [k]
    oldest entries and returns all the others. *)
Theorem X26_api_logs_limit :
  forall (q : Query) (st : t),
    let r := apiLogs q st in
    let total := length (matching q st) in
    res_total r = total /\
    (exists older, matching q st = older ++ res_logs r) /\
    (forall n, q_limit q = Some n -> 0 < n ->
               length (res_logs r) = (Z.to_nat n `min` total)%nat) /\
    (q_limit q = None \/ q_limit q = Some 0 ->
     length (res_logs r) = (100 `min` total)%nat) /\
    (forall n, q_limit q = Some n -> n < 0 ->
               length (res_logs r) = (total - Z.to_nat (- n))%nat).
Proof.
  intros q st r total. subst r total.
  unfold apiLogs. fold (matching q st). simpl.
  set (l := matching q st).
  split; [done|]. split.
  { unfold slice. eexists. symmetry. apply take_drop. }
  assert (Hlen : forall n : Z, n <> 0 ->
             length (slice (- n) l)
             = if bool_decide (0 < n) then (Z.to_nat n `min` length l)%nat
               else (length l - Z.to_nat (- n))%nat).
  { intros n Hn. unfold slice. rewrite length_drop.
    repeat case_bool_decide; lia. }
  split; [|split].
  - intros n -> Hn. rewrite bool_decide_eq_false_2 by lia.
    rewrite Hlen by lia. by rewrite bool_decide_eq_true_2 by lia.
  - intros [-> | ->]; simpl; rewrite Hlen by lia; reflexivity.
  - intros n -> Hn. rewrite bool_decide_eq_false_2 by lia.
    rewrite Hlen by lia. by rewrite bool_decide_eq_false_2 by lia.
Qed.

Lemma X26_witness :
  let st := foldl (fun s m => addLog (fun k => Z.of_nat k) m "info" s) create
              ["a"; "b"; "c"] in
  length (res_logs (apiLogs {| q_limit := Some 2; q_level := None |} st)) = 2%nat /\
  length (res_logs (apiLogs {| q_limit := None; q_level := Some "info" |} st))
  = 3%nat /\
  length (res_logs (apiLogs {| q_limit := Some (-1); q_level := None |} st))
  = 2%nat.
Proof.
  intros st. split; [|split].
  - destruct (X26_api_logs_limit {| q_limit := Some 2; q_level := None |} st)
      as (_ & _ & H & _).
    rewrite (H 2 eq_refl); [reflexivity | lia].
  - destruct (X26_api_logs_limit {| q_limit := None; q_level := Some "info" |} st)
      as (_ & _ & _ & H & _).
    rewrite H; [reflexivity | by left].
  - destruct (X26_api_logs_limit {| q_limit := Some (-1); q_level := None |} st)
      as (_ & _ & _ & _ & H).
    rewrite (H (-1) eq_refl); [reflexivity | lia].
Defined.
End MonitoringDashboardProps.
